(** * Secrets Manager arbitrary-secret resource and service-credentials data source

    A shallow embedding of
    [ibm/service/secretsmanager/resource_ibm_sm_arbitrary_secret.go] and
    [ibm/service/secretsmanager/data_source_ibm_sm_service_credentials_secret.go].

    Go code that mutates the resource data [d] and talks to the REST client is
    written in a small state monad over a [World] (the resource data and the
    log of REST calls issued so far); a Go run-time panic (failed type
    assertion, nil dereference, index out of range) is an outcome of its own. *)

From Stdlib Require Import ZArith Lia Bool Ascii String List.
From stdpp Require Import base option list gmap strings pretty.

Open Scope Z_scope.
Open Scope string_scope.

(** ** Go values held by the attribute map *)

(** Element of a list or map attribute: an [interface{}] that is nil or holds
    a primitive.  The framework hands over an empty string element of a list
    as nil. *)
Inductive Scalar :=
  | SNil
  | SString (s : string)
  | SInt (n : Z)
  | SBool (b : bool).

(** An attribute value ([interface{}]); [VNil] is the nil interface, [VBlocks]
    a list of nested blocks (a slice of maps). *)
Inductive Value :=
  | VNil
  | VString (s : string)
  | VInt (n : Z)
  | VBool (b : bool)
  | VList (l : list Scalar)
  | VBlocks (l : list (gmap string Scalar))
  | VMap (m : gmap string Scalar).

Inductive ValueType := TypeString | TypeInt | TypeBool | TypeList | TypeMap.

#[global] Instance Scalar_eq_dec : EqDecision Scalar.
Proof. solve_decision. Defined.
#[global] Instance Value_eq_dec : EqDecision Value.
Proof. solve_decision. Defined.
#[global] Instance ValueType_eq_dec : EqDecision ValueType.
Proof. solve_decision. Defined.

(** [fmt.Sprint(v)] on an element. *)
Definition Sprint (v : Scalar) : string :=
  match v with
  | SNil => "<nil>"
  | SString s => s
  | SInt n => pretty n
  | SBool true => "true"
  | SBool false => "false"
  end.

Definition zero_value (t : ValueType) : Value :=
  match t with
  | TypeString => VString ""
  | TypeInt => VInt 0
  | TypeBool => VBool false
  | TypeList => VList []
  | TypeMap => VMap ∅
  end.

Definition is_zero (v : Value) : bool :=
  match v with
  | VNil => true
  | VString s => bool_decide (s = "")
  | VInt n => bool_decide (n = 0)
  | VBool b => negb b
  | VList l => bool_decide (l = [])
  | VBlocks l => bool_decide (l = [])
  | VMap m => bool_decide (m = ∅)
  end.

(** ** Text helpers *)

Definition nl : string := String (ascii_of_nat 10) EmptyString.
Definition dquote : string := String (ascii_of_nat 34) EmptyString.

(** ** Errors, responses, diagnostics *)

Definition Duration := Z.
Definition Second : Duration := 1000000000.

(** A Go [error]: the concrete types the code distinguishes. *)
Inductive error :=
  | errorString (msg : string)
  | RequestFailure (code : Z) (msg : string)
  | TimeoutError (LastState : string) (Timeout : Duration) (ExpectedState : list string)
  | UnexpectedStateError (State : string) (ExpectedState : list string)
  | NotFoundError (Retries : nat).

(** [*core.DetailedResponse]; [Rendered] is what its [String] method prints. *)
Record DetailedResponse := {
  StatusCode : Z;
  Rendered : string;
}.

(** [%s] applied to a possibly nil [*core.DetailedResponse]: the verb calls
    the [String] method, which prints the JSON rendering followed by a line
    break, and the JSON rendering of a nil pointer is [null]. *)
Definition fmt_response (r : option DetailedResponse) : string :=
  match r with
  | Some r => Rendered r
  | None => "null" ++ nl
  end.

Inductive Severity := diag_Error | diag_Warning.

Record Diagnostic := {
  DiagSeverity : Severity;
  Summary : string;
}.

(** [diag.Diagnostics]; the nil slice is [[]]. *)
Definition Diagnostics := list Diagnostic.

(** [response != nil && response.StatusCode == code] *)
Definition response_is (r : option DetailedResponse) (code : Z) : bool :=
  match r with
  | Some r => (StatusCode r =? code)%Z
  | None => false
  end.

Definition HasError (ds : Diagnostics) : bool :=
  existsb (fun x => match DiagSeverity x with diag_Error => true | diag_Warning => false end) ds.

(** ** [strings.Split] with a one-character separator *)

Fixpoint Split (s : string) (sep : ascii) : list string :=
  match s with
  | EmptyString => [EmptyString]
  | String c s' =>
      if Ascii.eqb c sep then EmptyString :: Split s' sep
      else match Split s' sep with
           | p :: ps => String c p :: ps
           | [] => [String c EmptyString]
           end
  end.

Definition slash : ascii := "/"%char.

Example Split_id : Split "us-south/inst/abc" slash = ["us-south"; "inst"; "abc"].
Proof. reflexivity. Qed.

Example Split_empty : Split "" slash = [""].
Proof. reflexivity. Qed.

Lemma Split_length s sep :
  length (Split s sep) = S (length (filter (fun c => c = sep) (list_ascii_of_string s))).
Proof.
  induction s as [|c s IH]; [reflexivity|].
  cbn [Split list_ascii_of_string]. rewrite filter_cons.
  destruct (Ascii.eqb_spec c sep) as [->|Hne].
  - rewrite decide_True by done. cbn. by rewrite IH.
  - rewrite decide_False by done.
    destruct (Split s sep) as [|p ps] eqn:E; [discriminate|].
    cbn in *. done.
Qed.

(** ** The REST client's models (package [secretsmanagerv2]) *)

(** The structs are the REST SDK's; they are given with the fields that the
    two files read or write, a nil pointer being [None]. *)

(** [strfmt.DateTime]: an instant, as Unix nanoseconds. *)
Definition DateTime := Z.

Record ArbitrarySecret := {
  CreatedBy : option string;
  CreatedAt : option DateTime;
  Crn : option string;
  CustomMetadata : option (gmap string Scalar);
  Description : option string;
  Downloaded : option bool;
  ID : option string;
  Labels : option (list string);
  LocksTotal : option Z;
  Name : option string;
  SecretGroupID : option string;
  SecretType : option string;
  State : option Z;
  StateDescription : option string;
  UpdatedAt : option DateTime;
  VersionsTotal : option Z;
  ExpirationDate : option DateTime;
  Payload : option string;
}.

Record ArbitrarySecretPrototype := {
  pCustomMetadata : option (gmap string Scalar);
  pDescription : option string;
  pExpirationDate : option DateTime;
  pLabels : option (list string);
  pName : option string;
  pSecretGroupID : option string;
  pSecretType : option string;
  pVersionCustomMetadata : option (gmap string Scalar);
  pPayload : option string;
}.

(** The fields of [SecretMetadataPatch] the resource assigns. *)
Record SecretMetadataPatch := {
  mName : option string;
  mDescription : option string;
  mLabels : option (list string);
  mCustomMetadata : option (gmap string Scalar);
}.

Record CommonRotationPolicy := {
  AutoRotate : option bool;
  Interval : option Z;
  Unit_ : option string;
}.

(** A value of interface type [RotationPolicyIntf]. *)
Inductive RotationPolicyIntf :=
  | CommonRotationPolicyPtr (r : CommonRotationPolicy)
  | OtherRotationPolicyPtr (type_name : string).

(** The payload and source-service models of a service-credentials secret,
    with the fields that the data source's schema declares for them. *)
Record ServiceCredentialsSecretCredentials := {
  Apikey : option string;
  CosHmacKeys : option (option string * option string);
  Endpoints : option string;
  IamApikeyDescription : option string;
  IamApikeyName : option string;
  IamRoleCrn : option string;
  IamServiceidCrn : option string;
  ResourceInstanceID : option string;
}.

Record ServiceCredentialsSecretSourceService := {
  InstanceCrn : option string;
  RoleCrn : option string;
  IamApikey : option (option string * option string);
  IamRoleCrn' : option string;
  IamServiceidCrn' : option string;
  ResourceKey : option (option string * option string);
  Parameters : option (gmap string Scalar);
}.

Record ServiceCredentialsSecret := {
  scCreatedBy : option string;
  scCreatedAt : option DateTime;
  scCrn : option string;
  scCustomMetadata : option (gmap string Scalar);
  scDescription : option string;
  scDownloaded : option bool;
  scID : option string;
  scLabels : option (list string);
  scLocksTotal : option Z;
  scName : option string;
  scSecretGroupID : option string;
  scSecretType : option string;
  scState : option Z;
  scStateDescription : option string;
  scUpdatedAt : option DateTime;
  scVersionsTotal : option Z;
  scTTL : option string;
  scRotation : option RotationPolicyIntf;
  scNextRotationDate : option DateTime;
  scCredentials : option ServiceCredentialsSecretCredentials;
  scSourceService : option ServiceCredentialsSecretSourceService;
}.

(** A value of interface type [SecretIntf]: a pointer to one of the secret
    structs; the dynamic types these files do not inspect are kept by name. *)
Inductive SecretIntf :=
  | ArbitrarySecretPtr (s : ArbitrarySecret)
  | ServiceCredentialsSecretPtr (s : ServiceCredentialsSecret)
  | OtherSecretPtr (type_name : string).

(** [SecretMetadataPatch.AsPatch] is the REST SDK's: it marshals the struct
    to JSON and reads the JSON back into a generic map, the body of the PATCH
    request.  The fields of the struct are tagged [omitempty], so a nil
    pointer leaves its key out, and so does a slice or a map without
    elements; a pointer to the empty string is kept. *)
Definition AsPatch (patchVals : SecretMetadataPatch) : gmap string Value :=
  let _patch : gmap string Value := ∅ in
  let _patch :=
    match mName patchVals with
    | Some name => <["name" := VString name]> _patch
    | None => _patch
    end in
  let _patch :=
    match mDescription patchVals with
    | Some description => <["description" := VString description]> _patch
    | None => _patch
    end in
  let _patch :=
    match mLabels patchVals with
    | Some (label :: labels) => <["labels" := VList (SString <$> label :: labels)]> _patch
    | _ => _patch
    end in
  let _patch :=
    match mCustomMetadata patchVals with
    | Some custom_metadata =>
        if bool_decide (custom_metadata = ∅) then _patch
        else <["custom_metadata" := VMap custom_metadata]> _patch
    | None => _patch
    end in
  _patch.

(** One call on the REST client, with the options it carries; an update
    carries the body of its PATCH request. *)
Inductive Call :=
  | CreateSecret (proto : ArbitrarySecretPrototype)
  | GetSecret (id : string)
  | UpdateSecretMetadata (id : string) (patch : gmap string Value)
  | DeleteSecret (id : string).

(** What a call returns: [(result, response, err)]. *)
Record Reply := {
  result : option SecretIntf;
  response : option DetailedResponse;
  err : option error;
}.

(** The remote service: the reply to a call, given the calls already served
    and how they were answered. *)
Definition Service := list (Call * Reply) -> Call -> Reply.

(** [meta]: the client session.  [SecretsManagerV2_err] is the error of
    [meta.(conns.ClientSession).SecretsManagerV2()], if any. *)
Record Meta := {
  SecretsManagerV2_err : option error;
  service : Service;
}.

(** ** Run-time panics *)

Inductive PanicReason :=
  | NilInterfaceConversion
  | WrongTypeConversion
  | NilDereference
  | IndexOutOfRange.

(** Result of a computation that may panic.  [OutOfFuel] marks a loop of the
    model that was cut off; it is not an outcome of the Go code. *)
Inductive Res (A : Type) :=
  | Ok (a : A)
  | Panic (r : PanicReason)
  | OutOfFuel.
Arguments Ok {A} a.
Arguments Panic {A} r.
Arguments OutOfFuel {A}.

Definition Res_bind {A B} (m : Res A) (f : A -> Res B) : Res B :=
  match m with
  | Ok a => f a
  | Panic r => Panic r
  | OutOfFuel => OutOfFuel
  end.

Notation "x <~ m ;; k" := (Res_bind m (fun x => k))
  (at level 100, m at next level, right associativity).

(** ** Schemas and resource data *)

#[local] Unset Elimination Schemes.

(** [schema.Schema]: the type and flags of an attribute; [Elem] holds the
    attributes of a nested block and is empty for primitive elements. *)
Inductive Schema :=
  mkSchema (Type_ : ValueType) (Required Optional Computed ForceNew Sensitive : bool)
           (Elem : list (string * Schema)).

#[local] Set Elimination Schemes.

Definition schema_Type (s : Schema) := let 'mkSchema t _ _ _ _ _ _ := s in t.
Definition schema_Required (s : Schema) := let 'mkSchema _ b _ _ _ _ _ := s in b.
Definition schema_Optional (s : Schema) := let 'mkSchema _ _ b _ _ _ _ := s in b.
Definition schema_Computed (s : Schema) := let 'mkSchema _ _ _ b _ _ _ := s in b.
Definition schema_ForceNew (s : Schema) := let 'mkSchema _ _ _ _ b _ _ := s in b.
Definition schema_Sensitive (s : Schema) := let 'mkSchema _ _ _ _ _ b _ := s in b.
Definition schema_Elem (s : Schema) := let 'mkSchema _ _ _ _ _ _ e := s in e.

(** Shorthands for the flag combinations the declarations use. *)
Definition required t := mkSchema t true false false false false [].
Definition optional t := mkSchema t false true false false false [].
Definition computed t := mkSchema t false false true false false [].
Definition optional_computed t := mkSchema t false true true false false [].
Definition computed_block t elem := mkSchema t false false true false false elem.

Definition lookup_schema (sch : list (string * Schema)) (key : string) : option Schema :=
  snd <$> List.find (fun kv => bool_decide (fst kv = key)) sch.

(** The lists and maps of the two schemas have string elements
    ([Elem: &schema.Schema{Type: schema.TypeString}]): an element is a string
    or nil. *)
Definition is_string_elem (v : Scalar) : bool :=
  match v with
  | SNil | SString _ => true
  | _ => false
  end.

Definition string_elems (l : list Scalar) : bool := forallb is_string_elem l.

Definition string_values (m : gmap string Scalar) : bool :=
  forallb (fun kv => is_string_elem (snd kv)) (map_to_list m).

(** The value of an attribute of primitive type [t] inside a nested block. *)
Definition scalar_has_type (t : ValueType) (v : Scalar) : bool :=
  match v, t with
  | SNil, (TypeString | TypeInt | TypeBool) => true
  | SString _, TypeString => true
  | SInt _, TypeInt => true
  | SBool _, TypeBool => true
  | _, _ => false
  end.

(** A nested block holds attributes that its schema declares, with values of
    their types. *)
Definition block_has_type (elem : list (string * Schema)) (b : gmap string Scalar) : bool :=
  forallb (fun kv => match lookup_schema elem (fst kv) with
                     | Some sc => scalar_has_type (schema_Type sc) (snd kv)
                     | None => false
                     end) (map_to_list b).

(** A non-nil value fits an attribute of schema [sc]. *)
Definition has_type (sc : Schema) (v : Value) : bool :=
  match v with
  | VNil => false
  | VString _ => bool_decide (schema_Type sc = TypeString)
  | VInt _ => bool_decide (schema_Type sc = TypeInt)
  | VBool _ => bool_decide (schema_Type sc = TypeBool)
  | VList l =>
      bool_decide (schema_Type sc = TypeList)
      && match schema_Elem sc with [] => true | _ => false end
      && string_elems l
  | VBlocks l =>
      bool_decide (schema_Type sc = TypeList)
      && match schema_Elem sc with [] => false | _ => true end
      && forallb (block_has_type (schema_Elem sc)) l
  | VMap m => bool_decide (schema_Type sc = TypeMap) && string_values m
  end.

(** [schema.ResourceData], as far as the resource uses it.  [rd_old] is the
    prior state, [rd_new] the planned values merged with what [Set] wrote.
    The framework writes a list, a list of blocks or a map entry by entry, so
    when it refuses one it may already have written some of the entries:
    [rd_refused key v old] is what attribute [key] holds after the refused
    write of [v] over [old], and nothing is assumed about it. *)
Record ResourceData := {
  rd_schema : gmap string Schema;
  rd_id : string;
  rd_old : gmap string Value;
  rd_new : gmap string Value;
  rd_timeout_create : Duration;
  rd_refused : string -> Value -> option Value -> option Value;
}.

(** ** The monad of the lifecycle functions *)

(** The resource data and the REST calls issued so far, each with its reply. *)
Record World := {
  w_d : ResourceData;
  w_log : list (Call * Reply);
}.

Definition Go (A : Type) : Type := World -> Res A * World.

Definition Go_ret {A} (a : A) : Go A := fun w => (Ok a, w).
Definition Go_bind {A B} (m : Go A) (f : A -> Go B) : Go B := fun w =>
  match m w with
  | (Ok a, w') => f a w'
  | (Panic r, w') => (Panic r, w')
  | (OutOfFuel, w') => (OutOfFuel, w')
  end.

Notation "x <- m ;; k" := (Go_bind m (fun x => k))
  (at level 100, m at next level, right associativity).

Definition lift {A} (r : Res A) : Go A := fun w => (r, w).
Definition get_d : Go ResourceData := fun w => (Ok (w_d w), w).

(** Issue one call on the client: the service answers from the calls it has
    served, and the call is appended to the log. *)
Definition call (sv : Service) (c : Call) : Go Reply :=
  fun w => let rep := sv (w_log w) c in
           (Ok rep, {| w_d := w_d w; w_log := w_log w ++ [(c, rep)] |}).

(** Type assertions [v.(T)] without the comma-ok form. *)
Definition as_string (v : Value) : Res string :=
  match v with
  | VString s => Ok s
  | VNil => Panic NilInterfaceConversion
  | _ => Panic WrongTypeConversion
  end.

Definition as_list (v : Value) : Res (list Scalar) :=
  match v with
  | VList l => Ok l
  | VNil => Panic NilInterfaceConversion
  | _ => Panic WrongTypeConversion
  end.

Definition as_map (v : Value) : Res (gmap string Scalar) :=
  match v with
  | VMap m => Ok m
  | VNil => Panic NilInterfaceConversion
  | _ => Panic WrongTypeConversion
  end.

(** The assertion of a [SecretIntf] to a pointer to [ArbitrarySecret]. *)
Definition as_ArbitrarySecret (x : option SecretIntf) : Res ArbitrarySecret :=
  match x with
  | Some (ArbitrarySecretPtr s) => Ok s
  | Some _ => Panic WrongTypeConversion
  | None => Panic NilInterfaceConversion
  end.

Definition as_ServiceCredentialsSecret (x : option SecretIntf) : Res ServiceCredentialsSecret :=
  match x with
  | Some (ServiceCredentialsSecretPtr s) => Ok s
  | Some _ => Panic WrongTypeConversion
  | None => Panic NilInterfaceConversion
  end.

Definition as_CommonRotationPolicy (x : RotationPolicyIntf) : Res CommonRotationPolicy :=
  match x with
  | CommonRotationPolicyPtr r => Ok r
  | OtherRotationPolicyPtr _ => Panic WrongTypeConversion
  end.

(** Pointer dereference. *)
Definition deref {A} (p : option A) : Res A :=
  match p with
  | Some a => Ok a
  | None => Panic NilDereference
  end.

(** Slice indexing. *)
Definition index {A} (l : list A) (i : nat) : Res A :=
  match l !! i with
  | Some a => Ok a
  | None => Panic IndexOutOfRange
  end.

(** ** Operations of [schema.ResourceData] *)

(** The resource data is the plugin framework's; its operations follow the
    framework's contract: [Get] reads an attribute (the zero value of its type
    when unset, nil for a key outside the schema; a nested block with every
    attribute that the block declares), [GetOk] also tells whether the value
    is set to something other than the zero value, [HasChange] compares the
    prior state with the planned value, [Set] writes a value of the declared
    type. *)

Definition Id (d : ResourceData) : string := rd_id d.

Definition SetId (v : string) (d : ResourceData) : ResourceData :=
  {| rd_schema := rd_schema d; rd_id := v; rd_old := rd_old d;
     rd_new := rd_new d; rd_timeout_create := rd_timeout_create d;
     rd_refused := rd_refused d |}.

Definition zero_scalar (t : ValueType) : Scalar :=
  match t with
  | TypeInt => SInt 0
  | TypeBool => SBool false
  | _ => SString ""
  end.

(** A nested block as it is read: each attribute of primitive type that the
    block declares, with the zero value of its type when the block does not
    hold it or holds nil.  (Attributes of a block that are lists or maps have
    no counterpart in [Scalar]; the two files write no such block.) *)
Definition read_block (elem : list (string * Schema)) (b : gmap string Scalar)
  : gmap string Scalar :=
  list_to_map
    (omap (fun kv =>
             match schema_Type (snd kv) with
             | TypeList | TypeMap => None
             | t => Some (fst kv, match b !! fst kv with
                                  | Some SNil | None => zero_scalar t
                                  | Some v => v
                                  end)
             end) elem).

(** What is read of an attribute of schema [sc] that holds [stored]. *)
Definition read_value (sc : Schema) (stored : option Value) : Value :=
  match stored with
  | Some (VBlocks l) => VBlocks (read_block (schema_Elem sc) <$> l)
  | Some v => v
  | None => zero_value (schema_Type sc)
  end.

Definition read_attr (d : ResourceData) (m : gmap string Value) (key : string) : Value :=
  match rd_schema d !! key with
  | Some sc => read_value sc (m !! key)
  | None => VNil
  end.

Definition Get (d : ResourceData) (key : string) : Value := read_attr d (rd_new d) key.

Definition GetOk (d : ResourceData) (key : string) : Value * bool :=
  let v := Get d key in (v, negb (is_zero v)).

Definition HasChange (d : ResourceData) (key : string) : bool :=
  negb (bool_decide (read_attr d (rd_old d) key = read_attr d (rd_new d) key)).

(** An element as the framework's writer stores it: nil as the empty
    string. *)
Definition stored_elem (v : Scalar) : Scalar :=
  match v with
  | SNil => SString ""
  | _ => v
  end.

Definition stored_form (v : Value) : Value :=
  match v with
  | VList l => VList (stored_elem <$> l)
  | VMap m => VMap (stored_elem <$> m)
  | _ => v
  end.

(** [d.Set(key, value)]: an error for a key outside the schema or a value of
    another type; a nil value clears the attribute.  A refused primitive
    leaves the attribute as it was; a refused list, list of blocks or map
    leaves what [rd_refused] tells. *)
Definition Set_ (key : string) (v : Value) (d : ResourceData) : ResourceData * option error :=
  match rd_schema d !! key with
  | None => (d, Some (errorString ("Invalid address to set: " ++ key)))
  | Some sc =>
      let write m :=
        {| rd_schema := rd_schema d; rd_id := rd_id d; rd_old := rd_old d;
           rd_new := m; rd_timeout_create := rd_timeout_create d;
           rd_refused := rd_refused d |} in
      match v with
      | VNil => (write (delete key (rd_new d)), None)
      | VString _ | VInt _ | VBool _ =>
          if has_type sc v then (write (<[key := v]> (rd_new d)), None)
          else (d, Some (errorString (key ++ ": wrong type")))
      | _ =>
          if has_type sc v then (write (<[key := stored_form v]> (rd_new d)), None)
          else (write (partial_alter (rd_refused d key v) key (rd_new d)),
                Some (errorString (key ++ ": wrong type")))
      end
  end.

Definition d_SetId (v : string) : Go unit :=
  fun w => (Ok tt, {| w_d := SetId v (w_d w); w_log := w_log w |}).

Definition d_Set (key : string) (v : Value) : Go (option error) :=
  fun w => let '(d', e) := Set_ key v (w_d w) in
           (Ok e, {| w_d := d'; w_log := w_log w |}).

(** Pointers to primitives as [Set] takes them. *)
Definition VStringPtr (p : option string) : Value :=
  match p with Some s => VString s | None => VNil end.
Definition VBoolPtr (p : option bool) : Value :=
  match p with Some b => VBool b | None => VNil end.
Definition VStrings (l : list string) : Value := VList (SString <$> l).

(** ** The schema of the resource *)

(** The [Schema] map of [ResourceIbmSmArbitrarySecret]. *)
Definition ResourceIbmSmArbitrarySecret_Schema : list (string * Schema) :=
  [ ("name", required TypeString);
    ("secret_type", computed TypeString);
    ("payload", mkSchema TypeString true false false true true []);
    ("custom_metadata", optional_computed TypeMap);
    ("description", optional TypeString);
    ("expiration_date", optional TypeString);
    ("labels", optional_computed TypeList);
    ("secret_group_id", mkSchema TypeString false true true true false []);
    ("version_custom_metadata", optional TypeMap);
    ("created_by", computed TypeString);
    ("created_at", computed TypeString);
    ("crn", computed TypeString);
    ("downloaded", computed TypeBool);
    ("secret_id", computed TypeString);
    ("locks_total", computed TypeInt);
    ("state", computed TypeInt);
    ("state_description", computed TypeString);
    ("updated_at", computed TypeString);
    ("versions_total", computed TypeInt) ].

(** What the framework guarantees about the resource data it hands over:
    every stored value has the type its attribute is declared with, and the
    attributes of a schema map are declared with their types. *)
Definition well_typed (d : ResourceData) : Prop :=
  map_Forall (fun key v => exists sc, rd_schema d !! key = Some sc /\ has_type sc v = true)
             (rd_new d).

Definition declares (d : ResourceData) (sch : list (string * Schema)) : Prop :=
  Forall (fun kv => rd_schema d !! fst kv = Some (snd kv)) sch.

#[global] Instance well_typed_dec d : Decision (well_typed d).
Proof.
  unfold well_typed. apply map_Forall_dec. intros key v.
  destruct (rd_schema d !! key) as [sc|].
  - destruct (has_type sc v) eqn:E.
    + left. eauto.
    + right. intros (sc' & [= <-] & H). congruence.
  - right. intros (sc' & [=] & _).
Defined.

(** ** Errors built from a text *)

(** [fmt.Errorf] and [errors.New] build a plain error from its text. *)
Definition Errorf (msg : string) : error := errorString msg.

Section Resource.

(** Functions of other packages that the files call and that issue no REST
    call: the standard library's [time.Parse] with the RFC 3339 layout, the
    [flex] and date helpers, the text of the polling helper's own errors, and
    [getRegion].  ([getEndpointType] and [getClientWithInstanceEndpoint] only
    choose the URL the client's calls go to, which the log does not record.) *)
Variable time_Parse_RFC3339 : string -> DateTime + error.
Variable flex_DateTimeToString : option DateTime -> string.
Variable flex_IntValue : option Z -> Z.
Variable DateTimeToRFC3339 : option DateTime -> string.
Variable resource_Error : error -> string.
Variable getRegion : ResourceData -> string.

(** Modelled from the spec: the pause that [WaitForState] makes after refresh
    number [n] (counted from 0) of a poll whose minimum interval is [m].  The
    spec speaks of a fixed delay and of a minimum interval and leaves the
    pauses to the framework, so all that is assumed of them is that, for the
    minimum interval of 5 seconds that the resource asks for, no pause is
    shorter than that. *)
Variable pause : Duration -> nat -> Duration.
Hypothesis pause_min : forall n, (5 * Second <= pause (5 * Second) n)%Z.

(** The method [Error] of an [error]. *)
Definition Error_ (e : error) : string :=
  match e with
  | errorString msg => msg
  | RequestFailure _ msg => msg
  | _ => resource_Error e
  end.

Definition diag_FromErr (e : error) : Diagnostics :=
  [ {| DiagSeverity := diag_Error; Summary := Error_ e |} ].

Definition diag_Errorf (msg : string) : Diagnostics :=
  [ {| DiagSeverity := diag_Error; Summary := msg |} ].

(** *** [resourceIbmSmArbitrarySecretMapToArbitrarySecretPrototype] *)

(** [if _, ok := d.GetOk(key); ok { field = conv(d.Get(key)) }] *)
Definition field_if_set {A} (d : ResourceData) (key : string) (conv : Value -> Res A)
  : Res (option A) :=
  if snd (GetOk d key) then v <~ conv (Get d key) ;; Ok (Some v)
  else Ok None.

Definition parse_labels (v : Value) : Res (list string) :=
  labels <~ as_list v ;; Ok (Sprint <$> labels).

Definition resourceIbmSmArbitrarySecretMapToArbitrarySecretPrototype (d : ResourceData)
  : Res (ArbitrarySecretPrototype + error) :=
  name <~ field_if_set d "name" as_string ;;
  payload <~ field_if_set d "payload" as_string ;;
  custom_metadata <~ field_if_set d "custom_metadata" as_map ;;
  description <~ field_if_set d "description" as_string ;;
  expiration <~ field_if_set d "expiration_date" as_string ;;
  match
    match expiration with
    | Some text =>
        match time_Parse_RFC3339 text with
        | inl t => inl (Some t)
        | inr e => inr (Errorf ("Failed to get " ++ dquote ++ "expiration_date" ++ dquote
                                ++ ". Error: " ++ Error_ e))
        end
    | None => inl None
    end
  with
  | inr e => Ok (inr e)
  | inl expiration_date =>
      labels <~ field_if_set d "labels" parse_labels ;;
      secret_group_id <~ field_if_set d "secret_group_id" as_string ;;
      version_custom_metadata <~ field_if_set d "version_custom_metadata" as_map ;;
      Ok (inl {| pCustomMetadata := custom_metadata;
                   pDescription := description;
                   pExpirationDate := expiration_date;
                   pLabels := labels;
                   pName := name;
                   pSecretGroupID := secret_group_id;
                   pSecretType := Some "arbitrary";
                   pVersionCustomMetadata := version_custom_metadata;
                   pPayload := payload |})
  end.

(** *** The creation poll *)

(** [resource.StateChangeConf], with the fields the resource fills in. *)
Record StateChangeConf := {
  Pending : list string;
  Target : list string;
  Refresh : Go (option ArbitrarySecret * string * option error);
  Timeout : Duration;
  Delay : Duration;
  MinTimeout : Duration;
}.

Definition failStates : gmap string bool := {[ "destroyed" := true ]}.

(** Indexing a Go map of booleans: a missing key reads as [false]. *)
Definition map_index (m : gmap string bool) (k : string) : bool := default false (m !! k).

(** The [Refresh] closure of [waitForIbmSmArbitrarySecretCreate]. *)
Definition waitForIbmSmArbitrarySecretCreate_Refresh (sv : Service) (secretId : string)
  : Go (option ArbitrarySecret * string * option error) :=
  rep <- call sv (GetSecret secretId) ;;
  stateObj <- lift (as_ArbitrarySecret (result rep)) ;;
  match err rep with
  | Some e =>
      match e with
      | RequestFailure 404 _ =>
          Go_ret (None, "", Some (Errorf ("The instance getSecretOptions does not exist anymore: "
                                          ++ Error_ e ++ nl ++ fmt_response (response rep))))
      | _ => Go_ret (None, "", Some e)
      end
  | None =>
      state <- lift (deref (StateDescription stateObj)) ;;
      if map_index failStates state then
        Go_ret (Some stateObj, state,
                Some (Errorf ("The instance getSecretOptions failed: %!s(<nil>)"
                              ++ nl ++ fmt_response (response rep))))
      else Go_ret (Some stateObj, state, None)
  end.

(** Modelled from the spec: the framework's default bound on consecutive
    not-found results of a poll. *)
Definition NotFoundChecks : nat := 20.

(** Modelled from the spec: [StateChangeConf.WaitForState] belongs to the
    plugin framework's [helper/resource] package and is not under src/.  The
    spec describes it as a blocking poll with a fixed delay, a minimum
    interval and a caller-supplied timeout, which runs until the status field
    goes from a pending value to a target value, and in which an error of the
    refresh is terminal.  Time is counted in nanoseconds from the start of the
    wait: the first refresh is due after [Delay], refresh number [n + 1] is
    due [pause (MinTimeout conf) n] after refresh number [n], and a refresh
    that is due at or after [Timeout] is replaced by the timeout error.  Where
    the spec is silent the framework's rules are used: a status that is
    neither target nor pending (with a non-empty pending list) is an
    unexpected-state error, and a nil result without error counts as not
    found, at most [NotFoundChecks] times in a row. *)
Fixpoint WaitForState_poll (fuel : nat) (conf : StateChangeConf) (t : Duration)
    (n : nat) (last : string) (notfound : nat)
  : Go (option ArbitrarySecret * option error) :=
  match fuel with
  | O => lift OutOfFuel
  | S fuel' =>
      if (Timeout conf <=? t)%Z then
        Go_ret (None, Some (TimeoutError last (Timeout conf) (Target conf)))
      else
        r <- Refresh conf ;;
        let '(res, state, e) := r in
        let next := (t + pause (MinTimeout conf) n)%Z in
        match e with
        | Some e => Go_ret (res, Some e)
        | None =>
            match res with
            | None =>
                if bool_decide (Target conf = []) then Go_ret (None, None)
                else if (NotFoundChecks <? S notfound)%nat then
                  Go_ret (None, Some (NotFoundError (S notfound)))
                else WaitForState_poll fuel' conf next (S n) state (S notfound)
            | Some obj =>
                if bool_decide (state ∈ Target conf) then Go_ret (Some obj, None)
                else if bool_decide (state ∈ Pending conf) || bool_decide (Pending conf = []) then
                  WaitForState_poll fuel' conf next (S n) state 0
                else Go_ret (Some obj, Some (UnexpectedStateError state (Target conf)))
            end
        end
  end.

(** Modelled from the spec: the number of rounds [WaitForState] can take with
    pauses that are no shorter than the minimum interval, the refreshes that
    fit before the timeout plus the round that times out. *)
Definition WaitForState_fuel (conf : StateChangeConf) : nat :=
  Z.to_nat (Timeout conf / Z.max 1 (MinTimeout conf)) + 2.

(** Modelled from the spec: [StateChangeConf.WaitForState], the poll started
    after the delay. *)
Definition WaitForState (conf : StateChangeConf) : Go (option ArbitrarySecret * option error) :=
  WaitForState_poll (WaitForState_fuel conf) conf (Z.max 0 (Delay conf)) 0 "" 0.

(** The [stateConf] literal of [waitForIbmSmArbitrarySecretCreate]. *)
Definition waitForIbmSmArbitrarySecretCreate_stateConf (sv : Service) (d : ResourceData)
    (secretId : string) : StateChangeConf :=
  {| Pending := ["pre_activation"];
     Target := ["active"];
     Refresh := waitForIbmSmArbitrarySecretCreate_Refresh sv secretId;
     Timeout := rd_timeout_create d;
     Delay := 0 * Second;
     MinTimeout := 5 * Second |}.

Definition waitForIbmSmArbitrarySecretCreate (sv : Service)
  : Go (option ArbitrarySecret * option error) :=
  d <- get_d ;;
  secretId <- lift (index (Split (Id d) slash) 2) ;;
  WaitForState (waitForIbmSmArbitrarySecretCreate_stateConf sv d secretId).

(** *** [resourceIbmSmArbitrarySecretRead] *)

(** [if err = d.Set(key, v); err != nil { return diag.FromErr(...) }], then [k]. *)
Definition set_checked_msg (prefix key : string) (v : Value) (k : Go Diagnostics)
  : Go Diagnostics :=
  e <- d_Set key v ;;
  match e with
  | Some e => Go_ret (diag_FromErr (Errorf (prefix ++ Error_ e)))
  | None => k
  end.

Definition set_checked (key : string) : Value -> Go Diagnostics -> Go Diagnostics :=
  set_checked_msg ("Error setting " ++ key ++ ": ") key.

Definition resourceIbmSmArbitrarySecretRead_flatten (region instanceId secretId : string)
    (secret : ArbitrarySecret) : Go Diagnostics :=
  set_checked "secret_id" (VString secretId) (
  set_checked "instance_id" (VString instanceId) (
  set_checked "region" (VString region) (
  set_checked "created_by" (VStringPtr (CreatedBy secret)) (
  set_checked "created_at" (VString (flex_DateTimeToString (CreatedAt secret))) (
  set_checked "crn" (VStringPtr (Crn secret)) (
  set_checked "downloaded" (VBoolPtr (Downloaded secret)) (
  set_checked "locks_total" (VInt (flex_IntValue (LocksTotal secret))) (
  set_checked "name" (VStringPtr (Name secret)) (
  set_checked "secret_group_id" (VStringPtr (SecretGroupID secret)) (
  set_checked "secret_type" (VStringPtr (SecretType secret)) (
  set_checked "state" (VInt (flex_IntValue (State secret))) (
  set_checked "state_description" (VStringPtr (StateDescription secret)) (
  set_checked "updated_at" (VString (flex_DateTimeToString (UpdatedAt secret))) (
  set_checked "versions_total" (VInt (flex_IntValue (VersionsTotal secret))) (
  _ <- match CustomMetadata secret with
       | Some m => d_Set "custom_metadata" (VMap m)
       | None => Go_ret None
       end ;;
  set_checked "description" (VStringPtr (Description secret)) (
  match Labels secret with
  | Some l => set_checked "labels" (VStrings l)
  | None => fun k => k
  end (
  set_checked "expiration_date" (VString (flex_DateTimeToString (ExpirationDate secret))) (
  set_checked "payload" (VStringPtr (Payload secret)) (
  Go_ret []))))))))))))))))))).

Definition wrong_id_format : string :=
  "Wrong format of resource ID. To import a secret use the format `<region>/<instance_id>/<secret_id>`".

Definition resourceIbmSmArbitrarySecretRead (meta : Meta) : Go Diagnostics :=
  match SecretsManagerV2_err meta with
  | Some e => Go_ret (diag_FromErr e)
  | None =>
      d <- get_d ;;
      let id := Split (Id d) slash in
      if negb (length id =? 3)%nat then Go_ret (diag_Errorf wrong_id_format)
      else
        region <- lift (index id 0) ;;
        instanceId <- lift (index id 1) ;;
        secretId <- lift (index id 2) ;;
        rep <- call (service meta) (GetSecret secretId) ;;
        match err rep with
        | Some e =>
            if response_is (response rep) 404 then _ <- d_SetId "" ;; Go_ret []
            else Go_ret (diag_FromErr (Errorf ("GetSecretWithContext failed " ++ Error_ e
                                               ++ nl ++ fmt_response (response rep))))
        | None =>
            secret <- lift (as_ArbitrarySecret (result rep)) ;;
            resourceIbmSmArbitrarySecretRead_flatten region instanceId secretId secret
        end
  end.

(** *** [resourceIbmSmArbitrarySecretCreate] *)

Definition resourceIbmSmArbitrarySecretCreate (meta : Meta) : Go Diagnostics :=
  match SecretsManagerV2_err meta with
  | Some e => Go_ret (diag_FromErr e)
  | None =>
      d <- get_d ;;
      let region := getRegion d in
      instanceId <- lift (as_string (Get d "instance_id")) ;;
      secretPrototypeModel <- lift (resourceIbmSmArbitrarySecretMapToArbitrarySecretPrototype d) ;;
      match secretPrototypeModel with
      | inr e => Go_ret (diag_FromErr e)
      | inl proto =>
          rep <- call (service meta) (CreateSecret proto) ;;
          match err rep with
          | Some e =>
              Go_ret (diag_FromErr (Errorf ("CreateSecretWithContext failed " ++ Error_ e
                                            ++ nl ++ fmt_response (response rep))))
          | None =>
              secret <- lift (as_ArbitrarySecret (result rep)) ;;
              secret_ID <- lift (deref (ID secret)) ;;
              _ <- d_SetId (region ++ "/" ++ instanceId ++ "/" ++ secret_ID) ;;
              _ <- d_Set "secret_id" (VString secret_ID) ;;
              waited <- waitForIbmSmArbitrarySecretCreate (service meta) ;;
              match snd waited with
              | Some e =>
                  d <- get_d ;;
                  Go_ret (diag_FromErr (Errorf (
                    "Error waiting for resource IbmSmArbitrarySecret (" ++ Id d
                    ++ ") to be created: " ++ Error_ e)))
              | None => resourceIbmSmArbitrarySecretRead meta
              end
          end
      end
  end.

(** *** [resourceIbmSmArbitrarySecretUpdate] *)

(** [if d.HasChange(key) { field = conv(d.Get(key)); hasChange = true }] *)
Definition field_if_changed {A} (d : ResourceData) (key : string) (conv : Value -> Res A)
    (hasChange : bool) : Res (option A * bool) :=
  if HasChange d key then v <~ conv (Get d key) ;; Ok (Some v, true)
  else Ok (None, hasChange).

(** The patch that [resourceIbmSmArbitrarySecretUpdate] builds, and its
    [hasChange] flag. *)
Definition resourceIbmSmArbitrarySecretUpdate_patch (d : ResourceData)
  : Res (SecretMetadataPatch * bool) :=
  let hasChange := false in
  r <~ field_if_changed d "name" as_string hasChange ;;
  let '(name, hasChange) := r in
  r <~ field_if_changed d "description" as_string hasChange ;;
  let '(description, hasChange) := r in
  r <~ field_if_changed d "labels" parse_labels hasChange ;;
  let '(labels, hasChange) := r in
  r <~ field_if_changed d "custom_metadata" as_map hasChange ;;
  let '(custom_metadata, hasChange) := r in
  Ok ({| mName := name; mDescription := description; mLabels := labels;
         mCustomMetadata := custom_metadata |}, hasChange).

Definition resourceIbmSmArbitrarySecretUpdate (meta : Meta) : Go Diagnostics :=
  match SecretsManagerV2_err meta with
  | Some e => Go_ret (diag_FromErr e)
  | None =>
      d <- get_d ;;
      let id := Split (Id d) slash in
      region <- lift (index id 0) ;;
      instanceId <- lift (index id 1) ;;
      secretId <- lift (index id 2) ;;
      r <- lift (resourceIbmSmArbitrarySecretUpdate_patch d) ;;
      let '(patchVals, hasChange) := r in
      failed <- (if hasChange then
                   rep <- call (service meta)
                               (UpdateSecretMetadata secretId (AsPatch patchVals)) ;;
                   match err rep with
                   | Some e =>
                       Go_ret (Some (diag_FromErr (Errorf (
                         "UpdateSecretMetadataWithContext failed " ++ Error_ e
                         ++ nl ++ fmt_response (response rep)))))
                   | None => Go_ret None
                   end
                 else Go_ret None) ;;
      match failed with
      | Some diags => Go_ret diags
      | None => resourceIbmSmArbitrarySecretRead meta
      end
  end.

(** *** [resourceIbmSmArbitrarySecretDelete] *)

Definition resourceIbmSmArbitrarySecretDelete (meta : Meta) : Go Diagnostics :=
  match SecretsManagerV2_err meta with
  | Some e => Go_ret (diag_FromErr e)
  | None =>
      d <- get_d ;;
      let id := Split (Id d) slash in
      region <- lift (index id 0) ;;
      instanceId <- lift (index id 1) ;;
      secretId <- lift (index id 2) ;;
      rep <- call (service meta) (DeleteSecret secretId) ;;
      match err rep with
      | Some e =>
          Go_ret (diag_FromErr (Errorf ("DeleteSecretWithContext failed " ++ Error_ e
                                        ++ nl ++ fmt_response (response rep))))
      | None => _ <- d_SetId "" ;; Go_ret []
      end
  end.

(** *** The service-credentials data source *)

Variable flex_Flatten : gmap string Scalar -> gmap string Scalar.

Definition dataSourceIbmSmServiceCredentialsSecretRotationPolicyToMap
    (model : CommonRotationPolicy) : gmap string Scalar + error :=
  let modelMap : gmap string Scalar := ∅ in
  let modelMap :=
    match AutoRotate model with
    | Some b => <["auto_rotate" := SBool b]> modelMap
    | None => modelMap
    end in
  let modelMap :=
    match Interval model with
    | Some n => <["interval" := SInt n]> modelMap
    | None => modelMap
    end in
  let modelMap :=
    match Unit_ model with
    | Some u => <["unit" := SString u]> modelMap
    | None => modelMap
    end in
  inl modelMap.

(** The attribute writes of [dataSourceIbmSmServiceCredentialsSecretRead], from
    [region] to [next_rotation_date]. *)
Definition dataSourceIbmSmServiceCredentialsSecretRead_flatten (region : string)
    (secret : ServiceCredentialsSecret) : Go Diagnostics :=
  set_checked "region" (VString region) (
  set_checked "created_by" (VStringPtr (scCreatedBy secret)) (
  set_checked "created_at" (VString (DateTimeToRFC3339 (scCreatedAt secret))) (
  set_checked "crn" (VStringPtr (scCrn secret)) (
  match scCustomMetadata secret with
  | Some m => set_checked "custom_metadata" (VMap (flex_Flatten m))
  | None => fun k => k
  end (
  set_checked "description" (VStringPtr (scDescription secret)) (
  set_checked "downloaded" (VBoolPtr (scDownloaded secret)) (
  match scLabels secret with
  | Some l => set_checked "labels" (VStrings l)
  | None => fun k => k
  end (
  set_checked "locks_total" (VInt (flex_IntValue (scLocksTotal secret))) (
  set_checked "name" (VStringPtr (scName secret)) (
  set_checked "secret_group_id" (VStringPtr (scSecretGroupID secret)) (
  set_checked "secret_type" (VStringPtr (scSecretType secret)) (
  set_checked "state" (VInt (flex_IntValue (scState secret))) (
  set_checked "state_description" (VStringPtr (scStateDescription secret)) (
  set_checked "updated_at" (VString (DateTimeToRFC3339 (scUpdatedAt secret))) (
  set_checked "versions_total" (VInt (flex_IntValue (scVersionsTotal secret))) (
  set_checked "ttl" (VStringPtr (scTTL secret)) (
  rotation <- match scRotation secret with
              | Some r =>
                  policy <- lift (as_CommonRotationPolicy r) ;;
                  Go_ret (match dataSourceIbmSmServiceCredentialsSecretRotationPolicyToMap policy with
                          | inl modelMap => inl [modelMap]
                          | inr e => inr e
                          end)
              | None => Go_ret (inl [])
              end ;;
  match rotation with
  | inr e => Go_ret (diag_FromErr e)
  | inl rotation =>
      set_checked_msg "Error setting rotation " "rotation" (VBlocks rotation) (
      set_checked "next_rotation_date" (VString (DateTimeToRFC3339 (scNextRotationDate secret))) (
      Go_ret []))
  end))))))))))))))))).

(** [getSecretByIdOrByName] is a helper of the package outside these files; the
    read takes what it returns: the secret, the region, the instance id and
    the diagnostics. *)
Definition dataSourceIbmSmServiceCredentialsSecretRead
    (getSecretByIdOrByName : Go (option SecretIntf * string * string * Diagnostics))
  : Go Diagnostics :=
  r <- getSecretByIdOrByName ;;
  let '(ServiceCredentialsSecretIntf, region, instanceId, diagError) := r in
  match diagError with
  | _ :: _ => Go_ret diagError
  | [] =>
      secret <- lift (as_ServiceCredentialsSecret ServiceCredentialsSecretIntf) ;;
      secret_ID <- lift (deref (scID secret)) ;;
      _ <- d_SetId (region ++ "/" ++ instanceId ++ "/" ++ secret_ID) ;;
      dataSourceIbmSmServiceCredentialsSecretRead_flatten region secret
  end.

(** ** Predicates used in the statements *)

(** [field] was filled from attribute [key] exactly when [test] holds of the
    attribute, and then [R] relates it to the attribute's value. *)
Definition filled_iff {A} (test : bool) (v : Value) (R : A -> Value -> Prop)
    (field : option A) : Prop :=
  match field with
  | Some a => test = true /\ R a v
  | None => test = false
  end.

Definition is_string (s : string) (v : Value) : Prop := v = VString s.
Definition is_map (m : gmap string Scalar) (v : Value) : Prop := v = VMap m.
Definition is_printed_list (l : list string) (v : Value) : Prop :=
  exists elems, v = VList elems /\ l = Sprint <$> elems.
Definition is_parsed_date (t : DateTime) (v : Value) : Prop :=
  exists text, v = VString text /\ time_Parse_RFC3339 text = inl t.

(** [copied d key R field]: [field] is set exactly when [d.GetOk(key)] is ok. *)
Definition copied {A} (d : ResourceData) (key : string) (R : A -> Value -> Prop)
    (field : option A) : Prop :=
  filled_iff (snd (GetOk d key)) (Get d key) R field.

(** [patched d key R field]: [field] is set exactly when [d.HasChange(key)]. *)
Definition patched {A} (d : ResourceData) (key : string) (R : A -> Value -> Prop)
    (field : option A) : Prop :=
  filled_iff (HasChange d key) (Get d key) R field.

Definition error_diag (msg : string) : Diagnostics :=
  [ {| DiagSeverity := diag_Error; Summary := msg |} ].

(** At least one of the four attributes that update can patch has changed. *)
Definition metadata_changed (d : ResourceData) : bool :=
  HasChange d "name" || HasChange d "description" || HasChange d "labels"
  || HasChange d "custom_metadata".

(** In a run of calls, a call that failed is the last one. *)
Fixpoint failure_is_last (l : list (Call * Reply)) : Prop :=
  match l with
  | [] => True
  | (_, rep) :: l' => (err rep <> None -> l' = []) /\ failure_is_last l'
  end.

Definition failed (cr : Call * Reply) : Prop := err (snd cr) <> None.

Definition is_GetSecret (c : Call) : Prop := exists id, c = GetSecret id.

(** The log after [n] refreshes of the creation poll that started with log
    [log0], the reply to refresh number [n] (counted from 0), and what that
    refresh reads: a secret [obj] whose [state_description] is [state]. *)
Fixpoint poll_log (sv : Service) (secretId : string) (log0 : list (Call * Reply)) (n : nat)
  : list (Call * Reply) :=
  match n with
  | O => log0
  | S n' =>
      let l := poll_log sv secretId log0 n' in
      l ++ [(GetSecret secretId, sv l (GetSecret secretId))]
  end.

Definition poll_reply (sv : Service) (secretId : string) (log0 : list (Call * Reply)) (n : nat)
  : Reply :=
  sv (poll_log sv secretId log0 n) (GetSecret secretId).

Definition reads (rep : Reply) (obj : ArbitrarySecret) (state : string) : Prop :=
  result rep = Some (ArbitrarySecretPtr obj) /\ err rep = None
  /\ StateDescription obj = Some state.

Definition reads_state (rep : Reply) (state : string) : Prop :=
  exists obj, reads rep obj state.

(** The time at which refresh number [n] of the creation poll is due. *)
Fixpoint poll_time (n : nat) : Duration :=
  match n with
  | O => 0
  | S n' => poll_time n' + pause (5 * Second) n'
  end.

(** How the creation poll ends at a refresh that reads a state other than
    [pre_activation]: with success for [active], with the refresh's own error
    for a fail state, with an unexpected-state error for any other state. *)
Definition poll_end (rep : Reply) (state : string) : option error :=
  if map_index failStates state then
    Some (Errorf ("The instance getSecretOptions failed: %!s(<nil>)"
                  ++ nl ++ fmt_response (response rep)))
  else if bool_decide (state = "active") then None
  else Some (UnexpectedStateError state ["active"]).

(** The secret payload travels only in the prototype of a create call. *)
Definition carries_payload (c : Call) : bool :=
  match c with
  | CreateSecret proto => bool_decide (is_Some (pPayload proto))
  | _ => false
  end.

(** How a function returned after its call [cr] failed: with an error
    diagnostic, or, for a read of the secret answered with a 404, with no
    diagnostic and the resource ID cleared. *)
Definition returned_error (out : Res Diagnostics * World) : Prop :=
  exists diags, fst out = Ok diags /\ HasError diags = true.

Definition returned_gone (cr : Call * Reply) (out : Res Diagnostics * World) : Prop :=
  fst out = Ok [] /\ is_GetSecret (fst cr)
  /\ response_is (response (snd cr)) 404 = true /\ Id (w_d (snd out)) = "".

(** The four lifecycle functions that [ResourceIbmSmArbitrarySecret] registers. *)
Inductive Operation := CreateContext | ReadContext | UpdateContext | DeleteContext.

Definition lifecycle (op : Operation) : Meta -> Go Diagnostics :=
  match op with
  | CreateContext => resourceIbmSmArbitrarySecretCreate
  | ReadContext => resourceIbmSmArbitrarySecretRead
  | UpdateContext => resourceIbmSmArbitrarySecretUpdate
  | DeleteContext => resourceIbmSmArbitrarySecretDelete
  end.

(** A panic at the type assertion that the refresh of the creation poll makes
    on the result of its call. *)
Definition returned_panic (cr : Call * Reply) (out : Res Diagnostics * World) : Prop :=
  exists r, fst out = Panic r /\ as_ArbitrarySecret (result (snd cr)) = Panic r.

(** The calls [new] issued after log [l0] end with the function returning as
    it should: a failed call is the last one, and after it the function
    returned an error diagnostic, or (for a read of the secret) returned as
    after a 404 or, where [poll] allows it, panicked at the refresh's type
    assertion. *)
Definition ends_well (poll : bool) (l0 : list (Call * Reply))
    (out : Res Diagnostics * World) : Prop :=
  exists new,
    w_log (snd out) = (l0 ++ new)%list
    /\ failure_is_last new
    /\ forall cr, last new = Some cr -> failed cr ->
         (~ is_GetSecret (fst cr) -> returned_error out)
         /\ (is_GetSecret (fst cr) ->
             returned_error out \/ returned_gone cr out
             \/ (poll = true /\ returned_panic cr out)).

(** A computation that leaves attribute [key] as it was. *)
Definition keeps_attr (key : string) {A} (m : Go A) : Prop :=
  forall w, rd_new (w_d (snd (m w))) !! key = rd_new (w_d w) !! key.

(** The attributes that [dataSourceIbmSmServiceCredentialsSecretRead] writes. *)
Definition dataSourceIbmSmServiceCredentialsSecretRead_written : list string :=
  [ "region"; "created_by"; "created_at"; "crn"; "custom_metadata"; "description";
    "downloaded"; "labels"; "locks_total"; "name"; "secret_group_id"; "secret_type";
    "state"; "state_description"; "updated_at"; "versions_total"; "ttl"; "rotation";
    "next_rotation_date" ].

(** The resource data when the creation poll starts: the ID and [secret_id]
    have been written. *)
Definition created_d (d : ResourceData) (instanceId secret_ID : string) : ResourceData :=
  fst (Set_ "secret_id" (VString secret_ID)
         (SetId (getRegion d ++ "/" ++ instanceId ++ "/" ++ secret_ID) d)).

(** A computation that issues no REST call. *)
Definition keeps_log {A} (m : Go A) : Prop := forall w, w_log (snd (m w)) = w_log w.

(** ** Properties *)

Lemma declares_lookup d sch key sc :
  declares d sch -> In (key, sc) sch -> rd_schema d !! key = Some sc.
Proof.
  unfold declares. rewrite Forall_forall. intros H Hin.
  apply list_elem_of_In in Hin. exact (H _ Hin).
Qed.

Lemma Get_typed d key sc :
  well_typed d -> rd_schema d !! key = Some sc ->
  (exists v, has_type sc v = true /\ Get d key = read_value sc (Some v))
  \/ Get d key = zero_value (schema_Type sc).
Proof.
  intros Hwt Hs. unfold Get, read_attr. rewrite Hs.
  destruct (rd_new d !! key) as [v|] eqn:E; [|by right].
  destruct (Hwt key v E) as (sc' & Hs' & Hty). left. exists v. split; [congruence|done].
Qed.

Lemma Get_string d key sc :
  well_typed d -> rd_schema d !! key = Some sc -> schema_Type sc = TypeString ->
  exists s, Get d key = VString s.
Proof.
  intros Hwt Hs Ht. destruct (Get_typed d key sc Hwt Hs) as [(v & H & ->)|H].
  - destruct v; cbn in H; rewrite ?Ht in H; cbn in H; try discriminate. eauto.
  - rewrite H, Ht. cbn. eauto.
Qed.

Lemma Get_map d key sc :
  well_typed d -> rd_schema d !! key = Some sc -> schema_Type sc = TypeMap ->
  exists m, Get d key = VMap m.
Proof.
  intros Hwt Hs Ht. destruct (Get_typed d key sc Hwt Hs) as [(v & H & ->)|H].
  - destruct v; cbn in H; rewrite ?Ht in H; cbn in H; try discriminate. eauto.
  - rewrite H, Ht. cbn. eauto.
Qed.

Lemma Get_list d key sc :
  well_typed d -> rd_schema d !! key = Some sc ->
  schema_Type sc = TypeList -> schema_Elem sc = [] ->
  exists l, Get d key = VList l.
Proof.
  intros Hwt Hs Ht He. destruct (Get_typed d key sc Hwt Hs) as [(v & H & ->)|H].
  - destruct v; cbn in H; rewrite ?Ht, ?He in H; cbn in H; try discriminate. eauto.
  - rewrite H, Ht. cbn. eauto.
Qed.

Lemma field_if_set_ok {A} d key (conv : Value -> Res A) a :
  conv (Get d key) = Ok a ->
  field_if_set d key conv = Ok (if snd (GetOk d key) then Some a else None).
Proof. intros H. unfold field_if_set. destruct (snd (GetOk d key)); [by rewrite H|done]. Qed.

Lemma field_if_set_copied {A} d key (conv : Value -> Res A) (R : A -> Value -> Prop) a :
  conv (Get d key) = Ok a -> R a (Get d key) ->
  exists o, field_if_set d key conv = Ok o /\ copied d key R o.
Proof.
  intros H HR. rewrite (field_if_set_ok _ _ _ _ H). unfold copied, filled_iff.
  destruct (snd (GetOk d key)); [exists (Some a)|exists None]; auto.
Qed.

Lemma field_if_changed_patched {A} d key (conv : Value -> Res A) (R : A -> Value -> Prop) a b :
  conv (Get d key) = Ok a -> R a (Get d key) ->
  exists o, field_if_changed d key conv b = Ok (o, HasChange d key || b) /\ patched d key R o.
Proof.
  intros H HR. unfold field_if_changed, patched, filled_iff.
  destruct (HasChange d key); [rewrite H; exists (Some a)|exists None]; cbn; auto.
Qed.

Section Typed.
Variable d : ResourceData.
Hypothesis Hwt : well_typed d.
Hypothesis Hsch : declares d ResourceIbmSmArbitrarySecret_Schema.

Lemma string_attr key sc :
  In (key, sc) ResourceIbmSmArbitrarySecret_Schema -> schema_Type sc = TypeString ->
  exists s, as_string (Get d key) = Ok s /\ is_string s (Get d key).
Proof.
  intros Hin Ht.
  destruct (Get_string d key sc Hwt (declares_lookup _ _ _ _ Hsch Hin) Ht) as [s Hs].
  exists s. by rewrite Hs.
Qed.

Lemma map_attr key sc :
  In (key, sc) ResourceIbmSmArbitrarySecret_Schema -> schema_Type sc = TypeMap ->
  exists m, as_map (Get d key) = Ok m /\ is_map m (Get d key).
Proof.
  intros Hin Ht.
  destruct (Get_map d key sc Hwt (declares_lookup _ _ _ _ Hsch Hin) Ht) as [m Hm].
  exists m. by rewrite Hm.
Qed.

Lemma labels_attr :
  exists l, parse_labels (Get d "labels") = Ok l /\ is_printed_list l (Get d "labels").
Proof.
  destruct (Get_list d "labels" (optional_computed TypeList) Hwt) as [l Hl]; try done.
  { apply (declares_lookup _ _ _ _ Hsch). cbn. do 6 right. by left. }
  exists (Sprint <$> l). rewrite Hl. split; [done|]. by exists l.
Qed.
End Typed.

Ltac in_schema := cbn; repeat (first [by left | right]).

(** C5: the prototype is a pure mapping of the configuration: [SecretType] is
    always [arbitrary], and each of the eight fields is copied (the
    expiration date parsed as RFC 3339, every label printed as a string)
    exactly when the attribute is set; the only failure is an expiration date
    that does not parse. *)
Theorem MapToArbitrarySecretPrototype_copies_set_fields (d : ResourceData) :
  well_typed d ->
  declares d ResourceIbmSmArbitrarySecret_Schema ->
  match resourceIbmSmArbitrarySecretMapToArbitrarySecretPrototype d with
  | Ok (inl model) =>
      pSecretType model = Some "arbitrary"
      /\ copied d "name" is_string (pName model)
      /\ copied d "payload" is_string (pPayload model)
      /\ copied d "custom_metadata" is_map (pCustomMetadata model)
      /\ copied d "description" is_string (pDescription model)
      /\ copied d "expiration_date" is_parsed_date (pExpirationDate model)
      /\ copied d "labels" is_printed_list (pLabels model)
      /\ copied d "secret_group_id" is_string (pSecretGroupID model)
      /\ copied d "version_custom_metadata" is_map (pVersionCustomMetadata model)
  | Ok (inr e) =>
      snd (GetOk d "expiration_date") = true
      /\ exists text e0, Get d "expiration_date" = VString text
                         /\ time_Parse_RFC3339 text = inr e0
  | _ => False
  end.
Proof.
  intros Hwt Hsch. unfold resourceIbmSmArbitrarySecretMapToArbitrarySecretPrototype.
  destruct (string_attr d Hwt Hsch "name" _ ltac:(in_schema) eq_refl) as (s1 & E1 & R1).
  destruct (field_if_set_copied d _ _ _ _ E1 R1) as (o1 & -> & C1).
  destruct (string_attr d Hwt Hsch "payload" _ ltac:(in_schema) eq_refl) as (s2 & E2 & R2).
  destruct (field_if_set_copied d _ _ _ _ E2 R2) as (o2 & -> & C2).
  destruct (map_attr d Hwt Hsch "custom_metadata" _ ltac:(in_schema) eq_refl) as (s3 & E3 & R3).
  destruct (field_if_set_copied d _ _ _ _ E3 R3) as (o3 & -> & C3).
  destruct (string_attr d Hwt Hsch "description" _ ltac:(in_schema) eq_refl) as (s4 & E4 & R4).
  destruct (field_if_set_copied d _ _ _ _ E4 R4) as (o4 & -> & C4).
  destruct (string_attr d Hwt Hsch "expiration_date" _ ltac:(in_schema) eq_refl) as (s5 & E5 & R5).
  rewrite (field_if_set_ok _ _ _ _ E5).
  destruct (labels_attr d Hwt Hsch) as (s6 & E6 & R6).
  destruct (field_if_set_copied d _ _ _ _ E6 R6) as (o6 & E6' & C6).
  destruct (string_attr d Hwt Hsch "secret_group_id" _ ltac:(in_schema) eq_refl) as (s7 & E7 & R7).
  destruct (field_if_set_copied d _ _ _ _ E7 R7) as (o7 & E7' & C7).
  destruct (map_attr d Hwt Hsch "version_custom_metadata" _ ltac:(in_schema) eq_refl) as (s8 & E8 & R8).
  destruct (field_if_set_copied d _ _ _ _ E8 R8) as (o8 & E8' & C8).
  cbn [Res_bind].
  destruct (snd (GetOk d "expiration_date")) eqn:Hset.
  - destruct (time_Parse_RFC3339 s5) as [t|e0] eqn:Hparse.
    + rewrite E6', E7', E8'. cbn [Res_bind].
      split; [reflexivity|]. repeat (split; [assumption|]).
      split; [|repeat (split; [assumption|]); assumption].
      unfold copied, filled_iff. rewrite Hset. split; [done|]. exists s5. by rewrite R5.
    + cbn. split; [done|]. exists s5, e0. by rewrite R5.
  - rewrite E6', E7', E8'. cbn [Res_bind].
    split; [reflexivity|]. repeat (split; [assumption|]). assumption.
Qed.

Lemma MapToArbitrarySecretPrototype_parse_failure (d : ResourceData) text e0 :
  well_typed d ->
  declares d ResourceIbmSmArbitrarySecret_Schema ->
  snd (GetOk d "expiration_date") = true ->
  Get d "expiration_date" = VString text ->
  time_Parse_RFC3339 text = inr e0 ->
  resourceIbmSmArbitrarySecretMapToArbitrarySecretPrototype d =
    Ok (inr (Errorf ("Failed to get " ++ dquote ++ "expiration_date" ++ dquote
                     ++ ". Error: " ++ Error_ e0))).
Proof.
  intros Hwt Hsch Hset Hget Hparse.
  unfold resourceIbmSmArbitrarySecretMapToArbitrarySecretPrototype.
  destruct (string_attr d Hwt Hsch "name" _ ltac:(in_schema) eq_refl) as (s1 & E1 & _).
  rewrite (field_if_set_ok _ _ _ _ E1).
  destruct (string_attr d Hwt Hsch "payload" _ ltac:(in_schema) eq_refl) as (s2 & E2 & _).
  rewrite (field_if_set_ok _ _ _ _ E2).
  destruct (map_attr d Hwt Hsch "custom_metadata" _ ltac:(in_schema) eq_refl) as (s3 & E3 & _).
  rewrite (field_if_set_ok _ _ _ _ E3).
  destruct (string_attr d Hwt Hsch "description" _ ltac:(in_schema) eq_refl) as (s4 & E4 & _).
  rewrite (field_if_set_ok _ _ _ _ E4).
  unfold field_if_set at 1. rewrite Hset, Hget. cbn [Res_bind as_string].
  by rewrite Hparse.
Qed.

(** C9: with an expiration date that is set and is not an RFC 3339 timestamp,
    create returns the error diagnostic of the parse failure and leaves the
    world as it was: no REST call is logged and the resource data, its ID
    included, is unchanged. *)
Theorem Create_invalid_expiration_date_is_atomic (meta : Meta) (w : World) text e0 :
  SecretsManagerV2_err meta = None ->
  well_typed (w_d w) ->
  declares (w_d w) ResourceIbmSmArbitrarySecret_Schema ->
  (exists instanceId, Get (w_d w) "instance_id" = VString instanceId) ->
  snd (GetOk (w_d w) "expiration_date") = true ->
  Get (w_d w) "expiration_date" = VString text ->
  time_Parse_RFC3339 text = inr e0 ->
  resourceIbmSmArbitrarySecretCreate meta w =
    (Ok (error_diag ("Failed to get " ++ dquote ++ "expiration_date" ++ dquote
                     ++ ". Error: " ++ Error_ e0)), w).
Proof.
  intros Hcl Hwt Hsch [inst Hinst] Hset Hget Hparse.
  unfold resourceIbmSmArbitrarySecretCreate. rewrite Hcl.
  unfold Go_bind at 1. cbn [get_d].
  unfold Go_bind at 1. rewrite Hinst. cbn [lift as_string].
  unfold Go_bind at 1.
  rewrite (MapToArbitrarySecretPrototype_parse_failure _ _ _ Hwt Hsch Hset Hget Hparse).
  reflexivity.
Qed.

Lemma Read_after_call (meta : Meta) (w : World) (region instanceId secretId : string) :
  SecretsManagerV2_err meta = None ->
  Split (Id (w_d w)) slash = [region; instanceId; secretId] ->
  resourceIbmSmArbitrarySecretRead meta w =
    let rep := service meta (w_log w) (GetSecret secretId) in
    let w' := {| w_d := w_d w; w_log := w_log w ++ [(GetSecret secretId, rep)] |} in
    match err rep with
    | Some e =>
        if response_is (response rep) 404 then
          (Ok [], {| w_d := SetId "" (w_d w); w_log := w_log w' |})
        else (Ok (error_diag ("GetSecretWithContext failed " ++ Error_ e ++ nl
                              ++ fmt_response (response rep))), w')
    | None =>
        (secret <- lift (as_ArbitrarySecret (result rep)) ;;
         resourceIbmSmArbitrarySecretRead_flatten region instanceId secretId secret) w'
    end.
Proof.
  intros Hcl Hid. unfold resourceIbmSmArbitrarySecretRead. rewrite Hcl.
  unfold Go_bind at 1. cbn [get_d]. rewrite Hid. cbn [length Nat.eqb negb].
  cbn [index lookup list_lookup lift Go_bind call]. cbv zeta.
  destruct (err _); [|reflexivity].
  by destruct (response_is _ _).
Qed.

(** C3: when [GetSecretWithContext] fails during a read, a 404 response makes
    the read clear the resource ID and return no diagnostic; any other failure
    leaves the resource data (the ID included) as it was and returns one error
    diagnostic. *)
Theorem Read_GetSecret_failure (meta : Meta) (w : World)
    (region instanceId secretId : string) (e : error) :
  SecretsManagerV2_err meta = None ->
  Split (Id (w_d w)) slash = [region; instanceId; secretId] ->
  let rep := service meta (w_log w) (GetSecret secretId) in
  let log' := (w_log w ++ [(GetSecret secretId, rep)])%list in
  err rep = Some e ->
  (response_is (response rep) 404 = true ->
   resourceIbmSmArbitrarySecretRead meta w =
     (Ok [], {| w_d := SetId "" (w_d w); w_log := log' |})
   /\ Id (SetId "" (w_d w)) = "")
  /\ (response_is (response rep) 404 = false ->
      resourceIbmSmArbitrarySecretRead meta w =
        (Ok (error_diag ("GetSecretWithContext failed " ++ Error_ e ++ nl
                         ++ fmt_response (response rep))),
         {| w_d := w_d w; w_log := log' |})).
Proof.
  intros Hcl Hid. cbv zeta. rewrite (Read_after_call _ _ _ _ _ Hcl Hid). cbv zeta.
  intros Herr. rewrite Herr.
  split; intros H404; rewrite H404; [split|]; reflexivity.
Qed.

(** *** Which calls each function issues *)

Lemma keeps_log_ret {A} (a : A) : keeps_log (Go_ret a).
Proof. by intros w. Qed.

Lemma keeps_log_lift {A} (r : Res A) : keeps_log (lift r).
Proof. by intros w. Qed.

Lemma keeps_log_bind {A B} (m : Go A) (f : A -> Go B) :
  keeps_log m -> (forall a, keeps_log (f a)) -> keeps_log (Go_bind m f).
Proof.
  intros Hm Hf w. unfold Go_bind. specialize (Hm w).
  destruct (m w) as [[a|r|] w']; cbn in *; [|done..].
  by rewrite (Hf a w').
Qed.

Lemma keeps_log_d_Set key v : keeps_log (d_Set key v).
Proof. intros w. unfold d_Set. by destruct (Set_ key v (w_d w)). Qed.

Lemma keeps_log_d_SetId v : keeps_log (d_SetId v).
Proof. by intros w. Qed.

Lemma keeps_log_set_checked_msg prefix key v k :
  keeps_log k -> keeps_log (set_checked_msg prefix key v k).
Proof.
  intros Hk. unfold set_checked_msg. apply keeps_log_bind; [apply keeps_log_d_Set|].
  intros [e|]; [apply keeps_log_ret|done].
Qed.

Lemma keeps_log_set_checked key v k : keeps_log k -> keeps_log (set_checked key v k).
Proof. apply keeps_log_set_checked_msg. Qed.

Ltac keeps_log_step :=
  first [ apply keeps_log_set_checked
        | apply keeps_log_set_checked_msg
        | apply keeps_log_ret
        | apply keeps_log_lift
        | apply keeps_log_d_Set
        | apply keeps_log_d_SetId
        | apply keeps_log_bind; [|intros ?]
        | match goal with
          | |- keeps_log (match ?x with _ => _ end _) => destruct x
          | |- keeps_log (match ?x with _ => _ end) => destruct x
          end ].

Lemma keeps_log_Read_flatten region instanceId secretId secret :
  keeps_log (resourceIbmSmArbitrarySecretRead_flatten region instanceId secretId secret).
Proof. unfold resourceIbmSmArbitrarySecretRead_flatten. repeat keeps_log_step. Qed.

(** *** The creation poll *)

Lemma Refresh_run (sv : Service) (secretId : string) (w : World) :
  let rep := sv (w_log w) (GetSecret secretId) in
  let w' := {| w_d := w_d w; w_log := w_log w ++ [(GetSecret secretId, rep)] |} in
  waitForIbmSmArbitrarySecretCreate_Refresh sv secretId w =
    match as_ArbitrarySecret (result rep) with
    | Ok stateObj =>
        match err rep with
        | Some e =>
            (Ok (None, "", Some
                   match e with
                   | RequestFailure 404 _ =>
                       Errorf ("The instance getSecretOptions does not exist anymore: "
                               ++ Error_ e ++ nl ++ fmt_response (response rep))
                   | _ => e
                   end), w')
        | None =>
            match StateDescription stateObj with
            | Some state =>
                (Ok (Some stateObj, state,
                     if map_index failStates state then
                       Some (Errorf ("The instance getSecretOptions failed: %!s(<nil>)"
                                     ++ nl ++ fmt_response (response rep)))
                     else None), w')
            | None => (Panic NilDereference, w')
            end
        end
    | Panic r => (Panic r, w')
    | OutOfFuel => (OutOfFuel, w')
    end.
Proof.
  cbv zeta. unfold waitForIbmSmArbitrarySecretCreate_Refresh.
  unfold Go_bind at 1. cbn [call]. unfold Go_bind at 1. cbn [lift].
  destruct (as_ArbitrarySecret _) as [obj|r|]; [|reflexivity..].
  destruct (err _) as [e|].
  - destruct e as [| code msg | | |]; try reflexivity.
    destruct code as [|p|p]; try reflexivity.
    do 9 (destruct p as [p|p|]; try reflexivity).
  - unfold Go_bind. cbn [lift]. destruct (StateDescription obj) as [st|]; [|reflexivity].
    cbn [deref]. by destruct (map_index failStates st).
Qed.

Lemma failStates_destroyed (state : string) :
  map_index failStates state = true <-> state = "destroyed".
Proof.
  unfold map_index, failStates. split.
  - intros H. destruct (decide (state = "destroyed")) as [->|Hne]; [done|].
    rewrite lookup_singleton_ne in H by done. discriminate.
  - intros ->. by rewrite lookup_singleton_eq.
Qed.

(** The schedule of the creation poll: consecutive refreshes are at least
    five seconds apart. *)
Lemma poll_time_step (k : nat) : (poll_time k + 5 * Second <= poll_time (S k))%Z.
Proof. cbn [poll_time]. pose proof (pause_min k). lia. Qed.

Lemma poll_time_mono (k j : nat) :
  (poll_time k + Z.of_nat j * (5 * Second) <= poll_time (k + j))%Z.
Proof.
  induction j as [|j IH]; [rewrite Nat.add_0_r; lia|].
  rewrite Nat.add_succ_r. pose proof (poll_time_step (k + j)). lia.
Qed.

Lemma Second_pos : (0 < 5 * Second)%Z.
Proof. unfold Second. lia. Qed.

Section Poll.
Variable sv : Service.
Variable d : ResourceData.
Variable secretId : string.

Let conf := waitForIbmSmArbitrarySecretCreate_stateConf sv d secretId.
Let T := rd_timeout_create d.

(** One round of the poll, spelled out for the resource's [stateConf]. *)
Lemma poll_step (fuel : nat) (t : Duration) (n : nat) (last : string) (notfound : nat)
    (w : World) :
  WaitForState_poll (S fuel) conf t n last notfound w =
    if (T <=? t)%Z then (Ok (None, Some (TimeoutError last T ["active"])), w)
    else
      let rep := sv (w_log w) (GetSecret secretId) in
      let w' := {| w_d := w_d w; w_log := w_log w ++ [(GetSecret secretId, rep)] |} in
      match as_ArbitrarySecret (result rep) with
      | Ok obj =>
          match err rep with
          | Some e =>
              (Ok (None, Some
                     match e with
                     | RequestFailure 404 _ =>
                         Errorf ("The instance getSecretOptions does not exist anymore: "
                                 ++ Error_ e ++ nl ++ fmt_response (response rep))
                     | _ => e
                     end), w')
          | None =>
              match StateDescription obj with
              | Some state =>
                  if bool_decide (state = "pre_activation") then
                    WaitForState_poll fuel conf (t + pause (5 * Second) n) (S n) state 0 w'
                  else (Ok (Some obj, poll_end rep state), w')
              | None => (Panic NilDereference, w')
              end
          end
      | Panic r => (Panic r, w')
      | OutOfFuel => (OutOfFuel, w')
      end.
Proof.
  cbn [WaitForState_poll]. subst conf T.
  cbn [waitForIbmSmArbitrarySecretCreate_stateConf Timeout Target Pending Refresh MinTimeout].
  destruct (_ <=? _)%Z; [reflexivity|].
  unfold Go_bind at 1. rewrite Refresh_run. cbv zeta.
  destruct (as_ArbitrarySecret _) as [obj|r|]; [|reflexivity..].
  destruct (err _) as [e|]; [reflexivity|].
  destruct (StateDescription obj) as [st|]; [|reflexivity].
  unfold poll_end. destruct (map_index failStates st) eqn:Hfail.
  { apply failStates_destroyed in Hfail. subst st. reflexivity. }
  rewrite (bool_decide_ext (st ∈ ["active"]) (st = "active"))
    by apply list_elem_of_singleton.
  rewrite (bool_decide_ext (st ∈ ["pre_activation"]) (st = "pre_activation"))
    by apply list_elem_of_singleton.
  rewrite (bool_decide_eq_false_2 (["pre_activation"] = [])) by discriminate.
  rewrite orb_false_r.
  destruct (bool_decide_reflect (st = "pre_activation")) as [->|Hpen]; [reflexivity|].
  destruct (bool_decide (st = "active")); reflexivity.
Qed.

Variable d0 : ResourceData.
Variable log0 : list (Call * Reply).

Let W (k : nat) : World := {| w_d := d0; w_log := poll_log sv secretId log0 k |}.
Let reply (k : nat) : Reply := poll_reply sv secretId log0 k.

Lemma poll_timeout fuel t n last notfound w :
  (T <= t)%Z ->
  WaitForState_poll (S fuel) conf t n last notfound w =
    (Ok (None, Some (TimeoutError last T ["active"])), w).
Proof. intros H. rewrite poll_step. destruct (Z.leb_spec T t); [done|lia]. Qed.

Lemma poll_pending fuel last k :
  (poll_time k < T)%Z -> reads_state (reply k) "pre_activation" ->
  WaitForState_poll (S fuel) conf (poll_time k) k last 0 (W k) =
    WaitForState_poll fuel conf (poll_time (S k)) (S k) "pre_activation" 0 (W (S k)).
Proof.
  intros Ht (obj & Hres & Herr & Hst). rewrite poll_step.
  destruct (Z.leb_spec T (poll_time k)); [lia|]. cbv zeta.
  change (sv (w_log (W k)) (GetSecret secretId)) with (reply k).
  rewrite Hres. cbn [as_ArbitrarySecret]. rewrite Herr, Hst. reflexivity.
Qed.

Lemma poll_stops fuel last k obj state :
  (poll_time k < T)%Z -> reads (reply k) obj state -> state <> "pre_activation" ->
  WaitForState_poll (S fuel) conf (poll_time k) k last 0 (W k) =
    (Ok (Some obj, poll_end (reply k) state), W (S k)).
Proof.
  intros Ht (Hres & Herr & Hst) Hne. rewrite poll_step.
  destruct (Z.leb_spec T (poll_time k)); [lia|]. cbv zeta.
  change (sv (w_log (W k)) (GetSecret secretId)) with (reply k).
  rewrite Hres. cbn [as_ArbitrarySecret]. rewrite Herr, Hst.
  by rewrite bool_decide_eq_false_2.
Qed.

Lemma poll_success_inv fuel last k o w' :
  (poll_time k < T)%Z ->
  WaitForState_poll (S fuel) conf (poll_time k) k last 0 (W k) = (Ok (o, None), w') ->
  (exists obj, o = Some obj /\ reads (reply k) obj "active")
  \/ (reads_state (reply k) "pre_activation"
      /\ WaitForState_poll fuel conf (poll_time (S k)) (S k) "pre_activation" 0 (W (S k))
         = (Ok (o, None), w')).
Proof.
  intros Ht. rewrite poll_step.
  destruct (Z.leb_spec T (poll_time k)) as [?|_]; [lia|]. cbv zeta.
  change (sv (w_log (W k)) (GetSecret secretId)) with (reply k).
  unfold reads_state, reads.
  destruct (result (reply k)) as [[obj| |]|]; cbn [as_ArbitrarySecret]; try discriminate.
  destruct (err (reply k)) as [e|]; [discriminate|].
  destruct (StateDescription obj) as [st|] eqn:Hst; [|discriminate].
  case_bool_decide as Hpen.
  { subst st. intros Hrec. right. split; [|exact Hrec]. eauto. }
  unfold poll_end. destruct (map_index failStates st); [discriminate|].
  case_bool_decide as Hact; [|discriminate].
  subst st. intros [= <- <-]. left. eauto.
Qed.

Lemma poll_success_only_if fuel : forall k last o w',
  WaitForState_poll fuel conf (poll_time k) k last 0 (W k) = (Ok (o, None), w') ->
  exists j obj,
    o = Some obj /\ (poll_time (k + j) < T)%Z
    /\ reads (reply (k + j)) obj "active"
    /\ forall i, (i < j)%nat -> reads_state (reply (k + i)) "pre_activation".
Proof.
  induction fuel as [|fuel IH]; intros k last o w' H; [discriminate|].
  destruct (Z.leb_spec T (poll_time k)) as [Hto|Ht].
  { rewrite poll_timeout in H by done. discriminate. }
  destruct (poll_success_inv _ _ _ _ _ Ht H) as [(obj & -> & Hr)|[Hp H']].
  - exists 0%nat, obj. rewrite Nat.add_0_r. repeat split; [lia|apply Hr..|lia].
  - destruct (IH _ _ _ _ H') as (j & obj & -> & Hj & Hr & Hpen).
    exists (S j), obj. rewrite <- Nat.add_succ_comm. repeat split; [lia|apply Hr..|].
    intros [|i] Hi; [by rewrite Nat.add_0_r|].
    rewrite <- Nat.add_succ_comm. apply Hpen. lia.
Qed.

(** The poll stops at the first refresh that reads another state than
    [pre_activation]. *)
Lemma poll_stops_if j : forall fuel k last obj state,
  (j < fuel)%nat -> (poll_time (k + j) < T)%Z ->
  reads (reply (k + j)) obj state -> state <> "pre_activation" ->
  (forall i, (i < j)%nat -> reads_state (reply (k + i)) "pre_activation") ->
  WaitForState_poll fuel conf (poll_time k) k last 0 (W k) =
    (Ok (Some obj, poll_end (reply (k + j)) state), W (S (k + j))).
Proof.
  pose proof Second_pos.
  induction j as [|j IH]; intros [|fuel] k last obj state Hf Ht Hr Hne Hpen; try lia.
  - rewrite Nat.add_0_r in *. by apply poll_stops.
  - pose proof (poll_time_mono k (S j)).
    rewrite poll_pending; [|lia|].
    + rewrite <- Nat.add_succ_comm in *. apply IH; [lia|done|done|done|].
      intros i Hi. rewrite Nat.add_succ_comm. apply Hpen. lia.
    + specialize (Hpen 0%nat). rewrite Nat.add_0_r in Hpen. apply Hpen. lia.
Qed.

Lemma poll_times_out fuel : forall k last,
  (1 <= fuel)%nat -> (T <= poll_time k + (Z.of_nat fuel - 1) * (5 * Second))%Z ->
  (forall i, (poll_time (k + i) < T)%Z -> reads_state (reply (k + i)) "pre_activation") ->
  exists last' w',
    WaitForState_poll fuel conf (poll_time k) k last 0 (W k) =
      (Ok (None, Some (TimeoutError last' T ["active"])), w').
Proof.
  pose proof Second_pos.
  induction fuel as [|fuel IH]; intros k last Hf Hfuel Hpen; [lia|].
  destruct (Z.leb_spec T (poll_time k)) as [Hto|Ht].
  { rewrite poll_timeout by done. eauto. }
  pose proof (poll_time_step k).
  rewrite poll_pending; [|done|].
  - apply IH; [lia|lia|].
    intros i Hi. rewrite Nat.add_succ_comm. apply Hpen. by rewrite <- Nat.add_succ_comm.
  - specialize (Hpen 0%nat). rewrite Nat.add_0_r in Hpen. by apply Hpen.
Qed.

(** The calls of a poll: each is a read of the secret, a failed one is the
    last, after a successful wait none has failed, and a panic after a
    failed read is the panic of the refresh's type assertion. *)
Lemma poll_calls fuel : forall t n state notfound w,
  let out := WaitForState_poll fuel conf t n state notfound w in
  exists new,
    w_log (snd out) = (w_log w ++ new)%list /\ w_d (snd out) = w_d w
    /\ failure_is_last new
    /\ Forall (fun cr => is_GetSecret (fst cr)) new
    /\ (forall o, fst out = Ok (o, None) -> Forall (fun cr => err (snd cr) = None) new)
    /\ (fst out = OutOfFuel -> Forall (fun cr => err (snd cr) = None) new)
    /\ (forall r cr, fst out = Panic r -> last new = Some cr -> failed cr ->
        as_ArbitrarySecret (result (snd cr)) = Panic r).
Proof.
  induction fuel as [|fuel IH]; intros t n state notfound w; cbv zeta.
  { exists []. cbn. rewrite app_nil_r. by repeat split. }
  rewrite poll_step. destruct (T <=? t)%Z.
  { exists []. cbn. rewrite app_nil_r. repeat split; try constructor; discriminate. }
  cbv zeta. set (rep := sv (w_log w) (GetSecret secretId)).
  set (w' := {| w_d := w_d w; w_log := w_log w ++ [(GetSecret secretId, rep)] |}).
  assert (Hone : forall (r : Res (option ArbitrarySecret * option error)),
            (forall o, r = Ok (o, None) -> err rep = None) ->
            r <> OutOfFuel ->
            (forall r', r = Panic r' -> err rep <> None ->
                        as_ArbitrarySecret (result rep) = Panic r') ->
            exists new,
              w_log (snd (r, w')) = (w_log w ++ new)%list /\ w_d (snd (r, w')) = w_d w
              /\ failure_is_last new
              /\ Forall (fun cr => is_GetSecret (fst cr)) new
              /\ (forall o, fst (r, w') = Ok (o, None) ->
                  Forall (fun cr => err (snd cr) = None) new)
              /\ (fst (r, w') = OutOfFuel -> Forall (fun cr => err (snd cr) = None) new)
              /\ (forall r' cr, fst (r, w') = Panic r' -> last new = Some cr -> failed cr ->
                  as_ArbitrarySecret (result (snd cr)) = Panic r')).
  { intros r Hr Hfuel Hpanic. exists [(GetSecret secretId, rep)].
    split; [done|]. split; [done|]. split; [by cbn|].
    split; [repeat constructor; by eexists|].
    split; [intros o Ho; repeat constructor; cbn in *; eauto|].
    split; [done|].
    intros r' cr Hr' [= <-] Hf. by apply Hpanic. }
  destruct (as_ArbitrarySecret (result rep)) as [obj|r|] eqn:Has;
    [|apply Hone; [discriminate|discriminate|congruence]
     |destruct (result rep) as [[]|]; discriminate].
  destruct (err rep) as [e|] eqn:Herr; [apply Hone; [discriminate..]|].
  destruct (StateDescription obj) as [st|];
    [|apply Hone; [discriminate|discriminate|intros r' _ Hne; by destruct Hne]].
  destruct (bool_decide (st = "pre_activation"));
    [|apply Hone; [done|discriminate|discriminate]].
  destruct (IH (t + pause (5 * Second) n)%Z (S n) st 0%nat w')
    as (new & Hlog & Hd & Hlast & Hget & Hok & Hfuel & Hpanic).
  exists ((GetSecret secretId, rep) :: new). rewrite Hlog, Hd. cbn [w_log w_d w'].
  rewrite <- app_assoc. split; [done|]. split; [done|]. split; [|split; [|split; [|split]]].
  - cbn. split; [by rewrite Herr|done].
  - constructor; [by eexists|done].
  - intros o Ho. constructor; [done|by eapply Hok].
  - intros Ho. constructor; [done|by apply Hfuel].
  - intros r' cr Hr' Hcr Hf. destruct new as [|cr' new'].
    + injection Hcr as <-. exfalso. by apply Hf.
    + apply (Hpanic r' cr Hr'); [|done]. exact Hcr.
Qed.

(** The fuel never runs out before the timeout does. *)
Lemma poll_returns fuel : forall t n last notfound w,
  (1 <= fuel)%nat -> (T <= t + (Z.of_nat fuel - 1) * (5 * Second))%Z ->
  fst (WaitForState_poll fuel conf t n last notfound w) <> OutOfFuel.
Proof.
  pose proof Second_pos.
  induction fuel as [|fuel IH]; intros t n last notfound w Hf Hfuel; [lia|].
  rewrite poll_step. destruct (Z.leb_spec T t) as [Hto|Ht]; [discriminate|]. cbv zeta.
  destruct (result _) as [[obj| |]|]; cbn [as_ArbitrarySecret]; try discriminate.
  destruct (err _) as [e|]; [discriminate|].
  destruct (StateDescription obj) as [st|]; [|discriminate].
  destruct (bool_decide (st = "pre_activation")); [|discriminate].
  pose proof (pause_min n). apply IH; lia.
Qed.

End Poll.

Lemma waitFor_run (sv : Service) (w : World) (secretId : string) :
  index (Split (Id (w_d w)) slash) 2 = Ok secretId ->
  waitForIbmSmArbitrarySecretCreate sv w =
    WaitForState (waitForIbmSmArbitrarySecretCreate_stateConf sv (w_d w) secretId) w.
Proof.
  intros H. unfold waitForIbmSmArbitrarySecretCreate.
  unfold Go_bind at 1. cbn [get_d]. unfold Go_bind at 1. by rewrite H.
Qed.

Lemma WaitForState_run (sv : Service) (d : ResourceData) (secretId : string) (w : World) :
  WaitForState (waitForIbmSmArbitrarySecretCreate_stateConf sv d secretId) w =
    WaitForState_poll (Z.to_nat (rd_timeout_create d / (5 * Second)) + 2)
      (waitForIbmSmArbitrarySecretCreate_stateConf sv d secretId) (poll_time 0) 0 "" 0
      {| w_d := w_d w; w_log := poll_log sv secretId (w_log w) 0 |}.
Proof. by destruct w. Qed.

Lemma fuel_covers (T : Duration) (n : nat) :
  (poll_time n < T)%Z -> (n < Z.to_nat (T / (5 * Second)) + 2)%nat.
Proof.
  intros H. pose proof (poll_time_mono 0 n) as Hn. cbn [poll_time Nat.add] in Hn.
  unfold Second in *.
  assert (Z.of_nat n <= T / (5 * 1000000000))%Z by (apply Z.div_le_lower_bound; lia).
  lia.
Qed.

Lemma fuel_reaches_timeout (T : Duration) :
  (T <= poll_time 0 + (Z.of_nat (Z.to_nat (T / (5 * Second)) + 2) - 1) * (5 * Second))%Z.
Proof.
  cbn [poll_time]. unfold Second.
  pose proof (Z.div_mod T (5 * 1000000000) ltac:(lia)) as Hdm.
  pose proof (Z.mod_pos_bound T (5 * 1000000000) ltac:(lia)) as Hm.
  lia.
Qed.

(** C1, as amended: the creation wait is the poll of a [StateChangeConf] with
    pending value [pre_activation], target value [active], no delay, a
    minimum interval of 5 seconds and the resource's create timeout; the
    first refresh is due at once and consecutive refreshes are at least 5
    seconds apart.  It succeeds exactly when some refresh due before the
    timeout reads [active] and every earlier refresh read [pre_activation];
    when every refresh due before the timeout reads [pre_activation] it
    returns the timeout error; and a refresh, due before the timeout and
    preceded only by refreshes that read [pre_activation], that reads any
    other state than these two ends the wait at once with an error that is
    not the timeout error: the refresh's own error for [destroyed], the
    unexpected-state error for every other state.  The poll always comes to
    an end, and all it does is read the secret. *)
Theorem waitForIbmSmArbitrarySecretCreate_polls_until_active
    (sv : Service) (w : World) (secretId : string) :
  index (Split (Id (w_d w)) slash) 2 = Ok secretId ->
  let conf := waitForIbmSmArbitrarySecretCreate_stateConf sv (w_d w) secretId in
  let T := rd_timeout_create (w_d w) in
  let reply := poll_reply sv secretId (w_log w) in
  (Pending conf = ["pre_activation"] /\ Target conf = ["active"] /\ Delay conf = 0%Z
   /\ MinTimeout conf = (5 * Second)%Z /\ Timeout conf = T)
  /\ (poll_time 0 = Delay conf
      /\ forall n, (poll_time n + MinTimeout conf <= poll_time (S n))%Z)
  /\ waitForIbmSmArbitrarySecretCreate sv w = WaitForState conf w
  /\ (forall o,
        (exists w', waitForIbmSmArbitrarySecretCreate sv w = (Ok (o, None), w'))
        <-> exists n obj,
              o = Some obj /\ (poll_time n < T)%Z /\ reads (reply n) obj "active"
              /\ forall m, (m < n)%nat -> reads_state (reply m) "pre_activation")
  /\ ((forall n, (poll_time n < T)%Z -> reads_state (reply n) "pre_activation") ->
      exists last w',
        waitForIbmSmArbitrarySecretCreate sv w =
          (Ok (None, Some (TimeoutError last T ["active"])), w'))
  /\ (forall n obj state,
        (poll_time n < T)%Z ->
        (forall m, (m < n)%nat -> reads_state (reply m) "pre_activation") ->
        reads (reply n) obj state ->
        state <> "pre_activation" -> state <> "active" ->
        waitForIbmSmArbitrarySecretCreate sv w =
          (Ok (Some obj,
               Some (if bool_decide (state = "destroyed") then
                       Errorf ("The instance getSecretOptions failed: %!s(<nil>)"
                               ++ nl ++ fmt_response (response (reply n)))
                     else UnexpectedStateError state ["active"])),
           {| w_d := w_d w; w_log := poll_log sv secretId (w_log w) (S n) |}))
  /\ fst (waitForIbmSmArbitrarySecretCreate sv w) <> OutOfFuel
  /\ exists new,
       w_log (snd (waitForIbmSmArbitrarySecretCreate sv w)) = (w_log w ++ new)%list
       /\ Forall (fun cr => is_GetSecret (fst cr)) new.
Proof.
  intros Hid conf T reply.
  split; [by repeat split|].
  split; [split; [reflexivity|apply poll_time_step]|].
  split; [by apply waitFor_run|].
  rewrite (waitFor_run _ _ _ Hid), WaitForState_run. fold T.
  split; [|split; [|split; [|split]]]; cycle 3.
  { apply poll_returns; [lia|apply fuel_reaches_timeout]. }
  { match goal with |- context [WaitForState_poll ?f ?c ?t ?n ?l ?nf ?w0] =>
      destruct (poll_calls sv (w_d w) secretId f t n l nf w0) as (new & Hlog & _ & _ & Hget & _)
    end.
    exists new. split; [exact Hlog|exact Hget]. }
  - intros o. split.
    + intros [w' H].
      destruct (poll_success_only_if _ _ _ _ _ _ _ _ _ _ H) as (j & obj & -> & Hj & Hr & Hp).
      exists j, obj. repeat split; [exact Hj|apply Hr..|exact Hp].
    + intros (n & obj & -> & Hn & Hr & Hp). eexists.
      apply (poll_stops_if sv (w_d w) secretId (w_d w) (w_log w) n _ 0%nat _ obj "active");
        [by apply fuel_covers|exact Hn|exact Hr|discriminate|exact Hp].
  - intros Hp.
    apply (poll_times_out sv (w_d w) secretId (w_d w) (w_log w) _ 0%nat);
      [lia|apply fuel_reaches_timeout|exact Hp].
  - intros n obj state Hn Hp Hr Hpen Hact.
    rewrite (poll_stops_if sv (w_d w) secretId (w_d w) (w_log w) n _ 0%nat _ obj state);
      [|by apply fuel_covers|exact Hn|exact Hr|exact Hpen|exact Hp].
    do 3 f_equal. unfold poll_end.
    destruct (bool_decide_reflect (state = "destroyed")) as [->|Hdes]; [reflexivity|].
    destruct (map_index failStates state) eqn:Hfail;
      [by apply failStates_destroyed in Hfail|].
    by rewrite bool_decide_eq_false_2.
Qed.

(** *** Update, delete and create, step by step *)

Lemma Update_run (meta : Meta) (w : World) region instanceId secretId rest patch changed :
  SecretsManagerV2_err meta = None ->
  Split (Id (w_d w)) slash = region :: instanceId :: secretId :: rest ->
  resourceIbmSmArbitrarySecretUpdate_patch (w_d w) = Ok (patch, changed) ->
  resourceIbmSmArbitrarySecretUpdate meta w =
    if changed then
      let sent := UpdateSecretMetadata secretId (AsPatch patch) in
      let rep := service meta (w_log w) sent in
      let w' := {| w_d := w_d w; w_log := w_log w ++ [(sent, rep)] |} in
      match err rep with
      | Some e =>
          (Ok (error_diag ("UpdateSecretMetadataWithContext failed " ++ Error_ e ++ nl
                           ++ fmt_response (response rep))), w')
      | None => resourceIbmSmArbitrarySecretRead meta w'
      end
    else resourceIbmSmArbitrarySecretRead meta w.
Proof.
  intros Hcl Hid Hpatch. unfold resourceIbmSmArbitrarySecretUpdate. rewrite Hcl.
  unfold Go_bind at 1. cbn [get_d]. rewrite Hid.
  cbn [index lookup list_lookup lift Go_bind]. rewrite Hpatch.
  destruct changed; [|reflexivity].
  unfold Go_bind, call, Go_ret. cbv zeta. by destruct (err _).
Qed.

Lemma Delete_run (meta : Meta) (w : World) region instanceId secretId rest :
  SecretsManagerV2_err meta = None ->
  Split (Id (w_d w)) slash = region :: instanceId :: secretId :: rest ->
  resourceIbmSmArbitrarySecretDelete meta w =
    let rep := service meta (w_log w) (DeleteSecret secretId) in
    let log' := (w_log w ++ [(DeleteSecret secretId, rep)])%list in
    match err rep with
    | Some e =>
        (Ok (error_diag ("DeleteSecretWithContext failed " ++ Error_ e ++ nl
                         ++ fmt_response (response rep))),
         {| w_d := w_d w; w_log := log' |})
    | None => (Ok [], {| w_d := SetId "" (w_d w); w_log := log' |})
    end.
Proof.
  intros Hcl Hid. unfold resourceIbmSmArbitrarySecretDelete. rewrite Hcl.
  unfold Go_bind at 1. cbn [get_d]. rewrite Hid.
  cbn [index lookup list_lookup lift Go_bind call]. cbv zeta.
  by destruct (err _).
Qed.

Lemma Set__keeps key v d :
  rd_id (fst (Set_ key v d)) = rd_id d
  /\ rd_timeout_create (fst (Set_ key v d)) = rd_timeout_create d.
Proof.
  unfold Set_. destruct (rd_schema d !! key) as [sc|]; [|done].
  destruct v; try done; by destruct (has_type sc _).
Qed.

Lemma Set__refused key v d : rd_refused (fst (Set_ key v d)) = rd_refused d.
Proof.
  unfold Set_. destruct (rd_schema d !! key) as [sc|]; [|done].
  destruct v; try done; by destruct (has_type sc _).
Qed.

Lemma created_d_Id d instanceId secret_ID :
  Id (created_d d instanceId secret_ID)
  = getRegion d ++ "/" ++ instanceId ++ "/" ++ secret_ID.
Proof. unfold created_d, Id. by rewrite (proj1 (Set__keeps _ _ _)). Qed.

Lemma created_d_timeout d instanceId secret_ID :
  rd_timeout_create (created_d d instanceId secret_ID) = rd_timeout_create d.
Proof. unfold created_d. by rewrite (proj2 (Set__keeps _ _ _)). Qed.

Lemma Create_run (meta : Meta) (w : World) instanceId proto :
  SecretsManagerV2_err meta = None ->
  Get (w_d w) "instance_id" = VString instanceId ->
  resourceIbmSmArbitrarySecretMapToArbitrarySecretPrototype (w_d w) = Ok (inl proto) ->
  resourceIbmSmArbitrarySecretCreate meta w =
    let rep := service meta (w_log w) (CreateSecret proto) in
    let log' := (w_log w ++ [(CreateSecret proto, rep)])%list in
    match err rep with
    | Some e =>
        (Ok (error_diag ("CreateSecretWithContext failed " ++ Error_ e ++ nl
                         ++ fmt_response (response rep))),
         {| w_d := w_d w; w_log := log' |})
    | None =>
        match secret_ID <~ (secret <~ as_ArbitrarySecret (result rep) ;; deref (ID secret)) ;;
              Ok secret_ID with
        | Ok secret_ID =>
            (waited <- waitForIbmSmArbitrarySecretCreate (service meta) ;;
             match snd waited with
             | Some e =>
                 d <- get_d ;;
                 Go_ret (diag_FromErr (Errorf (
                   "Error waiting for resource IbmSmArbitrarySecret (" ++ Id d
                   ++ ") to be created: " ++ Error_ e)))
             | None => resourceIbmSmArbitrarySecretRead meta
             end)
              {| w_d := created_d (w_d w) instanceId secret_ID; w_log := log' |}
        | Panic r => (Panic r, {| w_d := w_d w; w_log := log' |})
        | OutOfFuel => (OutOfFuel, {| w_d := w_d w; w_log := log' |})
        end
    end.
Proof.
  intros Hcl Hinst Hproto. unfold resourceIbmSmArbitrarySecretCreate. rewrite Hcl.
  unfold Go_bind, get_d, lift, call, Go_ret, d_SetId, d_Set. cbn [w_d w_log].
  rewrite Hinst. cbn [as_string]. rewrite Hproto. cbv zeta.
  destruct (err _) as [e|]; [reflexivity|].
  destruct (as_ArbitrarySecret _) as [secret|r|]; [|reflexivity..]. cbn [Res_bind].
  destruct (ID secret) as [secret_ID|]; [|reflexivity].
  cbn [deref Res_bind]. unfold created_d.
  by destruct (Set_ "secret_id" _ _).
Qed.

(** C2: the fail-state set is exactly [destroyed]; when a refresh of the
    creation poll, due before the timeout and preceded only by refreshes that
    read [pre_activation], reads [destroyed], create returns the error
    diagnostic of the failed wait, and the log ends with that refresh: the
    poll does not continue and the secret is not read back. *)
Theorem Create_fails_when_secret_is_destroyed (meta : Meta) (w : World)
    (instanceId : string) (proto : ArbitrarySecretPrototype)
    (secret : ArbitrarySecret) (secret_ID pollId : string) (n : nat) (obj : ArbitrarySecret) :
  SecretsManagerV2_err meta = None ->
  Get (w_d w) "instance_id" = VString instanceId ->
  resourceIbmSmArbitrarySecretMapToArbitrarySecretPrototype (w_d w) = Ok (inl proto) ->
  let created := service meta (w_log w) (CreateSecret proto) in
  err created = None ->
  result created = Some (ArbitrarySecretPtr secret) ->
  ID secret = Some secret_ID ->
  let id := getRegion (w_d w) ++ "/" ++ instanceId ++ "/" ++ secret_ID in
  index (Split id slash) 2 = Ok pollId ->
  let log0 := (w_log w ++ [(CreateSecret proto, created)])%list in
  let reply := poll_reply (service meta) pollId log0 in
  (poll_time n < rd_timeout_create (w_d w))%Z ->
  (forall m, (m < n)%nat -> reads_state (reply m) "pre_activation") ->
  reads (reply n) obj "destroyed" ->
  (forall state, map_index failStates state = true <-> state = "destroyed")
  /\ resourceIbmSmArbitrarySecretCreate meta w =
       (Ok (error_diag ("Error waiting for resource IbmSmArbitrarySecret (" ++ id
                        ++ ") to be created: "
                        ++ "The instance getSecretOptions failed: %!s(<nil>)"
                        ++ nl ++ fmt_response (response (reply n)))),
        {| w_d := created_d (w_d w) instanceId secret_ID;
           w_log := poll_log (service meta) pollId log0 (S n) |}).
Proof.
  intros Hcl Hinst Hproto created Herr Hres HID id Hpoll log0 reply Hn Hpen Hdes.
  split; [apply failStates_destroyed|].
  rewrite (Create_run _ _ _ _ Hcl Hinst Hproto). cbv zeta. fold created.
  rewrite Herr, Hres. cbn [as_ArbitrarySecret Res_bind]. rewrite HID. cbn [deref Res_bind].
  unfold Go_bind at 1. fold log0.
  rewrite (waitFor_run _ _ pollId) by (cbn [w_d]; by rewrite created_d_Id).
  rewrite WaitForState_run. cbn [w_d w_log]. rewrite created_d_timeout.
  rewrite (poll_stops_if (service meta) _ pollId _ log0 n _ 0%nat _ obj "destroyed");
    [|by apply fuel_covers
     |by rewrite created_d_timeout
     |exact Hdes|discriminate|exact Hpen].
  unfold poll_end. rewrite (proj2 (failStates_destroyed "destroyed") eq_refl).
  cbn [snd]. unfold Go_bind, get_d, Go_ret. cbn [w_d]. rewrite created_d_Id.
  reflexivity.
Qed.

Lemma Read_shape (meta : Meta) (w : World) :
  let out := resourceIbmSmArbitrarySecretRead meta w in
  w_log (snd out) = w_log w
  \/ exists secretId,
       let cr := (GetSecret secretId, service meta (w_log w) (GetSecret secretId)) in
       w_log (snd out) = (w_log w ++ [cr])%list
       /\ (failed cr -> returned_error out \/ returned_gone cr out).
Proof.
  cbv zeta. destruct (SecretsManagerV2_err meta) as [e|] eqn:Hcl.
  { left. unfold resourceIbmSmArbitrarySecretRead. by rewrite Hcl. }
  destruct (Split (Id (w_d w)) slash) as [|a [|b [|c [|x l]]]] eqn:Hid;
    try (left; unfold resourceIbmSmArbitrarySecretRead; rewrite Hcl;
         unfold Go_bind, get_d; by rewrite Hid).
  right. exists c. rewrite (Read_after_call _ _ _ _ _ Hcl Hid). cbv zeta.
  unfold failed. cbn [snd fst].
  destruct (err _) as [e|] eqn:Herr.
  - destruct (response_is _ 404) eqn:H404.
    + split; [done|]. intros _. right. repeat split; [by eexists|done].
    + split; [done|]. intros _. left. by eexists.
  - split; [|done].
    apply (keeps_log_bind _ _ (keeps_log_lift _)
             (fun secret => keeps_log_Read_flatten a b c secret)).
Qed.

Lemma Read_calls (meta : Meta) (w : World) :
  exists reads_back,
    w_log (snd (resourceIbmSmArbitrarySecretRead meta w)) = (w_log w ++ reads_back)%list
    /\ Forall (fun cr => is_GetSecret (fst cr)) reads_back.
Proof.
  destruct (Read_shape meta w) as [H|(secretId & H & _)].
  - exists []. by rewrite app_nil_r.
  - eexists. split; [exact H|]. repeat constructor. by eexists.
Qed.

Lemma Update_patch_spec (d : ResourceData) :
  well_typed d ->
  declares d ResourceIbmSmArbitrarySecret_Schema ->
  exists patch,
    resourceIbmSmArbitrarySecretUpdate_patch d = Ok (patch, metadata_changed d)
    /\ patched d "name" is_string (mName patch)
    /\ patched d "description" is_string (mDescription patch)
    /\ patched d "labels" is_printed_list (mLabels patch)
    /\ patched d "custom_metadata" is_map (mCustomMetadata patch).
Proof.
  intros Hwt Hsch. unfold resourceIbmSmArbitrarySecretUpdate_patch.
  destruct (string_attr d Hwt Hsch "name" _ ltac:(in_schema) eq_refl) as (s1 & E1 & R1).
  destruct (field_if_changed_patched d _ _ _ _ false E1 R1) as (o1 & -> & P1).
  destruct (string_attr d Hwt Hsch "description" _ ltac:(in_schema) eq_refl) as (s2 & E2 & R2).
  destruct (field_if_changed_patched d _ _ _ _ (HasChange d "name" || false) E2 R2)
    as (o2 & E2' & P2).
  destruct (labels_attr d Hwt Hsch) as (s3 & E3 & R3).
  destruct (field_if_changed_patched d _ _ _ _
              (HasChange d "description" || (HasChange d "name" || false)) E3 R3)
    as (o3 & E3' & P3).
  destruct (map_attr d Hwt Hsch "custom_metadata" _ ltac:(in_schema) eq_refl) as (s4 & E4 & R4).
  destruct (field_if_changed_patched d _ _ _ _
              (HasChange d "labels"
               || (HasChange d "description" || (HasChange d "name" || false))) E4 R4)
    as (o4 & E4' & P4).
  cbn [Res_bind]. rewrite E2'. cbn [Res_bind]. rewrite E3'. cbn [Res_bind]. rewrite E4'.
  cbn [Res_bind].
  exists {| mName := o1; mDescription := o2; mLabels := o3; mCustomMetadata := o4 |}.
  split; [|by repeat split].
  do 2 f_equal. unfold metadata_changed.
  by destruct (HasChange d "name"), (HasChange d "description"),
       (HasChange d "labels"), (HasChange d "custom_metadata").
Qed.

Lemma Update_calls (meta : Meta) (w : World) region instanceId secretId rest patch changed :
  SecretsManagerV2_err meta = None ->
  Split (Id (w_d w)) slash = region :: instanceId :: secretId :: rest ->
  resourceIbmSmArbitrarySecretUpdate_patch (w_d w) = Ok (patch, changed) ->
  exists reads_back,
    w_log (snd (resourceIbmSmArbitrarySecretUpdate meta w)) =
      (w_log w
       ++ (if changed then
             [(UpdateSecretMetadata secretId (AsPatch patch),
               service meta (w_log w) (UpdateSecretMetadata secretId (AsPatch patch)))]
           else []) ++ reads_back)%list
    /\ Forall (fun cr => is_GetSecret (fst cr)) reads_back.
Proof.
  intros Hcl Hid Hpatch. rewrite (Update_run _ _ _ _ _ _ _ _ Hcl Hid Hpatch).
  destruct changed; [|apply Read_calls].
  cbv zeta. destruct (err _) as [e|].
  - exists []. split; [reflexivity|constructor].
  - match goal with |- context [resourceIbmSmArbitrarySecretRead meta ?w'] =>
      destruct (Read_calls meta w') as (reads_back & Hlog & Hall) end.
    exists reads_back. split; [|exact Hall].
    rewrite Hlog. cbn [w_log]. by rewrite <- app_assoc.
Qed.

(** *** The body of the PATCH request *)

(** A list attribute as the patch carries it: every element printed. *)
Definition printed (v : Value) : Value :=
  match v with
  | VList l => VStrings (Sprint <$> l)
  | _ => v
  end.

Lemma AsPatch_name p : AsPatch p !! "name" = VString <$> mName p.
Proof.
  unfold AsPatch.
  destruct (mName p), (mDescription p), (mLabels p) as [[|? ?]|],
    (mCustomMetadata p) as [cm|]; try destruct (bool_decide (cm = ∅)); by simplify_map_eq.
Qed.

Lemma AsPatch_description p : AsPatch p !! "description" = VString <$> mDescription p.
Proof.
  unfold AsPatch.
  destruct (mName p), (mDescription p), (mLabels p) as [[|? ?]|],
    (mCustomMetadata p) as [cm|]; try destruct (bool_decide (cm = ∅)); by simplify_map_eq.
Qed.

Lemma AsPatch_labels p :
  AsPatch p !! "labels"
  = match mLabels p with
    | Some (label :: labels) => Some (VStrings (label :: labels))
    | _ => None
    end.
Proof.
  unfold AsPatch, VStrings.
  destruct (mName p), (mDescription p), (mLabels p) as [[|? ?]|],
    (mCustomMetadata p) as [cm|]; try destruct (bool_decide (cm = ∅)); by simplify_map_eq.
Qed.

Lemma AsPatch_custom_metadata p :
  AsPatch p !! "custom_metadata"
  = match mCustomMetadata p with
    | Some cm => if bool_decide (cm = ∅) then None else Some (VMap cm)
    | None => None
    end.
Proof.
  unfold AsPatch.
  destruct (mName p), (mDescription p), (mLabels p) as [[|? ?]|],
    (mCustomMetadata p) as [cm|]; try destruct (bool_decide (cm = ∅)); by simplify_map_eq.
Qed.

Lemma AsPatch_other p key :
  key ∉ ["name"; "description"; "labels"; "custom_metadata"] -> AsPatch p !! key = None.
Proof.
  intros Hnot. rewrite !not_elem_of_cons in Hnot. destruct Hnot as (H1 & H2 & H3 & H4 & _).
  unfold AsPatch.
  destruct (mName p), (mDescription p), (mLabels p) as [[|? ?]|],
    (mCustomMetadata p) as [cm|]; try destruct (bool_decide (cm = ∅)); by simplify_map_eq.
Qed.

(** What update sends: the metadata patch goes out exactly when one of
    [name], [description], [labels] and [custom_metadata] has changed; its
    body holds [name] and [description] exactly when they changed, [labels]
    and [custom_metadata] exactly when they changed to a value that is not
    empty, and no other key; apart from that call update only reads the
    secret back, so no call of it carries the payload, whose schema forces a
    new resource on change. *)
Theorem Update_sends_the_changed_nonempty_metadata (meta : Meta) (w : World)
    (region instanceId secretId : string) (rest : list string) :
  SecretsManagerV2_err meta = None ->
  well_typed (w_d w) ->
  declares (w_d w) ResourceIbmSmArbitrarySecret_Schema ->
  Split (Id (w_d w)) slash = region :: instanceId :: secretId :: rest ->
  let d := w_d w in
  exists body reads_back,
    body !! "name" = (if HasChange d "name" then Some (Get d "name") else None)
    /\ body !! "description"
       = (if HasChange d "description" then Some (Get d "description") else None)
    /\ body !! "labels"
       = (if HasChange d "labels" && negb (is_zero (Get d "labels"))
          then Some (printed (Get d "labels")) else None)
    /\ body !! "custom_metadata"
       = (if HasChange d "custom_metadata" && negb (is_zero (Get d "custom_metadata"))
          then Some (Get d "custom_metadata") else None)
    /\ (forall key, key ∉ ["name"; "description"; "labels"; "custom_metadata"] ->
        body !! key = None)
    /\ (let sent := (UpdateSecretMetadata secretId body,
                     service meta (w_log w) (UpdateSecretMetadata secretId body)) in
        w_log (snd (resourceIbmSmArbitrarySecretUpdate meta w)) =
          (w_log w ++ (if metadata_changed d then [sent] else []) ++ reads_back)%list)
    /\ Forall (fun cr => is_GetSecret (fst cr) /\ carries_payload (fst cr) = false) reads_back
    /\ schema_ForceNew <$> lookup_schema ResourceIbmSmArbitrarySecret_Schema "payload"
       = Some true.
Proof.
  intros Hcl Hwt Hsch Hid d.
  destruct (Update_patch_spec d Hwt Hsch) as (patch & Hpatch & P1 & P2 & P3 & P4).
  assert (Hgets : forall l : list (Call * Reply),
             Forall (fun cr => is_GetSecret (fst cr)) l ->
             Forall (fun cr => is_GetSecret (fst cr) /\ carries_payload (fst cr) = false) l).
  { intros l Hl. eapply Forall_impl; [exact Hl|].
    intros [c rep] [id ->]. split; [by eexists|done]. }
  destruct (Update_calls _ _ _ _ _ _ _ _ Hcl Hid Hpatch) as (reads_back & Hlog & Hall).
  exists (AsPatch patch), reads_back.
  unfold patched, filled_iff, is_string, is_map, is_printed_list in P1, P2, P3, P4.
  split.
  { rewrite AsPatch_name. destruct (mName patch) as [s|]; [|by rewrite P1].
    destruct P1 as [-> ->]. reflexivity. }
  split.
  { rewrite AsPatch_description. destruct (mDescription patch) as [s|]; [|by rewrite P2].
    destruct P2 as [-> ->]. reflexivity. }
  split.
  { rewrite AsPatch_labels. destruct (mLabels patch) as [l|]; [|by rewrite P3].
    destruct P3 as (-> & elems & -> & ->). by destruct elems. }
  split.
  { rewrite AsPatch_custom_metadata. destruct (mCustomMetadata patch) as [cm|]; [|by rewrite P4].
    destruct P4 as [-> ->]. cbn. by destruct (bool_decide (cm = ∅)). }
  split; [intros key; apply AsPatch_other|].
  split; [exact Hlog|]. split; [by apply Hgets|reflexivity].
Qed.

(** *** How a failed call is reported *)

(** How a function has ended when the [GetSecretWithContext] call that read
    issued for [secretId] in world [w] has failed with [e]: on a 404 response
    with no diagnostic and the resource ID cleared, otherwise with the one
    error diagnostic that names the call, the resource data being as it
    was. *)
Definition ends_as_failed_Read (meta : Meta) (w : World) (secretId : string) (e : error)
    (out : Res Diagnostics * World) : Prop :=
  let rep := service meta (w_log w) (GetSecret secretId) in
  let log' := (w_log w ++ [(GetSecret secretId, rep)])%list in
  if response_is (response rep) 404 then
    out = (Ok [], {| w_d := SetId "" (w_d w); w_log := log' |})
  else
    out = (Ok (error_diag ("GetSecretWithContext failed " ++ Error_ e ++ nl
                           ++ fmt_response (response rep))),
           {| w_d := w_d w; w_log := log' |}).

Lemma Read_fails (meta : Meta) (w : World) (region instanceId secretId : string) (e : error) :
  SecretsManagerV2_err meta = None ->
  Split (Id (w_d w)) slash = [region; instanceId; secretId] ->
  err (service meta (w_log w) (GetSecret secretId)) = Some e ->
  ends_as_failed_Read meta w secretId e (resourceIbmSmArbitrarySecretRead meta w).
Proof.
  intros Hcl Hid Herr. unfold ends_as_failed_Read. cbv zeta.
  rewrite (Read_after_call _ _ _ _ _ Hcl Hid). cbv zeta. rewrite Herr.
  by destruct (response_is _ _).
Qed.

(** Update ends with a read of the secret when it had nothing to send or
    its call succeeded. *)
Lemma Update_read_back (meta : Meta) (w : World) region instanceId secretId rest patch changed :
  SecretsManagerV2_err meta = None ->
  Split (Id (w_d w)) slash = region :: instanceId :: secretId :: rest ->
  resourceIbmSmArbitrarySecretUpdate_patch (w_d w) = Ok (patch, changed) ->
  let sent := UpdateSecretMetadata secretId (AsPatch patch) in
  (changed = true -> err (service meta (w_log w) sent) = None) ->
  resourceIbmSmArbitrarySecretUpdate meta w =
    resourceIbmSmArbitrarySecretRead meta
      {| w_d := w_d w;
         w_log := w_log w ++ (if changed then [(sent, service meta (w_log w) sent)] else []) |}.
Proof.
  intros Hcl Hid Hpatch sent Hok. rewrite (Update_run _ _ _ _ _ _ _ _ Hcl Hid Hpatch).
  destruct changed.
  - cbv zeta. fold sent. by rewrite Hok.
  - rewrite app_nil_r. by destruct w.
Qed.

(** Create ends with a read of the secret when its wait returned no error. *)
Lemma Create_read_back (meta : Meta) (w : World) instanceId proto secret secret_ID o w2 :
  SecretsManagerV2_err meta = None ->
  Get (w_d w) "instance_id" = VString instanceId ->
  resourceIbmSmArbitrarySecretMapToArbitrarySecretPrototype (w_d w) = Ok (inl proto) ->
  let created := service meta (w_log w) (CreateSecret proto) in
  err created = None ->
  result created = Some (ArbitrarySecretPtr secret) ->
  ID secret = Some secret_ID ->
  waitForIbmSmArbitrarySecretCreate (service meta)
    {| w_d := created_d (w_d w) instanceId secret_ID;
       w_log := w_log w ++ [(CreateSecret proto, created)] |} = (Ok (o, None), w2) ->
  resourceIbmSmArbitrarySecretCreate meta w = resourceIbmSmArbitrarySecretRead meta w2.
Proof.
  intros Hcl Hinst Hproto created Herr Hres HID Hwait.
  rewrite (Create_run _ _ _ _ Hcl Hinst Hproto). cbv zeta. fold created.
  rewrite Herr, Hres. cbn [as_ArbitrarySecret Res_bind]. rewrite HID. cbn [deref Res_bind].
  unfold Go_bind at 1. by rewrite Hwait.
Qed.

(** C6, as amended: when [CreateSecretWithContext],
    [UpdateSecretMetadataWithContext] or [DeleteSecretWithContext] fails, or
    [GetSecretWithContext] fails in a read with a response that is not a 404,
    the function returns one error diagnostic whose text is the name of the
    call followed by [failed], the error and the response; when
    [GetSecretWithContext] fails in a read with a 404 response, the function
    returns no diagnostic and the resource ID is cleared.  The read at the end
    of update and of create ends in the same two ways. *)
Theorem failed_call_is_wrapped_with_its_name (meta : Meta) (w : World) :
  SecretsManagerV2_err meta = None ->
  (forall instanceId proto e,
      Get (w_d w) "instance_id" = VString instanceId ->
      resourceIbmSmArbitrarySecretMapToArbitrarySecretPrototype (w_d w) = Ok (inl proto) ->
      let rep := service meta (w_log w) (CreateSecret proto) in
      err rep = Some e ->
      fst (resourceIbmSmArbitrarySecretCreate meta w) =
        Ok (error_diag ("CreateSecretWithContext failed " ++ Error_ e ++ nl
                        ++ fmt_response (response rep))))
  /\ (forall region instanceId secretId e,
        Split (Id (w_d w)) slash = [region; instanceId; secretId] ->
        let rep := service meta (w_log w) (GetSecret secretId) in
        err rep = Some e ->
        (response_is (response rep) 404 = false ->
         fst (resourceIbmSmArbitrarySecretRead meta w) =
           Ok (error_diag ("GetSecretWithContext failed " ++ Error_ e ++ nl
                           ++ fmt_response (response rep))))
        /\ (response_is (response rep) 404 = true ->
            fst (resourceIbmSmArbitrarySecretRead meta w) = Ok []
            /\ Id (w_d (snd (resourceIbmSmArbitrarySecretRead meta w))) = "")
        /\ ends_as_failed_Read meta w secretId e (resourceIbmSmArbitrarySecretRead meta w))
  /\ (forall region instanceId secretId rest patch e,
        Split (Id (w_d w)) slash = region :: instanceId :: secretId :: rest ->
        resourceIbmSmArbitrarySecretUpdate_patch (w_d w) = Ok (patch, true) ->
        let rep := service meta (w_log w) (UpdateSecretMetadata secretId (AsPatch patch)) in
        err rep = Some e ->
        fst (resourceIbmSmArbitrarySecretUpdate meta w) =
          Ok (error_diag ("UpdateSecretMetadataWithContext failed " ++ Error_ e ++ nl
                          ++ fmt_response (response rep))))
  /\ (forall region instanceId secretId rest e,
        Split (Id (w_d w)) slash = region :: instanceId :: secretId :: rest ->
        let rep := service meta (w_log w) (DeleteSecret secretId) in
        err rep = Some e ->
        fst (resourceIbmSmArbitrarySecretDelete meta w) =
          Ok (error_diag ("DeleteSecretWithContext failed " ++ Error_ e ++ nl
                          ++ fmt_response (response rep))))
  /\ (forall region instanceId secretId patch changed e,
        Split (Id (w_d w)) slash = [region; instanceId; secretId] ->
        resourceIbmSmArbitrarySecretUpdate_patch (w_d w) = Ok (patch, changed) ->
        let sent := UpdateSecretMetadata secretId (AsPatch patch) in
        (changed = true -> err (service meta (w_log w) sent) = None) ->
        let w' := {| w_d := w_d w;
                     w_log := w_log w ++ (if changed
                                          then [(sent, service meta (w_log w) sent)]
                                          else []) |} in
        err (service meta (w_log w') (GetSecret secretId)) = Some e ->
        ends_as_failed_Read meta w' secretId e (resourceIbmSmArbitrarySecretUpdate meta w))
  /\ (forall instanceId proto secret secret_ID o w2 region instanceId' secretId e,
        Get (w_d w) "instance_id" = VString instanceId ->
        resourceIbmSmArbitrarySecretMapToArbitrarySecretPrototype (w_d w) = Ok (inl proto) ->
        let created := service meta (w_log w) (CreateSecret proto) in
        err created = None ->
        result created = Some (ArbitrarySecretPtr secret) ->
        ID secret = Some secret_ID ->
        waitForIbmSmArbitrarySecretCreate (service meta)
          {| w_d := created_d (w_d w) instanceId secret_ID;
             w_log := w_log w ++ [(CreateSecret proto, created)] |} = (Ok (o, None), w2) ->
        Split (Id (w_d w2)) slash = [region; instanceId'; secretId] ->
        err (service meta (w_log w2) (GetSecret secretId)) = Some e ->
        ends_as_failed_Read meta w2 secretId e (resourceIbmSmArbitrarySecretCreate meta w)).
Proof.
  intros Hcl. split; [|split; [|split; [|split; [|split]]]].
  - intros instanceId proto e Hinst Hproto rep Herr.
    rewrite (Create_run _ _ _ _ Hcl Hinst Hproto). cbv zeta. fold rep. by rewrite Herr.
  - intros region instanceId secretId e Hid rep Herr.
    pose proof (Read_fails _ _ _ _ _ _ Hcl Hid Herr) as H.
    split; [|split; [|exact H]]; intros H404;
      unfold ends_as_failed_Read in H; cbv zeta in H; fold rep in H;
      rewrite H404 in H; by rewrite H.
  - intros region instanceId secretId rest patch e Hid Hpatch rep Herr.
    rewrite (Update_run _ _ _ _ _ _ _ _ Hcl Hid Hpatch). cbv zeta. fold rep. by rewrite Herr.
  - intros region instanceId secretId rest e Hid rep Herr.
    rewrite (Delete_run _ _ _ _ _ _ Hcl Hid). cbv zeta. fold rep. by rewrite Herr.
  - intros region instanceId secretId patch changed e Hid Hpatch sent Hok w' Herr.
    rewrite (Update_read_back _ _ _ _ _ _ _ _ Hcl Hid Hpatch Hok). fold sent. fold w'.
    by apply (Read_fails _ _ region instanceId).
  - intros instanceId proto secret secret_ID o w2 region instanceId' secretId e
      Hinst Hproto created Hcre Hres HID Hwait Hid Herr.
    rewrite (Create_read_back _ _ _ _ _ _ _ _ Hcl Hinst Hproto Hcre Hres HID Hwait).
    by apply (Read_fails _ _ region instanceId').
Qed.

(** *** No call after a failed call *)

Lemma failure_is_last_app (pre new : list (Call * Reply)) :
  Forall (fun cr => err (snd cr) = None) pre -> failure_is_last new ->
  failure_is_last (pre ++ new).
Proof.
  induction 1 as [|[c rep] pre Hok _ IH]; intros Hnew; [done|].
  cbn in *. split; [by rewrite Hok|by apply IH].
Qed.

Lemma ends_well_nocall poll l0 out : w_log (snd out) = l0 -> ends_well poll l0 out.
Proof.
  intros H. exists []. rewrite app_nil_r. split; [done|]. split; [done|]. discriminate.
Qed.

Lemma ends_well_one poll l0 out cr :
  w_log (snd out) = (l0 ++ [cr])%list ->
  (failed cr ->
   (~ is_GetSecret (fst cr) -> returned_error out)
   /\ (is_GetSecret (fst cr) ->
       returned_error out \/ returned_gone cr out
       \/ (poll = true /\ returned_panic cr out))) ->
  ends_well poll l0 out.
Proof.
  intros Hlog H. exists [cr]. split; [done|]. split; [by destruct cr|].
  by intros cr' [= <-].
Qed.

Lemma ends_well_after poll l0 pre out :
  Forall (fun cr => err (snd cr) = None) pre ->
  ends_well poll (l0 ++ pre) out -> ends_well poll l0 out.
Proof.
  intros Hpre (new & Hlog & Hlast & Hret). exists (pre ++ new)%list.
  split; [by rewrite app_assoc|]. split; [by apply failure_is_last_app|].
  intros cr Hcr Hfail. rewrite last_app in Hcr.
  destruct (last new) as [cr'|] eqn:Hnew.
  - injection Hcr as ->. by apply Hret.
  - exfalso. apply Hfail. apply last_Some_elem_of in Hcr.
    rewrite Forall_forall in Hpre. by apply Hpre.
Qed.

Lemma ends_well_weaken l0 out : ends_well false l0 out -> ends_well true l0 out.
Proof.
  intros (new & Hlog & Hlast & Hret). exists new. split; [done|]. split; [done|].
  intros cr Hcr Hfail. destruct (Hret cr Hcr Hfail) as [H1 H2]. split; [done|].
  intros Hg. destruct (H2 Hg) as [H|[H|[[=] _]]]; auto.
Qed.

Lemma Read_ends_well (meta : Meta) (w : World) :
  ends_well false (w_log w) (resourceIbmSmArbitrarySecretRead meta w).
Proof.
  destruct (Read_shape meta w) as [H|(secretId & H & Hret)].
  - by apply ends_well_nocall.
  - eapply ends_well_one; [exact H|]. intros Hfail. split.
    + intros Hno. exfalso. apply Hno. by eexists.
    + intros _. destruct (Hret Hfail); auto.
Qed.

Lemma returned_error_diag msg w : returned_error (Ok (error_diag msg), w).
Proof. by eexists. Qed.

Lemma not_failed c rep : err rep = None -> ~ failed (c, rep).
Proof. intros H Hf. by apply Hf. Qed.

Lemma Delete_ends_well (meta : Meta) (w : World) :
  ends_well false (w_log w) (resourceIbmSmArbitrarySecretDelete meta w).
Proof.
  destruct (SecretsManagerV2_err meta) as [e|] eqn:Hcl.
  { apply ends_well_nocall. unfold resourceIbmSmArbitrarySecretDelete. by rewrite Hcl. }
  destruct (Split (Id (w_d w)) slash) as [|a [|b [|c rest]]] eqn:Hid;
    try (apply ends_well_nocall; unfold resourceIbmSmArbitrarySecretDelete; rewrite Hcl;
         unfold Go_bind, get_d, lift; by rewrite Hid).
  rewrite (Delete_run _ _ _ _ _ _ Hcl Hid). cbv zeta.
  destruct (err _) as [e|] eqn:Herr.
  - eapply ends_well_one; [reflexivity|]. intros _. split.
    + intros _. apply returned_error_diag.
    + intros _. left. apply returned_error_diag.
  - eapply ends_well_one; [reflexivity|]. intros Hf. by apply not_failed in Hf.
Qed.

Lemma Update_ends_well (meta : Meta) (w : World) :
  ends_well false (w_log w) (resourceIbmSmArbitrarySecretUpdate meta w).
Proof.
  destruct (SecretsManagerV2_err meta) as [e|] eqn:Hcl.
  { apply ends_well_nocall. unfold resourceIbmSmArbitrarySecretUpdate. by rewrite Hcl. }
  destruct (Split (Id (w_d w)) slash) as [|a [|b [|c rest]]] eqn:Hid;
    try (apply ends_well_nocall; unfold resourceIbmSmArbitrarySecretUpdate; rewrite Hcl;
         unfold Go_bind, get_d, lift; by rewrite Hid).
  destruct (resourceIbmSmArbitrarySecretUpdate_patch (w_d w)) as [[patch changed]|r|] eqn:Hpatch;
    try (apply ends_well_nocall; unfold resourceIbmSmArbitrarySecretUpdate; rewrite Hcl;
         unfold Go_bind, get_d, lift; rewrite Hid; cbn [index lookup list_lookup];
         by rewrite Hpatch).
  rewrite (Update_run _ _ _ _ _ _ _ _ Hcl Hid Hpatch).
  destruct changed; [|apply Read_ends_well].
  cbv zeta. destruct (err _) as [e|] eqn:Herr.
  - eapply ends_well_one; [reflexivity|]. intros _. split.
    + intros _. apply returned_error_diag.
    + intros [id [=]].
  - match goal with |- ends_well _ _ (resourceIbmSmArbitrarySecretRead meta ?w') =>
      apply (ends_well_after false (w_log w)
               [(UpdateSecretMetadata c (AsPatch patch),
                 service meta (w_log w) (UpdateSecretMetadata c (AsPatch patch)))]);
        [|exact (Read_ends_well meta w')]
    end.
    repeat constructor. exact Herr.
Qed.

Lemma Create_wait_ends_well (meta : Meta) (w : World) :
  ends_well true (w_log w)
    ((waited <- waitForIbmSmArbitrarySecretCreate (service meta) ;;
      match snd waited with
      | Some e =>
          d <- get_d ;;
          Go_ret (diag_FromErr (Errorf (
            "Error waiting for resource IbmSmArbitrarySecret (" ++ Id d
            ++ ") to be created: " ++ Error_ e)))
      | None => resourceIbmSmArbitrarySecretRead meta
      end) w).
Proof.
  destruct (index (Split (Id (w_d w)) slash) 2) as [pollId|r|] eqn:Hidx;
    try (apply ends_well_nocall; unfold waitForIbmSmArbitrarySecretCreate;
         unfold Go_bind, get_d, lift; by rewrite Hidx).
  unfold Go_bind at 1. rewrite (waitFor_run _ _ _ Hidx). unfold WaitForState.
  match goal with |- context [WaitForState_poll ?f ?c ?t ?n ?l ?nf w] =>
    destruct (poll_calls (service meta) (w_d w) pollId f t n l nf w)
      as (new & Hlog & _ & Hlast & Hget & Hok & Hfuel & Hpanic);
    destruct (WaitForState_poll f c t n l nf w) as [[[o [e|]]|r|] w'] eqn:Hpoll
  end; cbn [fst snd] in *.
  - exists new. split; [exact Hlog|]. split; [exact Hlast|].
    intros cr _ _. split; [intros _|intros _; left]; by eexists.
  - apply (ends_well_after true (w_log w) new); [by eapply Hok|].
    rewrite <- Hlog. apply ends_well_weaken, Read_ends_well.
  - exists new. split; [exact Hlog|]. split; [exact Hlast|].
    intros cr Hcr Hfail. split.
    + intros Hno. exfalso. apply Hno. apply last_Some_elem_of in Hcr.
      rewrite Forall_forall in Hget. by apply Hget.
    + intros _. right. right. split; [done|]. exists r. split; [done|]. by apply Hpanic.
  - exists new. split; [exact Hlog|]. split; [exact Hlast|].
    intros cr Hcr Hfail. exfalso. apply Hfail. apply last_Some_elem_of in Hcr.
    specialize (Hfuel eq_refl). rewrite Forall_forall in Hfuel. by apply Hfuel.
Qed.

Lemma Create_ends_well (meta : Meta) (w : World) :
  ends_well true (w_log w) (resourceIbmSmArbitrarySecretCreate meta w).
Proof.
  destruct (SecretsManagerV2_err meta) as [e|] eqn:Hcl.
  { apply ends_well_nocall. unfold resourceIbmSmArbitrarySecretCreate. by rewrite Hcl. }
  destruct (as_string (Get (w_d w) "instance_id")) as [instanceId|r|] eqn:Hinst;
    try (apply ends_well_nocall; unfold resourceIbmSmArbitrarySecretCreate; rewrite Hcl;
         unfold Go_bind, get_d, lift; by rewrite Hinst).
  assert (Get (w_d w) "instance_id" = VString instanceId) as Hget.
  { destruct (Get (w_d w) "instance_id"); cbn in Hinst; congruence. }
  destruct (resourceIbmSmArbitrarySecretMapToArbitrarySecretPrototype (w_d w))
    as [[proto|e]|r|] eqn:Hproto;
    try (apply ends_well_nocall; unfold resourceIbmSmArbitrarySecretCreate; rewrite Hcl;
         unfold Go_bind, get_d, lift; rewrite Hinst; by rewrite Hproto).
  rewrite (Create_run _ _ _ _ Hcl Hget Hproto). cbv zeta.
  destruct (err _) as [e|] eqn:Herr.
  { eapply ends_well_one; [reflexivity|]. intros _. split.
    - intros _. apply returned_error_diag.
    - intros [id [=]]. }
  destruct (Res_bind _ _) as [secret_ID|r|];
    try (eapply ends_well_one; [reflexivity|]; intros Hf; by apply not_failed in Hf).
  match goal with |- ends_well _ _ (_ ?w') =>
    apply (ends_well_after true (w_log w) [(CreateSecret proto,
             service meta (w_log w) (CreateSecret proto))]);
      [|exact (Create_wait_ends_well meta w')]
  end.
  repeat constructor. exact Herr.
Qed.

(** C7, as amended: in each of the four lifecycle functions a failed call is
    the last call of the operation (the creation poll included).  After a
    failed call other than a read of the secret the function returned an
    error diagnostic.  After a failed read of the secret it returned an error
    diagnostic or, on a 404 response, no diagnostic with the resource ID
    cleared; only in create, and only for a read that returned no
    [ArbitrarySecret], it can also have panicked at the type assertion of the
    poll's refresh.  When the wait of create has returned without error,
    create ends as the read of the secret that follows: if that read fails,
    with its error diagnostic or, on a 404 response, with no diagnostic and
    the ID cleared. *)
Theorem failed_call_ends_the_operation (meta : Meta) (w : World) :
  (forall op,
     let out := lifecycle op meta w in
     exists new,
       w_log (snd out) = (w_log w ++ new)%list
       /\ failure_is_last new
       /\ forall cr, last new = Some cr -> failed cr ->
            (~ is_GetSecret (fst cr) -> returned_error out)
            /\ (is_GetSecret (fst cr) ->
                returned_error out \/ returned_gone cr out
                \/ (op = CreateContext /\ returned_panic cr out)))
  /\ (forall instanceId proto secret secret_ID o w2 region instanceId' secretId e,
        SecretsManagerV2_err meta = None ->
        Get (w_d w) "instance_id" = VString instanceId ->
        resourceIbmSmArbitrarySecretMapToArbitrarySecretPrototype (w_d w) = Ok (inl proto) ->
        let created := service meta (w_log w) (CreateSecret proto) in
        err created = None ->
        result created = Some (ArbitrarySecretPtr secret) ->
        ID secret = Some secret_ID ->
        waitForIbmSmArbitrarySecretCreate (service meta)
          {| w_d := created_d (w_d w) instanceId secret_ID;
             w_log := w_log w ++ [(CreateSecret proto, created)] |} = (Ok (o, None), w2) ->
        Split (Id (w_d w2)) slash = [region; instanceId'; secretId] ->
        err (service meta (w_log w2) (GetSecret secretId)) = Some e ->
        resourceIbmSmArbitrarySecretCreate meta w = resourceIbmSmArbitrarySecretRead meta w2
        /\ ends_as_failed_Read meta w2 secretId e (resourceIbmSmArbitrarySecretCreate meta w)).
Proof.
  split.
  - intros op. cbv zeta.
    assert (H : ends_well (if op is CreateContext then true else false) (w_log w)
                  (lifecycle op meta w)).
    { destruct op; cbn [lifecycle].
      - apply Create_ends_well.
      - apply Read_ends_well.
      - apply Update_ends_well.
      - apply Delete_ends_well. }
    destruct H as (new & Hlog & Hlast & Hret). exists new.
    split; [done|]. split; [done|].
    intros cr Hcr Hfail. destruct (Hret cr Hcr Hfail) as [H1 H2]. split; [done|].
    intros Hg. destruct (H2 Hg) as [H|[H|[Hop H]]]; auto.
    right. right. split; [by destruct op|done].
  - intros instanceId proto secret secret_ID o w2 region instanceId' secretId e
      Hcl Hinst Hproto created Hcre Hres HID Hwait Hid Herr.
    rewrite (Create_read_back _ _ _ _ _ _ _ _ Hcl Hinst Hproto Hcre Hres HID Hwait).
    split; [reflexivity|]. by apply (Read_fails _ _ region instanceId').
Qed.

(** *** What the refresh closure does with a failed read *)

Lemma Refresh_panics_on_nil_result (sv : Service) (secretId : string) (w : World) :
  result (sv (w_log w) (GetSecret secretId)) = None ->
  fst (waitForIbmSmArbitrarySecretCreate_Refresh sv secretId w) = Panic NilInterfaceConversion.
Proof. intros H. rewrite Refresh_run. cbv zeta. by rewrite H. Qed.

(** *** Which attributes the data source writes *)

Lemma Set__other key key' v d :
  key <> key' -> rd_new (fst (Set_ key' v d)) !! key = rd_new d !! key.
Proof.
  intros Hne. unfold Set_. destruct (rd_schema d !! key') as [sc|]; [|done].
  destruct v; try destruct (has_type sc _); cbn [fst rd_new];
    first [ by rewrite lookup_delete_ne | by rewrite lookup_insert_ne
          | by rewrite lookup_partial_alter_ne | done ].
Qed.

Lemma keeps_attr_ret key {A} (a : A) : keeps_attr key (Go_ret a).
Proof. by intros w. Qed.

Lemma keeps_attr_lift key {A} (r : Res A) : keeps_attr key (lift r).
Proof. by intros w. Qed.

Lemma keeps_attr_bind key {A B} (m : Go A) (f : A -> Go B) :
  keeps_attr key m -> (forall a, keeps_attr key (f a)) -> keeps_attr key (Go_bind m f).
Proof.
  intros Hm Hf w. unfold Go_bind. specialize (Hm w).
  destruct (m w) as [[a|r|] w']; cbn in *; [|done..].
  by rewrite (Hf a w').
Qed.

Lemma keeps_attr_d_Set key key' v : key <> key' -> keeps_attr key (d_Set key' v).
Proof.
  intros Hne w. unfold d_Set. pose proof (Set__other key key' v (w_d w) Hne) as H.
  by destruct (Set_ key' v (w_d w)).
Qed.

Lemma keeps_attr_d_SetId key v : keeps_attr key (d_SetId v).
Proof. by intros w. Qed.

Lemma keeps_attr_set_checked_msg key prefix key' v k :
  key <> key' -> keeps_attr key k -> keeps_attr key (set_checked_msg prefix key' v k).
Proof.
  intros Hne Hk. unfold set_checked_msg.
  apply keeps_attr_bind; [by apply keeps_attr_d_Set|].
  intros [e|]; [apply keeps_attr_ret|done].
Qed.

Lemma Read_flatten_writes_only key region secret :
  ~ In key dataSourceIbmSmServiceCredentialsSecretRead_written ->
  keeps_attr key (dataSourceIbmSmServiceCredentialsSecretRead_flatten region secret).
Proof.
  intros Hnot. unfold dataSourceIbmSmServiceCredentialsSecretRead_flatten.
  repeat first
    [ apply keeps_attr_ret
    | apply keeps_attr_lift
    | apply keeps_attr_set_checked_msg;
        [intros ->; apply Hnot; cbn; repeat (first [by left | right])|]
    | apply keeps_attr_bind; [|intros ?]
    | match goal with
      | |- keeps_attr _ (match ?x with _ => _ end _) => destruct x
      | |- keeps_attr _ (match ?x with _ => _ end) => destruct x
      end ].
Qed.

(** Whatever the secret holds, the read writes none of the attributes outside
    its list, [credentials] and [source_service] among them. *)
Lemma dataSource_Read_writes_only key
    (getSecretByIdOrByName : Go (option SecretIntf * string * string * Diagnostics))
    (w : World) :
  ~ In key dataSourceIbmSmServiceCredentialsSecretRead_written ->
  rd_new (w_d (snd (dataSourceIbmSmServiceCredentialsSecretRead getSecretByIdOrByName w))) !! key
  = rd_new (w_d (snd (getSecretByIdOrByName w))) !! key.
Proof.
  intros Hnot. unfold dataSourceIbmSmServiceCredentialsSecretRead. unfold Go_bind at 1.
  destruct (getSecretByIdOrByName w) as [[[[[intf region] instanceId] diagError]|r|] w1];
    [|done..].
  cbn [snd]. destruct diagError; [|done].
  apply (keeps_attr_bind key); [apply keeps_attr_lift|]. intros secret.
  apply keeps_attr_bind; [apply keeps_attr_lift|]. intros secret_ID.
  apply keeps_attr_bind; [apply keeps_attr_d_SetId|]. intros _.
  by apply Read_flatten_writes_only.
Qed.

(** ** Further properties of the resource and of the data source *)

(** *** The resource ID and its three components *)

(** The number of occurrences of a character in a string. *)
Fixpoint count (c : ascii) (s : string) : nat :=
  match s with
  | EmptyString => 0
  | String c' s' => (if Ascii.eqb c' c then 1 else 0) + count c s'
  end.

Lemma Split_count s sep : length (Split s sep) = S (count sep s).
Proof.
  induction s as [|c s IH]; [reflexivity|]. cbn [Split count].
  destruct (Ascii.eqb c sep); cbn [length]; [by rewrite IH|].
  destruct (Split s sep) as [|p ps]; [discriminate|]. cbn in *. lia.
Qed.

Lemma count_app c s1 s2 : count c (s1 ++ s2) = (count c s1 + count c s2)%nat.
Proof.
  induction s1 as [|c' s1 IH]; [done|].
  change (String c' s1 ++ s2) with (String c' (s1 ++ s2)). cbn [count]. rewrite IH. lia.
Qed.

Lemma Split_none s sep : count sep s = 0%nat -> Split s sep = [s].
Proof.
  induction s as [|c s IH]; [done|]. cbn [Split count].
  destruct (Ascii.eqb c sep); [discriminate|]. intros H. by rewrite IH.
Qed.

Lemma Split_app s rest sep :
  count sep s = 0%nat -> Split (s ++ String sep rest) sep = s :: Split rest sep.
Proof.
  induction s as [|c s IH].
  - intros _. change ("" ++ String sep rest) with (String sep rest).
    cbn [Split]. by rewrite Ascii.eqb_refl.
  - change (String c s ++ String sep rest) with (String c (s ++ String sep rest)).
    cbn [Split count]. destruct (Ascii.eqb c sep); [discriminate|]. intros H. by rewrite IH.
Qed.

(** The ID that create writes, [region/instance/secret], splits back into
    its three components when none of them holds a slash; when one of them
    does, the ID has more than three components, which read rejects. *)
Theorem created_id_splits_back (d : ResourceData) (instanceId secret_ID : string) :
  let id := Id (created_d d instanceId secret_ID) in
  (count slash (getRegion d) = 0%nat -> count slash instanceId = 0%nat ->
   count slash secret_ID = 0%nat ->
   Split id slash = [getRegion d; instanceId; secret_ID])
  /\ length (Split id slash)
     = (3 + count slash (getRegion d) + count slash instanceId + count slash secret_ID)%nat.
Proof.
  cbv zeta. rewrite created_d_Id. split.
  - intros Hr Hi Hs.
    change ("/" ++ instanceId ++ "/" ++ secret_ID)
      with (String slash (instanceId ++ String slash secret_ID)).
    rewrite (Split_app _ _ _ Hr), (Split_app _ _ _ Hi). by rewrite (Split_none _ _ Hs).
  - rewrite Split_count, !count_app.
    change (count slash "/") with 1%nat. lia.
Qed.

(** Read accepts exactly the IDs with two slashes: any other ID gives the
    wrong-format diagnostic with nothing read and nothing changed, and an ID
    with two slashes makes read issue one [GetSecret] call for its third
    component. *)
Theorem Read_checks_the_id_format (meta : Meta) (w : World) :
  SecretsManagerV2_err meta = None ->
  (count slash (Id (w_d w)) <> 2%nat ->
   resourceIbmSmArbitrarySecretRead meta w = (Ok (error_diag wrong_id_format), w))
  /\ (count slash (Id (w_d w)) = 2%nat ->
      exists region instanceId secretId,
        Split (Id (w_d w)) slash = [region; instanceId; secretId]
        /\ w_log (snd (resourceIbmSmArbitrarySecretRead meta w))
           = (w_log w ++ [(GetSecret secretId,
                           service meta (w_log w) (GetSecret secretId))])%list).
Proof.
  intros Hcl. pose proof (Split_count (Id (w_d w)) slash) as Hlen. split; intros Hc.
  - unfold resourceIbmSmArbitrarySecretRead. rewrite Hcl. unfold Go_bind at 1. cbn [get_d].
    destruct (Nat.eqb_spec (length (Split (Id (w_d w)) slash)) 3) as [E|_]; [lia|].
    reflexivity.
  - destruct (Split (Id (w_d w)) slash) as [|a [|b [|c [|x l]]]] eqn:Hid;
      cbn [length] in Hlen; try lia.
    exists a, b, c. split; [done|].
    rewrite (Read_after_call _ _ _ _ _ Hcl Hid). cbv zeta.
    destruct (err _) as [e|]; [by destruct (response_is _ _)|].
    apply (keeps_log_bind _ _ (keeps_log_lift _)
             (fun secret => keeps_log_Read_flatten a b c secret)).
Qed.

(** Update, delete and the creation wait index the split ID without a length
    check: on an ID with fewer than three components each of them panics
    with an index out of range, before any REST call. *)
Theorem short_id_panics (meta : Meta) (w : World) :
  SecretsManagerV2_err meta = None ->
  (count slash (Id (w_d w)) < 2)%nat ->
  resourceIbmSmArbitrarySecretUpdate meta w = (Panic IndexOutOfRange, w)
  /\ resourceIbmSmArbitrarySecretDelete meta w = (Panic IndexOutOfRange, w)
  /\ waitForIbmSmArbitrarySecretCreate (service meta) w = (Panic IndexOutOfRange, w).
Proof.
  intros Hcl Hc. pose proof (Split_count (Id (w_d w)) slash) as Hlen.
  unfold resourceIbmSmArbitrarySecretUpdate, resourceIbmSmArbitrarySecretDelete,
    waitForIbmSmArbitrarySecretCreate.
  rewrite Hcl. unfold Go_bind, get_d, lift.
  destruct (Split (Id (w_d w)) slash) as [|a [|b [|c l]]]; cbn [length] in Hlen; try lia;
    by repeat split.
Qed.

(** Delete issues exactly one call, [DeleteSecret] for the third component of
    the ID, and never touches the attributes; it clears the ID and returns no
    diagnostic when the call succeeded, and leaves the resource data as it
    was, with an error diagnostic, when the call failed. *)
Theorem Delete_clears_the_id_when_deleted (meta : Meta) (w : World)
    (region instanceId secretId : string) (rest : list string) :
  SecretsManagerV2_err meta = None ->
  Split (Id (w_d w)) slash = region :: instanceId :: secretId :: rest ->
  let rep := service meta (w_log w) (DeleteSecret secretId) in
  let out := resourceIbmSmArbitrarySecretDelete meta w in
  w_log (snd out) = (w_log w ++ [(DeleteSecret secretId, rep)])%list
  /\ rd_new (w_d (snd out)) = rd_new (w_d w)
  /\ (err rep = None -> fst out = Ok [] /\ Id (w_d (snd out)) = "")
  /\ (err rep <> None -> returned_error out /\ w_d (snd out) = w_d w).
Proof.
  intros Hcl Hid. cbv zeta. rewrite (Delete_run _ _ _ _ _ _ Hcl Hid). cbv zeta.
  destruct (err _) as [e|]; cbn [fst snd w_log w_d].
  - repeat split; try done. apply returned_error_diag.
  - repeat split; try done.
Qed.

(** *** [dataSourceIbmSmServiceCredentialsSecretRotationPolicyToMap] *)

(** The map of a rotation policy holds [auto_rotate], [interval] and [unit]
    for exactly the fields of the policy that are set, and nothing else; the
    conversion never fails. *)
Theorem RotationPolicyToMap_holds_the_set_fields (model : CommonRotationPolicy) :
  exists modelMap,
    dataSourceIbmSmServiceCredentialsSecretRotationPolicyToMap model = inl modelMap
    /\ modelMap !! "auto_rotate" = SBool <$> AutoRotate model
    /\ modelMap !! "interval" = SInt <$> Interval model
    /\ modelMap !! "unit" = SString <$> Unit_ model
    /\ forall key, key <> "auto_rotate" -> key <> "interval" -> key <> "unit" ->
                   modelMap !! key = None.
Proof.
  unfold dataSourceIbmSmServiceCredentialsSecretRotationPolicyToMap. eexists.
  split; [reflexivity|].
  destruct (AutoRotate model), (Interval model), (Unit_ model); cbn;
    repeat split; try (intros key H1 H2 H3); by simplify_map_eq.
Qed.

(** *** Create after the creation wait *)

Lemma waitFor_keeps_d (sv : Service) (w : World) :
  w_d (snd (waitForIbmSmArbitrarySecretCreate sv w)) = w_d w.
Proof.
  unfold waitForIbmSmArbitrarySecretCreate, Go_bind, get_d, lift.
  destruct (index _ 2) as [secretId|r|]; [|done..]. unfold WaitForState.
  match goal with |- context [WaitForState_poll ?f ?c ?t ?n ?l ?nf w] =>
    destruct (poll_calls sv (w_d w) secretId f t n l nf w) as (new & _ & Hd & _)
  end.
  exact Hd.
Qed.

(** Once [CreateSecret] has succeeded, create has written the resource ID
    [region/instance/secret] and keeps it whatever the wait does: after a
    successful wait create is the read of the secret, after a failed wait it
    returns the diagnostic that names the ID and wraps the wait's error, with
    the ID still set. *)
Theorem Create_after_the_wait (meta : Meta) (w : World)
    (instanceId : string) (proto : ArbitrarySecretPrototype)
    (secret : ArbitrarySecret) (secret_ID : string) :
  SecretsManagerV2_err meta = None ->
  Get (w_d w) "instance_id" = VString instanceId ->
  resourceIbmSmArbitrarySecretMapToArbitrarySecretPrototype (w_d w) = Ok (inl proto) ->
  let created := service meta (w_log w) (CreateSecret proto) in
  err created = None ->
  result created = Some (ArbitrarySecretPtr secret) ->
  ID secret = Some secret_ID ->
  let id := getRegion (w_d w) ++ "/" ++ instanceId ++ "/" ++ secret_ID in
  let waited :=
    waitForIbmSmArbitrarySecretCreate (service meta)
      {| w_d := created_d (w_d w) instanceId secret_ID;
         w_log := w_log w ++ [(CreateSecret proto, created)] |} in
  Id (w_d (snd waited)) = id
  /\ match fst waited with
     | Ok (_, None) =>
         resourceIbmSmArbitrarySecretCreate meta w
         = resourceIbmSmArbitrarySecretRead meta (snd waited)
     | Ok (_, Some e) =>
         resourceIbmSmArbitrarySecretCreate meta w
         = (Ok (error_diag ("Error waiting for resource IbmSmArbitrarySecret (" ++ id
                            ++ ") to be created: " ++ Error_ e)), snd waited)
     | Panic r => resourceIbmSmArbitrarySecretCreate meta w = (Panic r, snd waited)
     | OutOfFuel => True
     end.
Proof.
  intros Hcl Hinst Hproto created Herr Hres HID id waited.
  assert (Hidw : Id (w_d (snd waited)) = id).
  { subst waited. rewrite waitFor_keeps_d. cbn [w_d]. apply created_d_Id. }
  split; [exact Hidw|].
  rewrite (Create_run _ _ _ _ Hcl Hinst Hproto). cbv zeta. fold created.
  rewrite Herr, Hres. cbn [as_ArbitrarySecret Res_bind]. rewrite HID. cbn [deref Res_bind].
  unfold Go_bind, get_d, Go_ret, diag_FromErr, Errorf, error_diag. cbn [Error_].
  fold waited. clearbody waited.
  destruct waited as [[[o [e|]]|r|] w2]; cbn [fst snd] in *; try done.
  by rewrite Hidw.
Qed.

(** *** What a successful read writes *)

(** [d.Set] of a value that fits the attribute: the attribute map after it. *)
Definition write (key : string) (v : Value) (m : gmap string Value) : gmap string Value :=
  match v with
  | VNil => delete key m
  | _ => <[key := stored_form v]> m
  end.

(** [d.Set] of the map of a non-nil field, whose error the caller drops: the
    attribute map after it, whether the framework took the map or refused
    it. *)
Definition write_unchecked (refused : string -> Value -> option Value -> option Value)
    (field : option (gmap string Scalar)) (key : string)
    (m : gmap string Value) : gmap string Value :=
  match field with
  | Some cm =>
      if string_values cm then write key (VMap cm) m
      else partial_alter (refused key (VMap cm)) key m
  | None => m
  end.

(** A write that is made only for a non-nil field. *)
Definition write_if {A} (field : option A) (key : string) (f : A -> Value)
    (m : gmap string Value) : gmap string Value :=
  match field with
  | Some a => write key (f a) m
  | None => m
  end.

Definition with_new (d : ResourceData) (m : gmap string Value) : ResourceData :=
  {| rd_schema := rd_schema d; rd_id := rd_id d; rd_old := rd_old d;
     rd_new := m; rd_timeout_create := rd_timeout_create d;
     rd_refused := rd_refused d |}.

Definition fits (sc : Schema) (v : Value) : bool :=
  match v with
  | VNil => true
  | _ => has_type sc v
  end.

(** What reading an attribute back gives after such a write. *)
Definition stored (v : Value) : option Value :=
  match v with
  | VNil => None
  | _ => Some (stored_form v)
  end.

Lemma Set__fits key v d sc :
  rd_schema d !! key = Some sc -> fits sc v = true ->
  Set_ key v d = (with_new d (write key v (rd_new d)), None).
Proof.
  intros Hs Hf. unfold Set_. rewrite Hs. destruct v; cbn in Hf |- *; by rewrite ?Hf.
Qed.

Lemma d_Set_fits key v w sc :
  rd_schema (w_d w) !! key = Some sc -> fits sc v = true ->
  d_Set key v w
  = (Ok None, {| w_d := with_new (w_d w) (write key v (rd_new (w_d w))); w_log := w_log w |}).
Proof. intros Hs Hf. unfold d_Set. by rewrite (Set__fits _ _ _ _ Hs Hf). Qed.

Lemma set_checked_msg_fits prefix key v k w sc :
  rd_schema (w_d w) !! key = Some sc -> fits sc v = true ->
  set_checked_msg prefix key v k w
  = k {| w_d := with_new (w_d w) (write key v (rd_new (w_d w))); w_log := w_log w |}.
Proof.
  intros Hs Hf. unfold set_checked_msg, Go_bind. by rewrite (d_Set_fits _ _ _ _ Hs Hf).
Qed.

Lemma set_checked_fits key v k w sc :
  rd_schema (w_d w) !! key = Some sc -> fits sc v = true ->
  set_checked key v k w
  = k {| w_d := with_new (w_d w) (write key v (rd_new (w_d w))); w_log := w_log w |}.
Proof. apply set_checked_msg_fits. Qed.

Lemma lookup_write key key' v m :
  write key v m !! key' = if String.eqb key key' then stored v else m !! key'.
Proof.
  destruct (String.eqb_spec key key') as [->|Hne].
  - destruct v; cbn; by rewrite ?lookup_delete_eq, ?lookup_insert_eq.
  - destruct v; cbn; by rewrite ?lookup_delete_ne, ?lookup_insert_ne.
Qed.

Lemma lookup_write_unchecked refused field key key' m :
  write_unchecked refused field key m !! key'
  = if String.eqb key key' then
      match field with
      | Some cm =>
          if string_values cm then stored (VMap cm)
          else refused key (VMap cm) (m !! key')
      | None => m !! key'
      end
    else m !! key'.
Proof.
  destruct field as [cm|]; cbn [write_unchecked]; [|by destruct (String.eqb key key')].
  destruct (string_values cm); [apply lookup_write|].
  destruct (String.eqb_spec key key') as [->|Hne].
  - by rewrite lookup_partial_alter_eq.
  - by rewrite lookup_partial_alter_ne.
Qed.

Lemma lookup_write_if {A} (field : option A) key key' f m :
  write_if field key f m !! key'
  = if String.eqb key key' then
      match field with Some a => stored (f a) | None => m !! key' end
    else m !! key'.
Proof.
  destruct field as [a|]; cbn [write_if]; [apply lookup_write|].
  by destruct (String.eqb key key').
Qed.

Lemma fits_VString sc s : schema_Type sc = TypeString -> fits sc (VString s) = true.
Proof. intros H. cbn. by rewrite H. Qed.

Lemma fits_VStringPtr sc p : schema_Type sc = TypeString -> fits sc (VStringPtr p) = true.
Proof. intros H. destruct p; cbn; by rewrite ?H. Qed.

Lemma fits_VBoolPtr sc p : schema_Type sc = TypeBool -> fits sc (VBoolPtr p) = true.
Proof. intros H. destruct p; cbn; by rewrite ?H. Qed.

Lemma fits_VInt sc n : schema_Type sc = TypeInt -> fits sc (VInt n) = true.
Proof. intros H. cbn. by rewrite H. Qed.


Lemma string_elems_SString (l : list string) : string_elems (SString <$> l) = true.
Proof. by induction l. Qed.

Lemma stored_form_VStrings (l : list string) : stored_form (VStrings l) = VStrings l.
Proof.
  unfold VStrings. cbn [stored_form]. f_equal. rewrite <- list_fmap_compose.
  by apply list_fmap_ext.
Qed.

Lemma fits_VStrings sc l :
  schema_Type sc = TypeList -> schema_Elem sc = [] -> fits sc (VStrings l) = true.
Proof. intros H1 H2. cbn. by rewrite H1, H2, string_elems_SString. Qed.


Lemma Get_with_new d m key sc :
  rd_schema d !! key = Some sc ->
  Get (with_new d m) key = read_value sc (m !! key).
Proof. intros H. unfold Get, read_attr. cbn [with_new rd_schema rd_new]. by rewrite H. Qed.

(** The attribute map after the writes of a successful
    [resourceIbmSmArbitrarySecretRead], last write outermost. *)
Definition resourceIbmSmArbitrarySecretRead_written_map
    (refused : string -> Value -> option Value -> option Value)
    (region instanceId secretId : string) (secret : ArbitrarySecret)
    (m : gmap string Value) : gmap string Value :=
  write "payload" (VStringPtr (Payload secret)) (
  write "expiration_date" (VString (flex_DateTimeToString (ExpirationDate secret))) (
  write_if (Labels secret) "labels" VStrings (
  write "description" (VStringPtr (Description secret)) (
  write_unchecked refused (CustomMetadata secret) "custom_metadata" (
  write "versions_total" (VInt (flex_IntValue (VersionsTotal secret))) (
  write "updated_at" (VString (flex_DateTimeToString (UpdatedAt secret))) (
  write "state_description" (VStringPtr (StateDescription secret)) (
  write "state" (VInt (flex_IntValue (State secret))) (
  write "secret_type" (VStringPtr (SecretType secret)) (
  write "secret_group_id" (VStringPtr (SecretGroupID secret)) (
  write "name" (VStringPtr (Name secret)) (
  write "locks_total" (VInt (flex_IntValue (LocksTotal secret))) (
  write "downloaded" (VBoolPtr (Downloaded secret)) (
  write "crn" (VStringPtr (Crn secret)) (
  write "created_at" (VString (flex_DateTimeToString (CreatedAt secret))) (
  write "created_by" (VStringPtr (CreatedBy secret)) (
  write "region" (VString region) (
  write "instance_id" (VString instanceId) (
  write "secret_id" (VString secretId) m))))))))))))))))))).

(** The resource data declares [key] as a string attribute. *)
Definition declares_string (d : ResourceData) (key : string) : Prop :=
  exists sc, rd_schema d !! key = Some sc /\ schema_Type sc = TypeString.

Lemma declares_lookup_schema d sch key sc :
  declares d sch -> lookup_schema sch key = Some sc -> rd_schema d !! key = Some sc.
Proof.
  unfold lookup_schema. intros Hd H.
  destruct (List.find _ sch) as [[key' sc']|] eqn:E; [|discriminate].
  injection H as ->. apply List.find_some in E as [Hin Hk].
  apply bool_decide_eq_true in Hk. cbn in Hk. subst key'.
  by apply (declares_lookup _ _ _ _ Hd).
Qed.

Lemma with_new_self (w : World) :
  w = {| w_d := with_new (w_d w) (rd_new (w_d w)); w_log := w_log w |}.
Proof. by destruct w as [[] ?]. Qed.

Lemma set_checked_msg_step {prefix key v k d m l} sc out :
  rd_schema d !! key = Some sc -> fits sc v = true ->
  k {| w_d := with_new d (write key v m); w_log := l |} = out ->
  set_checked_msg prefix key v k {| w_d := with_new d m; w_log := l |} = out.
Proof. intros Hs Hf <-. by rewrite (set_checked_msg_fits _ _ _ _ _ sc). Qed.

Lemma set_checked_step {key v k d m l} sc out :
  rd_schema d !! key = Some sc -> fits sc v = true ->
  k {| w_d := with_new d (write key v m); w_log := l |} = out ->
  set_checked key v k {| w_d := with_new d m; w_log := l |} = out.
Proof. apply set_checked_msg_step. Qed.

Lemma d_Set_unchecked_step {A key cm} {k : Go A} {d m l} sc out :
  rd_schema d !! key = Some sc -> schema_Type sc = TypeMap ->
  k {| w_d := with_new d (write_unchecked (rd_refused d) (Some cm) key m); w_log := l |}
  = out ->
  Go_bind (d_Set key (VMap cm)) (fun _ => k) {| w_d := with_new d m; w_log := l |} = out.
Proof.
  intros Hs Ht <-. unfold Go_bind, d_Set, Set_. cbn [w_d w_log with_new rd_schema].
  rewrite Hs. cbn [has_type write_unchecked write]. rewrite Ht.
  rewrite bool_decide_eq_true_2 by done. cbn [andb].
  by destruct (string_values cm).
Qed.

Ltac set_step Hsch Hi Hr :=
  lazymatch goal with
  | |- set_checked _ _ _ _ = _ => eapply set_checked_step
  | |- set_checked_msg _ _ _ _ _ = _ => eapply set_checked_msg_step
  end;
  [ lazymatch goal with
    | |- _ !! "instance_id" = _ => apply (proj1 Hi)
    | |- _ !! "region" = _ => apply (proj1 Hr)
    | |- _ => apply (declares_lookup_schema _ _ _ _ Hsch); vm_compute; reflexivity
    end
  | lazymatch goal with
    | |- fits _ (VStringPtr _) = _ => apply fits_VStringPtr
    | |- fits _ (VBoolPtr _) = _ => apply fits_VBoolPtr
    | |- fits _ (VString _) = _ => apply fits_VString
    | |- fits _ (VInt _) = _ => apply fits_VInt
    | |- fits _ (VStrings _) = _ => apply fits_VStrings
    end;
    first [ reflexivity | apply (proj2 Hi) | apply (proj2 Hr) ]
  | ].

Lemma Read_flatten_writes (region instanceId secretId : string) (secret : ArbitrarySecret)
    (d : ResourceData) (m : gmap string Value) (l : list (Call * Reply)) :
  declares d ResourceIbmSmArbitrarySecret_Schema ->
  declares_string d "instance_id" ->
  declares_string d "region" ->
  resourceIbmSmArbitrarySecretRead_flatten region instanceId secretId secret
    {| w_d := with_new d m; w_log := l |}
  = (Ok [], {| w_d := with_new d (resourceIbmSmArbitrarySecretRead_written_map
                                    (rd_refused d) region instanceId secretId secret m);
               w_log := l |}).
Proof.
  intros Hsch (sci & Hi) (scr & Hr).
  unfold resourceIbmSmArbitrarySecretRead_flatten,
    resourceIbmSmArbitrarySecretRead_written_map.
  do 15 set_step Hsch Hi Hr.
  destruct (CustomMetadata secret) as [cm|];
    [eapply d_Set_unchecked_step;
       [apply (declares_lookup_schema _ _ _ _ Hsch); vm_compute; reflexivity|reflexivity|]
    |unfold Go_bind at 1; cbn [Go_ret write_unchecked]];
    set_step Hsch Hi Hr;
    (destruct (Labels secret) as [lbl|]; cbn [write_if];
     [set_step Hsch Hi Hr|]);
    do 2 set_step Hsch Hi Hr; reflexivity.
Qed.

Lemma Read_flatten_run (region instanceId secretId : string) (secret : ArbitrarySecret)
    (w : World) :
  declares (w_d w) ResourceIbmSmArbitrarySecret_Schema ->
  declares_string (w_d w) "instance_id" ->
  declares_string (w_d w) "region" ->
  resourceIbmSmArbitrarySecretRead_flatten region instanceId secretId secret w
  = (Ok [], {| w_d := with_new (w_d w)
                        (resourceIbmSmArbitrarySecretRead_written_map
                           (rd_refused (w_d w)) region instanceId secretId secret
                           (rd_new (w_d w)));
               w_log := w_log w |}).
Proof.
  intros Hsch Hi Hr. rewrite (with_new_self w) at 1.
  by apply Read_flatten_writes.
Qed.

Lemma lookup_write_ne key key' v m :
  String.eqb key key' = false -> write key v m !! key' = m !! key'.
Proof. intros H. by rewrite lookup_write, H. Qed.

Lemma lookup_write_eq key v m : write key v m !! key = stored v.
Proof. by rewrite lookup_write, String.eqb_refl. Qed.

Lemma lookup_write_if_ne {A} (field : option A) key key' f m :
  String.eqb key key' = false -> write_if field key f m !! key' = m !! key'.
Proof. intros H. by rewrite lookup_write_if, H. Qed.

Lemma lookup_write_if_eq {A} (field : option A) key f m :
  write_if field key f m !! key
  = match field with Some a => stored (f a) | None => m !! key end.
Proof. by rewrite lookup_write_if, String.eqb_refl. Qed.

Lemma lookup_write_unchecked_ne refused field key key' m :
  String.eqb key key' = false -> write_unchecked refused field key m !! key' = m !! key'.
Proof. intros H. by rewrite lookup_write_unchecked, H. Qed.

Lemma lookup_write_unchecked_eq refused field key m :
  write_unchecked refused field key m !! key
  = match field with
    | Some cm =>
        if string_values cm then stored (VMap cm) else refused key (VMap cm) (m !! key)
    | None => m !! key
    end.
Proof. by rewrite lookup_write_unchecked, String.eqb_refl. Qed.

Ltac skip_writes :=
  repeat first [ rewrite lookup_write_ne by reflexivity
               | rewrite lookup_write_if_ne by reflexivity
               | rewrite lookup_write_unchecked_ne by reflexivity ].

Ltac read_back :=
  skip_writes;
  first [ rewrite lookup_write_eq | rewrite lookup_write_if_eq
        | rewrite lookup_write_unchecked_eq ].

Ltac read_attr_back Hsch :=
  erewrite Get_with_new by (apply (declares_lookup_schema _ _ _ _ Hsch); vm_compute; reflexivity);
  read_back.

(** A read whose [GetSecret] call succeeds with an arbitrary secret returns
    no diagnostic, keeps the ID, and leaves every attribute it writes equal
    to the field of the secret (to the empty string, [false] or 0 for a nil
    field): [secret_id], [instance_id] and [region] come from the ID;
    [labels] keeps its value when the secret has none, and the labels read
    back are the ones create and update would send; [custom_metadata] keeps
    its value when the secret has none and holds the metadata of the secret,
    a nil value as the empty string, when all its values are strings or nil
    (the framework refuses any other map, and read drops that error). *)
Theorem Read_flattens_the_secret (meta : Meta) (w : World)
    (region instanceId secretId : string) (secret : ArbitrarySecret) :
  SecretsManagerV2_err meta = None ->
  Split (Id (w_d w)) slash = [region; instanceId; secretId] ->
  declares (w_d w) ResourceIbmSmArbitrarySecret_Schema ->
  declares_string (w_d w) "instance_id" ->
  declares_string (w_d w) "region" ->
  let rep := service meta (w_log w) (GetSecret secretId) in
  err rep = None ->
  result rep = Some (ArbitrarySecretPtr secret) ->
  exists d',
    resourceIbmSmArbitrarySecretRead meta w
    = (Ok [], {| w_d := d'; w_log := w_log w ++ [(GetSecret secretId, rep)] |})
    /\ Id d' = Id (w_d w)
    /\ Get d' "secret_id" = VString secretId
    /\ Get d' "instance_id" = VString instanceId
    /\ Get d' "region" = VString region
    /\ Get d' "created_by" = VString (default "" (CreatedBy secret))
    /\ Get d' "created_at" = VString (flex_DateTimeToString (CreatedAt secret))
    /\ Get d' "crn" = VString (default "" (Crn secret))
    /\ Get d' "downloaded" = VBool (default false (Downloaded secret))
    /\ Get d' "locks_total" = VInt (flex_IntValue (LocksTotal secret))
    /\ Get d' "name" = VString (default "" (Name secret))
    /\ Get d' "secret_group_id" = VString (default "" (SecretGroupID secret))
    /\ Get d' "secret_type" = VString (default "" (SecretType secret))
    /\ Get d' "state" = VInt (flex_IntValue (State secret))
    /\ Get d' "state_description" = VString (default "" (StateDescription secret))
    /\ Get d' "updated_at" = VString (flex_DateTimeToString (UpdatedAt secret))
    /\ Get d' "versions_total" = VInt (flex_IntValue (VersionsTotal secret))
    /\ match CustomMetadata secret with
       | Some cm =>
           string_values cm = true ->
           Get d' "custom_metadata" = VMap (stored_elem <$> cm)
       | None => Get d' "custom_metadata" = Get (w_d w) "custom_metadata"
       end
    /\ Get d' "description" = VString (default "" (Description secret))
    /\ Get d' "labels"
       = match Labels secret with
         | Some l => VStrings l
         | None => Get (w_d w) "labels"
         end
    /\ (forall l, Labels secret = Some l -> parse_labels (Get d' "labels") = Ok l)
    /\ Get d' "expiration_date" = VString (flex_DateTimeToString (ExpirationDate secret))
    /\ Get d' "payload" = VString (default "" (Payload secret)).
Proof.
  intros Hcl Hid Hsch Hi Hr rep Herr Hres.
  rewrite (Read_after_call _ _ _ _ _ Hcl Hid). cbv zeta. fold rep.
  rewrite Herr, Hres. unfold Go_bind at 1. cbn [lift as_ArbitrarySecret].
  rewrite Read_flatten_run by done. cbn [w_d w_log].
  eexists. split; [reflexivity|]. split; [reflexivity|].
  assert (Hlabels : Get (with_new (w_d w)
                       (resourceIbmSmArbitrarySecretRead_written_map (rd_refused (w_d w))
                          region instanceId secretId secret (rd_new (w_d w)))) "labels"
                    = match Labels secret with
                      | Some l => VStrings l
                      | None => Get (w_d w) "labels"
                      end).
  { unfold resourceIbmSmArbitrarySecretRead_written_map. read_attr_back Hsch.
    unfold Get, read_attr.
    rewrite (declares_lookup_schema _ _ "labels" _ Hsch eq_refl).
    destruct (Labels secret) as [l|]; [|by skip_writes].
    cbn [stored VStrings]. fold (VStrings l). by rewrite stored_form_VStrings. }
  destruct Hi as (sci & Hi & Hti), Hr as (scr & Hr & Htr).
  unfold resourceIbmSmArbitrarySecretRead_written_map in *.
  split; [by read_attr_back Hsch|].
  split; [rewrite (Get_with_new _ _ _ _ Hi); by read_back|].
  split; [rewrite (Get_with_new _ _ _ _ Hr); by read_back|].
  split; [read_attr_back Hsch; by destruct (CreatedBy secret)|].
  split; [by read_attr_back Hsch|].
  split; [read_attr_back Hsch; by destruct (Crn secret)|].
  split; [read_attr_back Hsch; by destruct (Downloaded secret)|].
  split; [by read_attr_back Hsch|].
  split; [read_attr_back Hsch; by destruct (Name secret)|].
  split; [read_attr_back Hsch; by destruct (SecretGroupID secret)|].
  split; [read_attr_back Hsch; by destruct (SecretType secret)|].
  split; [by read_attr_back Hsch|].
  split; [read_attr_back Hsch; by destruct (StateDescription secret)|].
  split; [by read_attr_back Hsch|].
  split; [by read_attr_back Hsch|].
  split.
  { destruct (CustomMetadata secret) as [cm|].
    - intros Hcm. read_attr_back Hsch. by rewrite Hcm.
    - read_attr_back Hsch. unfold Get, read_attr.
      rewrite (declares_lookup_schema _ _ "custom_metadata" _ Hsch eq_refl).
      by skip_writes. }
  split; [read_attr_back Hsch; by destruct (Description secret)|].
  split; [exact Hlabels|].
  split.
  { intros l Hl. rewrite Hlabels, Hl. unfold parse_labels, VStrings. cbn.
    f_equal. rewrite <- list_fmap_compose. by rewrite list_fmap_id. }
  split; [by read_attr_back Hsch|].
  read_attr_back Hsch. by destruct (Payload secret).
Qed.

(** *** An update is sent before the ID is checked *)

Lemma Read_wrong_length (meta : Meta) (w : World) :
  SecretsManagerV2_err meta = None ->
  length (Split (Id (w_d w)) slash) <> 3%nat ->
  resourceIbmSmArbitrarySecretRead meta w = (Ok (error_diag wrong_id_format), w).
Proof.
  intros Hcl Hlen. unfold resourceIbmSmArbitrarySecretRead. rewrite Hcl.
  unfold Go_bind at 1. cbn [get_d].
  by destruct (Nat.eqb_spec (length (Split (Id (w_d w)) slash)) 3) as [E|_].
Qed.

(** Only read checks that the ID has three components.  On an ID with more
    than two slashes, an update with a changed metadata attribute first
    sends the patch for the third component, and when that call succeeds it
    returns the wrong-format diagnostic of the read that follows, with the
    resource data as it was. *)
Theorem Update_patches_before_the_id_is_checked (meta : Meta) (w : World)
    (patch : SecretMetadataPatch) :
  SecretsManagerV2_err meta = None ->
  (2 < count slash (Id (w_d w)))%nat ->
  resourceIbmSmArbitrarySecretUpdate_patch (w_d w) = Ok (patch, true) ->
  exists secretId,
    index (Split (Id (w_d w)) slash) 2 = Ok secretId
    /\ let sent := UpdateSecretMetadata secretId (AsPatch patch) in
       let rep := service meta (w_log w) sent in
       err rep = None ->
       resourceIbmSmArbitrarySecretUpdate meta w
       = (Ok (error_diag wrong_id_format),
          {| w_d := w_d w; w_log := w_log w ++ [(sent, rep)] |}).
Proof.
  intros Hcl Hc Hpatch. pose proof (Split_count (Id (w_d w)) slash) as Hlen.
  destruct (Split (Id (w_d w)) slash) as [|a [|b [|c [|x l]]]] eqn:Hid;
    cbn [length] in Hlen; try lia.
  exists c. split; [reflexivity|]. cbv zeta. intros Herr.
  rewrite (Update_run _ _ _ _ _ _ _ _ Hcl Hid Hpatch). cbv zeta. rewrite Herr.
  apply Read_wrong_length; [exact Hcl|]. cbn [w_d]. rewrite Hid. cbn [length]. lia.
Qed.

(** *** What the lifecycle functions leave alone *)

(** The attributes that [resourceIbmSmArbitrarySecretRead] writes. *)
Definition resourceIbmSmArbitrarySecretRead_written : list string :=
  [ "secret_id"; "instance_id"; "region"; "created_by"; "created_at"; "crn";
    "downloaded"; "locks_total"; "name"; "secret_group_id"; "secret_type"; "state";
    "state_description"; "updated_at"; "versions_total"; "custom_metadata";
    "description"; "labels"; "expiration_date"; "payload" ].

Lemma keeps_attr_get_d key : keeps_attr key get_d.
Proof. by intros w. Qed.

Lemma keeps_attr_call key sv c : keeps_attr key (call sv c).
Proof. by intros w. Qed.

Lemma keeps_attr_waitFor key sv : keeps_attr key (waitForIbmSmArbitrarySecretCreate sv).
Proof. intros w. by rewrite waitFor_keeps_d. Qed.

Ltac keeps_attr_step Hnot :=
  first
    [ apply keeps_attr_ret
    | apply keeps_attr_lift
    | apply keeps_attr_get_d
    | apply keeps_attr_call
    | apply keeps_attr_d_SetId
    | apply keeps_attr_waitFor
    | apply keeps_attr_d_Set; intros ->; apply Hnot; cbn; repeat (first [by left | right])
    | apply keeps_attr_set_checked_msg;
        [intros ->; apply Hnot; cbn; repeat (first [by left | right])|]
    | apply keeps_attr_bind; [|intros ?]
    | match goal with
      | |- keeps_attr _ (match ?x with _ => _ end _) => destruct x
      | |- keeps_attr _ (match ?x with _ => _ end) => destruct x
      | |- keeps_attr _ (if ?x then _ else _) => destruct x
      | |- keeps_attr _ (let '(_, _) := ?x in _) => destruct x
      end ].

Lemma keeps_attr_Read key meta :
  ~ In key resourceIbmSmArbitrarySecretRead_written ->
  keeps_attr key (resourceIbmSmArbitrarySecretRead meta).
Proof.
  intros Hnot.
  unfold resourceIbmSmArbitrarySecretRead, resourceIbmSmArbitrarySecretRead_flatten,
    set_checked.
  repeat keeps_attr_step Hnot.
Qed.

(** Create, read, update and delete write no attribute outside the list of
    the read, whatever the service answers and however they end:
    [version_custom_metadata], which create sends, is never read back. *)
Theorem lifecycle_writes_only_what_Read_writes (op : Operation) (key : string)
    (meta : Meta) (w : World) :
  ~ In key resourceIbmSmArbitrarySecretRead_written ->
  rd_new (w_d (snd (lifecycle op meta w))) !! key = rd_new (w_d w) !! key.
Proof.
  intros Hnot. revert w. change (keeps_attr key (lifecycle op meta)).
  pose proof (keeps_attr_Read key meta Hnot) as HRead.
  destruct op; cbn [lifecycle]; [| exact HRead | |].
  - unfold resourceIbmSmArbitrarySecretCreate.
    repeat first [exact HRead | keeps_attr_step Hnot].
  - unfold resourceIbmSmArbitrarySecretUpdate.
    repeat first [exact HRead | keeps_attr_step Hnot].
  - unfold resourceIbmSmArbitrarySecretDelete.
    repeat keeps_attr_step Hnot.
Qed.

End Resource.

(** The [Schema] map of [DataSourceIbmSmServiceCredentialsSecret]. *)
Definition DataSourceIbmSmServiceCredentialsSecret_Schema : list (string * Schema) :=
  [ ("secret_id", optional_computed TypeString);
    ("created_by", computed TypeString);
    ("created_at", computed TypeString);
    ("crn", computed TypeString);
    ("custom_metadata", optional_computed TypeMap);
    ("description", optional TypeString);
    ("downloaded", computed TypeBool);
    ("labels", optional_computed TypeList);
    ("locks_total", computed TypeInt);
    ("name", optional_computed TypeString);
    ("secret_group_id", mkSchema TypeString false true true true false []);
    ("secret_group_name", optional TypeString);
    ("secret_type", computed TypeString);
    ("state", computed TypeInt);
    ("state_description", computed TypeString);
    ("updated_at", computed TypeString);
    ("versions_total", computed TypeInt);
    ("version_custom_metadata", optional_computed TypeMap);
    ("ttl", computed TypeString);
    ("rotation", computed_block TypeList
       [ ("auto_rotate", optional_computed TypeBool);
         ("interval", optional_computed TypeInt);
         ("unit", optional_computed TypeString) ]);
    ("next_rotation_date", computed TypeString);
    ("credentials", computed_block TypeList
       [ ("apikey", mkSchema TypeString false false true false true []);
         ("cos_hmac_keys", computed_block TypeList
            [ ("access_key_id", computed TypeString);
              ("secret_access_key", computed TypeString) ]);
         ("endpoints", computed TypeString);
         ("iam_apikey_description", computed TypeString);
         ("iam_apikey_name", computed TypeString);
         ("iam_role_crn", computed TypeString);
         ("iam_serviceid_crn", computed TypeString);
         ("resource_instance_id", computed TypeString) ]);
    ("source_service", computed_block TypeList
       [ ("instance", computed_block TypeList [ ("crn", required TypeString) ]);
         ("role", computed_block TypeList [ ("crn", computed TypeString) ]);
         ("iam", computed_block TypeList
            [ ("apikey", computed_block TypeList
                 [ ("name", computed TypeString);
                   ("description", computed TypeString) ]);
              ("role", computed_block TypeList [ ("crn", computed TypeString) ]);
              ("serviceid", computed_block TypeList [ ("crn", computed TypeString) ]) ]);
         ("resource_key", computed_block TypeList
            [ ("crn", computed TypeString);
              ("name", computed TypeString) ]);
         ("parameters", computed TypeMap) ]) ].

(** ** What the data source's read writes *)

Section DataSource.

Variable flex_IntValue : option Z -> Z.
Variable DateTimeToRFC3339 : option DateTime -> string.
Variable resource_Error : error -> string.
Variable flex_Flatten : gmap string Scalar -> gmap string Scalar.







End DataSource.

(** ** Concrete inputs *)

Module Fixtures.

Definition time_Parse (s : string) : DateTime + error :=
  if bool_decide (s = "2030-01-01T00:00:00Z") then inl 1893456000000000000
  else inr (errorString ("parsing time " ++ s ++ ": cannot parse as RFC 3339")).

Definition DateTimeToString (t : option DateTime) : string :=
  match t with Some t => pretty t | None => "" end.

Definition IntValue (p : option Z) : Z := default 0 p.

Definition sdk_Error (e : error) : string :=
  match e with
  | errorString msg | RequestFailure _ msg => msg
  | TimeoutError last _ _ => "timeout while waiting for state (last state: " ++ last ++ ")"
  | UnexpectedStateError st _ => "unexpected state " ++ st
  | NotFoundError _ => "couldn't find resource"
  end.

Definition region_of (d : ResourceData) : string := "us-south".

(** The attributes the provider adds to every Secrets Manager resource. *)
Definition instance_fields : list (string * Schema) :=
  [ ("instance_id", required TypeString);
    ("region", optional_computed TypeString);
    ("endpoint_type", optional TypeString) ].

Definition resource_schema : gmap string Schema :=
  list_to_map (ResourceIbmSmArbitrarySecret_Schema ++ instance_fields).

(** The planned attributes; the second label is an empty string of the
    configuration, which the framework hands over as nil. *)
Definition planned : gmap string Value :=
  {[ "name" := VString "my-secret";
     "payload" := VString "s3cr3t";
     "instance_id" := VString "inst";
     "labels" := VList [SString "dev"; SNil] ]}.

(** A framework whose refused writes leave the attribute as it was. *)
Definition keeps_old (key : string) (v : Value) (old : option Value) : option Value := old.

(** The pauses of the framework's [WaitForState]: the pause starts from 100
    milliseconds, doubles from refresh to refresh and is kept between the
    minimum interval and 10 seconds, so that with a minimum interval of 5
    seconds the refreshes are due at 0, 5, 15, 25, ... seconds. *)
Fixpoint framework_pause (m : Duration) (n : nat) : Duration :=
  let doubled := match n with
                 | O => 2 * (Second / 10)
                 | S n' => 2 * framework_pause m n'
                 end in
  if (doubled <? m)%Z then m
  else if (10 * Second <? doubled)%Z then 10 * Second
  else doubled.

(** A resource about to be created, with a create timeout of 20 seconds. *)
Definition d_new : ResourceData :=
  {| rd_schema := resource_schema; rd_id := ""; rd_old := ∅; rd_new := planned;
     rd_timeout_create := 20 * Second; rd_refused := keeps_old |}.

(** The same with an expiration date that is not an RFC 3339 timestamp. *)
Definition d_bad_date : ResourceData :=
  {| rd_schema := resource_schema; rd_id := ""; rd_old := ∅;
     rd_new := <["expiration_date" := VString "tomorrow"]> planned;
     rd_timeout_create := 20 * Second; rd_refused := keeps_old |}.

(** An existing resource whose name and labels are about to change. *)
Definition d_existing : ResourceData :=
  {| rd_schema := resource_schema; rd_id := "us-south/inst/abc";
     rd_old := <["name" := VString "old-name"]> (<["labels" := VList []]> planned);
     rd_new := planned;
     rd_timeout_create := 20 * Second; rd_refused := keeps_old |}.

(** An existing resource without pending changes. *)
Definition d_unchanged : ResourceData :=
  {| rd_schema := resource_schema; rd_id := "us-south/inst/abc";
     rd_old := planned; rd_new := planned;
     rd_timeout_create := 20 * Second; rd_refused := keeps_old |}.

Definition secret_in (state : string) : ArbitrarySecret :=
  {| CreatedBy := Some "iam-user"; CreatedAt := Some 1; Crn := Some "crn:v1:abc";
     CustomMetadata := None; Description := None; Downloaded := Some true;
     ID := Some "abc"; Labels := Some ["dev"]; LocksTotal := Some 0;
     Name := Some "my-secret"; SecretGroupID := Some "default";
     SecretType := Some "arbitrary"; State := Some 1; StateDescription := Some state;
     UpdatedAt := Some 2; VersionsTotal := Some 1; ExpirationDate := None;
     Payload := Some "s3cr3t" |}.

Definition ok (state : string) : Reply :=
  {| result := Some (ArbitrarySecretPtr (secret_in state));
     response := Some {| StatusCode := 200; Rendered := "200 OK" |};
     err := None |}.

Definition failure (code : Z) : Reply :=
  {| result := None;
     response := Some {| StatusCode := code; Rendered := "status " ++ pretty code |};
     err := Some (errorString "request failed") |}.

Definition is_read (c : Call * Reply) : bool :=
  match fst c with GetSecret _ => true | _ => false end.

(** A service on which the new secret becomes active at the third read. *)
Definition service_active : Service := fun log c =>
  match c with
  | GetSecret _ =>
      if (length (List.filter is_read log) <? 2)%nat then ok "pre_activation" else ok "active"
  | _ => ok "pre_activation"
  end.

(** A service on which the new secret is destroyed at the second read. *)
Definition service_destroyed : Service := fun log c =>
  match c with
  | GetSecret _ =>
      if (length (List.filter is_read log) <? 1)%nat then ok "pre_activation" else ok "destroyed"
  | _ => ok "pre_activation"
  end.

(** A service on which the secret is suspended. *)
Definition service_suspended : Service := fun _ _ => ok "suspended".

(** A service on which the secret stays in pre-activation. *)
Definition service_pending : Service := fun _ _ => ok "pre_activation".

(** A service that fails every call with the given status. *)
Definition service_failing (code : Z) : Service := fun _ _ => failure code.

(** A failure without a response, as when the service cannot be reached. *)
Definition transport_failure : Reply :=
  {| result := None; response := None; err := Some (errorString "connection refused") |}.

Definition service_unreachable : Service := fun _ _ => transport_failure.

(** A service that creates the secret, reads it as active once and then
    fails every read. *)
Definition service_read_back_failing (code : Z) : Service := fun log c =>
  match c with
  | GetSecret _ =>
      if (length (List.filter is_read log) <? 1)%nat then ok "active" else failure code
  | _ => ok "pre_activation"
  end.

(** A service that creates the secret and then fails every read. *)
Definition service_read_failing (code : Z) : Service := fun _ c =>
  match c with
  | GetSecret _ => failure code
  | _ => ok "pre_activation"
  end.

Definition session (sv : Service) : Meta :=
  {| SecretsManagerV2_err := None; service := sv |}.

Definition start (d : ResourceData) : World := {| w_d := d; w_log := [] |}.

(** A failure that the REST client reports as a request failure. *)
Definition request_failure (code : Z) : Reply :=
  {| result := None;
     response := Some {| StatusCode := code; Rendered := "status " ++ pretty code |};
     err := Some (RequestFailure code "request failed") |}.

Definition service_request_failing (code : Z) : Service := fun _ _ => request_failure code.

(** The prototype that create builds from [planned]. *)
Definition proto_planned : ArbitrarySecretPrototype :=
  {| pCustomMetadata := None; pDescription := None; pExpirationDate := None;
     pLabels := Some ["dev"; "<nil>"]; pName := Some "my-secret"; pSecretGroupID := None;
     pSecretType := Some "arbitrary"; pVersionCustomMetadata := None;
     pPayload := Some "s3cr3t" |}.

(** The patch that update builds for [d_existing]. *)
Definition patch_existing : SecretMetadataPatch :=
  {| mName := Some "my-secret"; mDescription := None; mLabels := Some ["dev"; "<nil>"];
     mCustomMetadata := None |}.

Definition MapToPrototype :=
  resourceIbmSmArbitrarySecretMapToArbitrarySecretPrototype time_Parse sdk_Error.
Definition Refresh := waitForIbmSmArbitrarySecretCreate_Refresh sdk_Error.
Definition waitForCreate := waitForIbmSmArbitrarySecretCreate sdk_Error framework_pause.
Definition Create :=
  resourceIbmSmArbitrarySecretCreate time_Parse DateTimeToString IntValue sdk_Error region_of
    framework_pause.
Definition due := poll_time framework_pause.
Definition Read := resourceIbmSmArbitrarySecretRead DateTimeToString IntValue sdk_Error.
Definition Update := resourceIbmSmArbitrarySecretUpdate DateTimeToString IntValue sdk_Error.
Definition Delete := resourceIbmSmArbitrarySecretDelete sdk_Error.

(** The data source: its schema with the provider's instance attributes, and
    a service-credentials secret whose payload and source service are set. *)
Definition data_source_schema : gmap string Schema :=
  list_to_map (DataSourceIbmSmServiceCredentialsSecret_Schema ++ instance_fields).

Definition d_data_source : ResourceData :=
  {| rd_schema := data_source_schema; rd_id := ""; rd_old := ∅;
     rd_new := {[ "secret_id" := VString "abc"; "instance_id" := VString "inst" ]};
     rd_timeout_create := 0; rd_refused := keeps_old |}.

Definition credentials : ServiceCredentialsSecretCredentials :=
  {| Apikey := Some "api-key"; CosHmacKeys := None; Endpoints := Some "https://cos.example";
     IamApikeyDescription := None; IamApikeyName := Some "key-name";
     IamRoleCrn := Some "crn:v1:role"; IamServiceidCrn := Some "crn:v1:serviceid";
     ResourceInstanceID := Some "crn:v1:instance" |}.

Definition source_service : ServiceCredentialsSecretSourceService :=
  {| InstanceCrn := Some "crn:v1:instance"; RoleCrn := Some "crn:v1:role";
     IamApikey := None; IamRoleCrn' := None; IamServiceidCrn' := None;
     ResourceKey := Some (Some "crn:v1:key", Some "key"); Parameters := None |}.

Definition credentials_secret : ServiceCredentialsSecret :=
  {| scCreatedBy := Some "iam-user"; scCreatedAt := Some 1; scCrn := Some "crn:v1:abc";
     scCustomMetadata := None; scDescription := None; scDownloaded := Some true;
     scID := Some "abc"; scLabels := None; scLocksTotal := Some 0;
     scName := Some "creds"; scSecretGroupID := Some "default";
     scSecretType := Some "service_credentials"; scState := Some 1;
     scStateDescription := Some "active"; scUpdatedAt := Some 2;
     scVersionsTotal := Some 1; scTTL := Some "3600"; scRotation := None;
     scNextRotationDate := None; scCredentials := Some credentials;
     scSourceService := Some source_service |}.

(** [getSecretByIdOrByName] having found the secret. *)
Definition found : Go (option SecretIntf * string * string * Diagnostics) :=
  Go_ret (Some (ServiceCredentialsSecretPtr credentials_secret), "us-south", "inst", []).

Definition DataSourceRead :=
  dataSourceIbmSmServiceCredentialsSecretRead IntValue DateTimeToString sdk_Error
    (fun m => m).

End Fixtures.

Import Fixtures.

(** ** The theorems at concrete inputs *)

Lemma framework_pause_min (n : nat) : (5 * Second <= framework_pause (5 * Second) n)%Z.
Proof.
  destruct n as [|n]; cbn [framework_pause];
    repeat match goal with |- context [(?a <? ?b)%Z] => destruct (Z.ltb_spec a b) end;
    unfold Second in *; lia.
Qed.

Lemma well_typed_planned d :
  rd_schema d = resource_schema -> rd_new d = planned -> well_typed d.
Proof.
  intros Hs Hn. unfold well_typed. rewrite Hs, Hn. apply map_Forall_to_list.
  vm_compute map_to_list. repeat constructor; by eexists.
Qed.

Lemma declares_resource_schema d :
  rd_schema d = resource_schema -> declares d ResourceIbmSmArbitrarySecret_Schema.
Proof. intros Hs. unfold declares. rewrite Hs. repeat constructor. Qed.

(** C8: with [GetSecret] failing, so that it returns a nil result beside the
    error, the refresh closure panics on the type assertion that precedes the
    error check; this holds for a plain error and for a request failure with
    status 404 alike. *)
Theorem Refresh_panics_when_GetSecret_fails :
  err (service_failing 500 [] (GetSecret "abc")) = Some (errorString "request failed")
  /\ fst (Refresh (service_failing 500) "abc" (start d_existing))
     = Panic NilInterfaceConversion
  /\ err (service_request_failing 404 [] (GetSecret "abc"))
     = Some (RequestFailure 404 "request failed")
  /\ fst (Refresh (service_request_failing 404) "abc" (start d_existing))
     = Panic NilInterfaceConversion
  /\ fst (Create (session (service_read_failing 500)) (start d_new))
     = Panic NilInterfaceConversion.
Proof. repeat split; vm_compute; reflexivity. Qed.

(** C4: a successful read of a secret whose credentials and source service
    are set writes the other computed attributes, such as [crn], and leaves
    [credentials] and [source_service], both declared computed, unset. *)
Theorem dataSource_Read_leaves_credentials_unset :
  let out := DataSourceRead found (start d_data_source) in
  let d := w_d (snd out) in
  fst out = Ok []
  /\ scCredentials credentials_secret = Some credentials
  /\ scSourceService credentials_secret = Some source_service
  /\ schema_Computed <$> lookup_schema DataSourceIbmSmServiceCredentialsSecret_Schema
                                       "credentials" = Some true
  /\ schema_Computed <$> lookup_schema DataSourceIbmSmServiceCredentialsSecret_Schema
                                       "source_service" = Some true
  /\ Get d "crn" = VString "crn:v1:abc"
  /\ rd_new d !! "credentials" = None /\ Get d "credentials" = VList []
  /\ rd_new d !! "source_service" = None /\ Get d "source_service" = VList [].
Proof. cbv zeta. repeat split; vm_compute; reflexivity. Qed.


(** The wait on a service that activates the secret at the third refresh,
    which is due after 15 seconds. *)
Lemma waitFor_active_at_third_refresh :
  index (Split (Id d_existing) slash) 2 = Ok "abc"
  /\ due 2 = 15 * Second
  /\ exists w', waitForCreate service_active (start d_existing)
                = (Ok (Some (secret_in "active"), None), w').
Proof.
  split; [reflexivity|]. split; [reflexivity|].
  pose proof (waitForIbmSmArbitrarySecretCreate_polls_until_active
                sdk_Error framework_pause framework_pause_min
                service_active (start d_existing) "abc" eq_refl) as H.
  cbv zeta in H. destruct H as (_ & _ & _ & Hiff & _).
  apply (proj2 (Hiff (Some (secret_in "active")))).
  exists 2%nat, (secret_in "active").
  split; [reflexivity|]. split; [vm_compute; reflexivity|].
  split; [repeat split; reflexivity|].
  intros [|[|m]] Hm; [exists (secret_in "pre_activation"); repeat split; reflexivity..|lia].
Defined.

(** C1, as stated, fails: on a service whose secret is suspended the target
    [active] is never reached, and the wait returns at its first refresh with
    the unexpected-state error, which is not a timeout error. *)
Lemma waitFor_suspended_is_not_a_timeout :
  let out := waitForCreate service_suspended (start d_existing) in
  (forall n, reads (poll_reply service_suspended "abc" [] n)
               (secret_in "suspended") "suspended")
  /\ out = (Ok (Some (secret_in "suspended"),
                Some (UnexpectedStateError "suspended" ["active"])),
            {| w_d := d_existing; w_log := [(GetSecret "abc", ok "suspended")] |})
  /\ ~ exists res last_state timeout expected,
         fst out = Ok (res, Some (TimeoutError last_state timeout expected)).
Proof.
  cbv zeta. split; [intros n; repeat split; reflexivity|].
  split; [vm_compute; reflexivity|].
  intros (res & last_state & timeout & expected & H). vm_compute in H. discriminate.
Qed.

(** Create on a service that destroys the secret at the second refresh. *)
Lemma Create_on_destroyed_secret :
  MapToPrototype d_new = Ok (inl proto_planned)
  /\ reads (poll_reply service_destroyed "abc"
              [(CreateSecret proto_planned, ok "pre_activation")] 1)
           (secret_in "destroyed") "destroyed"
  /\ fst (Create (session service_destroyed) (start d_new))
     = Ok (error_diag ("Error waiting for resource IbmSmArbitrarySecret (us-south/inst/abc)"
                       ++ " to be created: The instance getSecretOptions failed: %!s(<nil>)"
                       ++ nl ++ "200 OK"))
  /\ List.map fst (w_log (snd (Create (session service_destroyed) (start d_new))))
     = [CreateSecret proto_planned; GetSecret "abc"; GetSecret "abc"].
Proof.
  assert (Hproto : MapToPrototype d_new = Ok (inl proto_planned)) by (vm_compute; reflexivity).
  assert (Hdes : reads (poll_reply service_destroyed "abc"
                          [(CreateSecret proto_planned, ok "pre_activation")] 1)
                       (secret_in "destroyed") "destroyed") by (repeat split; reflexivity).
  split; [exact Hproto|]. split; [exact Hdes|].
  destruct (Create_fails_when_secret_is_destroyed
              time_Parse DateTimeToString IntValue sdk_Error region_of
              framework_pause framework_pause_min
              (session service_destroyed) (start d_new) "inst" proto_planned
              (secret_in "pre_activation") "abc" "abc" 1 (secret_in "destroyed")
              eq_refl eq_refl Hproto eq_refl eq_refl eq_refl eq_refl) as [_ H].
  - vm_compute. reflexivity.
  - intros [|m] Hm; [exists (secret_in "pre_activation"); repeat split; reflexivity|lia].
  - exact Hdes.
  - unfold Create. rewrite H. split; vm_compute; reflexivity.
Defined.

(** Read on a service that answers 404, and on one that answers 500. *)
Lemma Read_on_missing_secret :
  Read (session (service_failing 404)) (start d_existing)
  = (Ok [], {| w_d := SetId "" d_existing; w_log := [(GetSecret "abc", failure 404)] |})
  /\ Read (session (service_failing 500)) (start d_existing)
     = (Ok (error_diag ("GetSecretWithContext failed request failed" ++ nl ++ "status 500")),
        {| w_d := d_existing; w_log := [(GetSecret "abc", failure 500)] |}).
Proof.
  split.
  - destruct (Read_GetSecret_failure DateTimeToString IntValue sdk_Error
                (session (service_failing 404)) (start d_existing)
                "us-south" "inst" "abc" (errorString "request failed")
                eq_refl eq_refl eq_refl) as [H _].
    exact (proj1 (H eq_refl)).
  - destruct (Read_GetSecret_failure DateTimeToString IntValue sdk_Error
                (session (service_failing 500)) (start d_existing)
                "us-south" "inst" "abc" (errorString "request failed")
                eq_refl eq_refl eq_refl) as [_ H].
    exact (H eq_refl).
Defined.

(** The prototype built from the planned attributes. *)
Lemma MapToPrototype_of_planned :
  well_typed d_new
  /\ declares d_new ResourceIbmSmArbitrarySecret_Schema
  /\ MapToPrototype d_new = Ok (inl proto_planned)
  /\ pSecretType proto_planned = Some "arbitrary"
  /\ copied d_new "name" is_string (pName proto_planned)
  /\ copied d_new "payload" is_string (pPayload proto_planned)
  /\ copied d_new "custom_metadata" is_map (pCustomMetadata proto_planned)
  /\ copied d_new "description" is_string (pDescription proto_planned)
  /\ copied d_new "expiration_date" (is_parsed_date time_Parse) (pExpirationDate proto_planned)
  /\ copied d_new "labels" is_printed_list (pLabels proto_planned)
  /\ copied d_new "secret_group_id" is_string (pSecretGroupID proto_planned)
  /\ copied d_new "version_custom_metadata" is_map (pVersionCustomMetadata proto_planned).
Proof.
  assert (Hwt : well_typed d_new) by (by apply well_typed_planned).
  assert (Hsch : declares d_new ResourceIbmSmArbitrarySecret_Schema)
    by (by apply declares_resource_schema).
  assert (Hproto : MapToPrototype d_new = Ok (inl proto_planned)) by (vm_compute; reflexivity).
  split; [exact Hwt|]. split; [exact Hsch|]. split; [exact Hproto|].
  pose proof (MapToArbitrarySecretPrototype_copies_set_fields time_Parse sdk_Error
                d_new Hwt Hsch) as H.
  unfold MapToPrototype in Hproto. rewrite Hproto in H. exact H.
Defined.

(** Create with an expiration date that does not parse. *)
Lemma Create_with_unparsable_date :
  time_Parse "tomorrow"
  = inr (errorString "parsing time tomorrow: cannot parse as RFC 3339")
  /\ Create (session (service_failing 500)) (start d_bad_date)
     = (Ok (error_diag ("Failed to get " ++ dquote ++ "expiration_date" ++ dquote
                        ++ ". Error: parsing time tomorrow: cannot parse as RFC 3339")),
        start d_bad_date).
Proof.
  split; [reflexivity|].
  apply (Create_invalid_expiration_date_is_atomic
           time_Parse DateTimeToString IntValue sdk_Error region_of framework_pause
           (session (service_failing 500)) (start d_bad_date) "tomorrow"
           (errorString "parsing time tomorrow: cannot parse as RFC 3339")).
  - reflexivity.
  - unfold well_typed. apply map_Forall_to_list.
    vm_compute map_to_list. repeat constructor; by eexists.
  - by apply declares_resource_schema.
  - by exists "inst".
  - reflexivity.
  - reflexivity.
  - reflexivity.
Defined.

Ltac decide_response H :=
  unfold ends_as_failed_Read in H; cbv zeta in H;
  match type of H with
  | if ?c then _ else _ => let v := eval vm_compute in c in change c with v in H
  end;
  cbv iota in H.

(** The world in which create reads the secret back, on a service that
    reads the secret as active at the first refresh of the poll. *)
Definition after_the_wait : World :=
  {| w_d := created_d region_of d_new "inst" "abc";
     w_log := [(CreateSecret proto_planned, ok "pre_activation");
               (GetSecret "abc", ok "active")] |}.

(** The four functions on a service that fails every call with status 500,
    delete on a service that cannot be reached, read on a service that
    answers 404, and update and create on services that fail the read at
    their end. *)
Lemma failing_service_is_reported :
  fst (Create (session (service_failing 500)) (start d_existing))
  = Ok (error_diag ("CreateSecretWithContext failed request failed" ++ nl ++ "status 500"))
  /\ fst (Read (session (service_failing 500)) (start d_existing))
     = Ok (error_diag ("GetSecretWithContext failed request failed" ++ nl ++ "status 500"))
  /\ fst (Update (session (service_failing 500)) (start d_existing))
     = Ok (error_diag ("UpdateSecretMetadataWithContext failed request failed"
                       ++ nl ++ "status 500"))
  /\ fst (Delete (session (service_failing 500)) (start d_existing))
     = Ok (error_diag ("DeleteSecretWithContext failed request failed" ++ nl ++ "status 500"))
  /\ fst (Delete (session service_unreachable) (start d_existing))
     = Ok (error_diag ("DeleteSecretWithContext failed connection refused" ++ nl
                       ++ "null" ++ nl))
  /\ (fst (Read (session (service_failing 404)) (start d_existing)) = Ok []
      /\ Id (w_d (snd (Read (session (service_failing 404)) (start d_existing)))) = "")
  /\ fst (Update (session (service_failing 500)) (start d_unchanged))
     = Ok (error_diag ("GetSecretWithContext failed request failed" ++ nl ++ "status 500"))
  /\ fst (Create (session (service_read_back_failing 500)) (start d_new))
     = Ok (error_diag ("GetSecretWithContext failed request failed" ++ nl ++ "status 500")).
Proof.
  destruct (failed_call_is_wrapped_with_its_name
              time_Parse DateTimeToString IntValue sdk_Error region_of framework_pause
              (session (service_failing 500)) (start d_existing) eq_refl)
    as (HC & HR & HU & HD & _ & _).
  split; [|split; [|split; [|split; [|split; [|split; [|split]]]]]].
  - apply (HC "inst" proto_planned (errorString "request failed"));
      [reflexivity|vm_compute; reflexivity|reflexivity].
  - apply (HR "us-south" "inst" "abc" (errorString "request failed")); reflexivity.
  - apply (HU "us-south" "inst" "abc" [] patch_existing (errorString "request failed"));
      [reflexivity|vm_compute; reflexivity|reflexivity].
  - apply (HD "us-south" "inst" "abc" [] (errorString "request failed")); reflexivity.
  - destruct (failed_call_is_wrapped_with_its_name
                time_Parse DateTimeToString IntValue sdk_Error region_of framework_pause
                (session service_unreachable) (start d_existing) eq_refl)
      as (_ & _ & _ & HD' & _).
    apply (HD' "us-south" "inst" "abc" [] (errorString "connection refused")); reflexivity.
  - destruct (failed_call_is_wrapped_with_its_name
                time_Parse DateTimeToString IntValue sdk_Error region_of framework_pause
                (session (service_failing 404)) (start d_existing) eq_refl)
      as (_ & HR' & _).
    apply (HR' "us-south" "inst" "abc" (errorString "request failed")); reflexivity.
  - destruct (failed_call_is_wrapped_with_its_name
                time_Parse DateTimeToString IntValue sdk_Error region_of framework_pause
                (session (service_failing 500)) (start d_unchanged) eq_refl)
      as (_ & _ & _ & _ & HU' & _).
    pose proof (HU' "us-south" "inst" "abc"
                  {| mName := None; mDescription := None; mLabels := None;
                     mCustomMetadata := None |} false (errorString "request failed")
                  eq_refl ltac:(vm_compute; reflexivity) ltac:(discriminate) eq_refl) as H.
    decide_response H. unfold Update. by rewrite H.
  - destruct (failed_call_is_wrapped_with_its_name
                time_Parse DateTimeToString IntValue sdk_Error region_of framework_pause
                (session (service_read_back_failing 500)) (start d_new) eq_refl)
      as (_ & _ & _ & _ & _ & HC').
    pose proof (HC' "inst" proto_planned (secret_in "pre_activation") "abc"
                  (Some (secret_in "active")) after_the_wait "us-south" "inst" "abc"
                  (errorString "request failed")
                  eq_refl ltac:(vm_compute; reflexivity) eq_refl eq_refl eq_refl
                  ltac:(vm_compute; reflexivity) eq_refl eq_refl) as H.
    decide_response H. unfold Create. by rewrite H.
Defined.

(** C6, as stated, fails: a read whose [GetSecretWithContext] call fails with
    a 404 response returns no diagnostic at all. *)
Lemma Read_404_returns_no_diagnostic :
  let out := Read (session (service_failing 404)) (start d_existing) in
  w_log (snd out) = [(GetSecret "abc", failure 404)]
  /\ failed (GetSecret "abc", failure 404)
  /\ fst out = Ok []
  /\ ~ returned_error out.
Proof.
  cbv zeta. split; [vm_compute; reflexivity|]. split; [discriminate|].
  split; [vm_compute; reflexivity|].
  intros (diags & Hd & He). vm_compute in Hd. injection Hd as <-. discriminate.
Qed.

(** C7, as stated, fails: an update without changes reads the secret back,
    and when that first call fails with a 404 response it returns no
    diagnostic. *)
Lemma Update_404_returns_no_diagnostic :
  let out := Update (session (service_failing 404)) (start d_unchanged) in
  w_log (snd out) = [(GetSecret "abc", failure 404)]
  /\ failed (GetSecret "abc", failure 404)
  /\ fst out = Ok []
  /\ ~ returned_error out.
Proof.
  cbv zeta. split; [vm_compute; reflexivity|]. split; [discriminate|].
  split; [vm_compute; reflexivity|].
  intros (diags & Hd & He). vm_compute in Hd. injection Hd as <-. discriminate.
Qed.

(** Create on a service that reads the secret as active at the first
    refresh and fails the read that follows the wait. *)
Lemma Create_reports_the_failed_read_back :
  waitForCreate (service_read_back_failing 500)
    {| w_d := created_d region_of d_new "inst" "abc";
       w_log := [(CreateSecret proto_planned, ok "pre_activation")] |}
  = (Ok (Some (secret_in "active"), None), after_the_wait)
  /\ Create (session (service_read_back_failing 500)) (start d_new)
     = (Ok (error_diag ("GetSecretWithContext failed request failed" ++ nl ++ "status 500")),
        {| w_d := created_d region_of d_new "inst" "abc";
           w_log := [(CreateSecret proto_planned, ok "pre_activation");
                     (GetSecret "abc", ok "active");
                     (GetSecret "abc", failure 500)] |}).
Proof.
  assert (Hwait : waitForCreate (service_read_back_failing 500)
                    {| w_d := created_d region_of d_new "inst" "abc";
                       w_log := [(CreateSecret proto_planned, ok "pre_activation")] |}
                  = (Ok (Some (secret_in "active"), None), after_the_wait))
    by (vm_compute; reflexivity).
  split; [exact Hwait|].
  destruct (failed_call_ends_the_operation
              time_Parse DateTimeToString IntValue sdk_Error region_of framework_pause
              (session (service_read_back_failing 500)) (start d_new)) as [_ H].
  destruct (H "inst" proto_planned (secret_in "pre_activation") "abc"
              (Some (secret_in "active")) after_the_wait "us-south" "inst" "abc"
              (errorString "request failed")
              eq_refl eq_refl ltac:(vm_compute; reflexivity) eq_refl eq_refl eq_refl
              Hwait eq_refl eq_refl) as [_ Hend].
  decide_response Hend. exact Hend.
Defined.

(** An existing resource whose labels and custom metadata are about to be
    emptied. *)
Definition d_emptied : ResourceData :=
  {| rd_schema := resource_schema; rd_id := "us-south/inst/abc";
     rd_old := <["labels" := VList [SString "dev"]]>
                 (<["custom_metadata" := VMap {[ "team" := SString "ops" ]}]> planned);
     rd_new := <["labels" := VList []]> (<["custom_metadata" := VMap ∅]> planned);
     rd_timeout_create := 20 * Second; rd_refused := keeps_old |}.

(** C10: when the labels and the custom metadata change to empty values,
    update fills both fields of the patch struct and sends the PATCH request,
    but the body of the request holds neither: the change is not
    transmitted, and the read that follows writes the labels of the service
    back over the planned empty list. *)
Theorem Update_leaves_emptied_labels_out_of_the_patch :
  let out := Update (session service_pending) (start d_emptied) in
  HasChange d_emptied "labels" = true
  /\ Get d_emptied "labels" = VList []
  /\ HasChange d_emptied "custom_metadata" = true
  /\ Get d_emptied "custom_metadata" = VMap ∅
  /\ resourceIbmSmArbitrarySecretUpdate_patch d_emptied
     = Ok ({| mName := None; mDescription := None; mLabels := Some [];
              mCustomMetadata := Some ∅ |}, true)
  /\ AsPatch {| mName := None; mDescription := None; mLabels := Some [];
                mCustomMetadata := Some ∅ |} = ∅
  /\ w_log (snd out)
     = [(UpdateSecretMetadata "abc" ∅, ok "pre_activation");
        (GetSecret "abc", ok "pre_activation")]
  /\ fst out = Ok []
  /\ Get (w_d (snd out)) "labels" = VList [SString "dev"].
Proof. cbv zeta. repeat split; vm_compute; reflexivity. Qed.

(** Update of a resource whose name and labels changed. *)
Lemma Update_of_changed_name_and_labels :
  well_typed d_existing
  /\ metadata_changed d_existing = true
  /\ w_log (snd (Update (session service_active) (start d_existing)))
     = [(UpdateSecretMetadata "abc"
           {[ "name" := VString "my-secret";
              "labels" := VList [SString "dev"; SString "<nil>"] ]},
         ok "pre_activation");
        (GetSecret "abc", ok "pre_activation")]
  /\ exists body reads_back,
       body !! "name" = Some (VString "my-secret")
       /\ body !! "description" = None
       /\ body !! "labels" = Some (VList [SString "dev"; SString "<nil>"])
       /\ body !! "custom_metadata" = None
       /\ w_log (snd (Update (session service_active) (start d_existing))) =
            ([(UpdateSecretMetadata "abc" body,
               service_active [] (UpdateSecretMetadata "abc" body))] ++ reads_back)%list
       /\ Forall (fun cr => is_GetSecret (fst cr) /\ carries_payload (fst cr) = false)
                 reads_back.
Proof.
  assert (Hwt : well_typed d_existing) by (by apply well_typed_planned).
  split; [exact Hwt|]. split; [vm_compute; reflexivity|].
  split; [vm_compute; reflexivity|].
  destruct (Update_sends_the_changed_nonempty_metadata DateTimeToString IntValue sdk_Error
              (session service_active) (start d_existing) "us-south" "inst" "abc" []
              eq_refl Hwt (declares_resource_schema d_existing eq_refl) eq_refl)
    as (body & reads_back & H1 & H2 & H3 & H4 & _ & Hlog & Hreads & _).
  exists body, reads_back.
  split; [exact H1|]. split; [exact H2|]. split; [exact H3|]. split; [exact H4|].
  split; [exact Hlog|exact Hreads].
Defined.

(** ** The further properties at concrete inputs *)

(** A resource whose ID is a bare secret id, as an import without region
    and instance would leave it. *)
Definition d_short : ResourceData :=
  {| rd_schema := resource_schema; rd_id := "abc"; rd_old := planned; rd_new := planned;
     rd_timeout_create := 20 * Second; rd_refused := keeps_old |}.

(** An existing resource with version metadata in its configuration. *)
Definition d_versioned : ResourceData :=
  {| rd_schema := resource_schema; rd_id := "us-south/inst/abc"; rd_old := planned;
     rd_new := <["version_custom_metadata" := VMap {[ "build" := SString "42" ]}]> planned;
     rd_timeout_create := 20 * Second; rd_refused := keeps_old |}.





(** Read of a resource with a bare secret id as its ID, and of one with a
    three-part ID. *)
Lemma Read_of_a_bare_secret_id :
  Read (session service_pending) (start d_short)
  = (Ok (error_diag wrong_id_format), start d_short)
  /\ w_log (snd (Read (session service_pending) (start d_existing)))
     = [(GetSecret "abc", ok "pre_activation")].
Proof.
  split.
  - apply (Read_checks_the_id_format DateTimeToString IntValue sdk_Error
             (session service_pending) (start d_short) eq_refl).
    vm_compute. discriminate.
  - destruct (Read_checks_the_id_format DateTimeToString IntValue sdk_Error
                (session service_pending) (start d_existing) eq_refl) as [_ H].
    destruct (H eq_refl) as (region & instanceId & secretId & Hid & Hlog).
    injection Hid as <- <- <-. exact Hlog.
Defined.

(** Update, delete and the creation poll on a resource with a bare secret id
    as its ID. *)
Lemma bare_secret_id_panics :
  Update (session service_pending) (start d_short) = (Panic IndexOutOfRange, start d_short)
  /\ Delete (session service_pending) (start d_short) = (Panic IndexOutOfRange, start d_short)
  /\ waitForCreate service_pending (start d_short) = (Panic IndexOutOfRange, start d_short).
Proof.
  apply (short_id_panics DateTimeToString IntValue sdk_Error framework_pause
           (session service_pending) (start d_short) eq_refl).
  vm_compute. lia.
Defined.

(** The ID that create writes for a region, an instance and a secret id
    without slashes. *)
Lemma created_id_of_new_secret :
  Split (Id (created_d region_of d_new "inst" "abc")) slash = ["us-south"; "inst"; "abc"].
Proof.
  exact (proj1 (created_id_splits_back region_of d_new "inst" "abc")
           eq_refl eq_refl eq_refl).
Defined.

(** Delete on a service that deletes the secret, and on one that fails. *)
Lemma Delete_of_existing_secret :
  (fst (Delete (session service_pending) (start d_existing)) = Ok []
   /\ Id (w_d (snd (Delete (session service_pending) (start d_existing)))) = "")
  /\ w_d (snd (Delete (session (service_failing 500)) (start d_existing))) = d_existing.
Proof.
  split.
  - destruct (Delete_clears_the_id_when_deleted sdk_Error
                (session service_pending) (start d_existing) "us-south" "inst" "abc" []
                eq_refl eq_refl) as (_ & _ & H & _).
    exact (H eq_refl).
  - destruct (Delete_clears_the_id_when_deleted sdk_Error
                (session (service_failing 500)) (start d_existing) "us-south" "inst" "abc" []
                eq_refl eq_refl) as (_ & _ & _ & H).
    apply H. discriminate.
Defined.

(** Create on a service that activates the secret at the third refresh ends
    with the read of the active secret. *)
Lemma Create_then_Read_of_active_secret :
  let polled :=
    waitForCreate service_active
      {| w_d := created_d region_of d_new "inst" "abc";
         w_log := [(CreateSecret proto_planned, ok "pre_activation")] |} in
  fst polled = Ok (Some (secret_in "active"), None)
  /\ Id (w_d (snd polled)) = "us-south/inst/abc"
  /\ Create (session service_active) (start d_new)
     = Read (session service_active) (snd polled).
Proof.
  cbv zeta.
  assert (Hw : fst (waitForCreate service_active
                      {| w_d := created_d region_of d_new "inst" "abc";
                         w_log := [(CreateSecret proto_planned, ok "pre_activation")] |})
               = Ok (Some (secret_in "active"), None)) by (vm_compute; reflexivity).
  split; [exact Hw|].
  pose proof (Create_after_the_wait time_Parse DateTimeToString IntValue sdk_Error region_of
                framework_pause
                (session service_active) (start d_new) "inst" proto_planned
                (secret_in "pre_activation") "abc" eq_refl eq_refl) as H.
  assert (Hproto : MapToPrototype d_new = Ok (inl proto_planned)) by (vm_compute; reflexivity).
  specialize (H Hproto eq_refl eq_refl eq_refl). cbv zeta in H.
  destruct H as [Hid H]. split; [exact Hid|].
  change (fst (waitForIbmSmArbitrarySecretCreate sdk_Error framework_pause
                 (service (session service_active))
                 {| w_d := created_d region_of (w_d (start d_new)) "inst" "abc";
                    w_log := (w_log (start d_new)
                              ++ [(CreateSecret proto_planned,
                                   service (session service_active) (w_log (start d_new))
                                     (CreateSecret proto_planned))])%list |}))
    with (fst (waitForCreate service_active
                 {| w_d := created_d region_of d_new "inst" "abc";
                    w_log := [(CreateSecret proto_planned, ok "pre_activation")] |})) in H.
  rewrite Hw in H. exact H.
Defined.

(** A secret whose metadata holds a string and a nil value, and one whose
    metadata holds a number. *)
Definition tagged_secret (cm : gmap string Scalar) : ArbitrarySecret :=
  {| CreatedBy := Some "iam-user"; CreatedAt := Some 1; Crn := Some "crn:v1:abc";
     CustomMetadata := Some cm; Description := None; Downloaded := Some true;
     ID := Some "abc"; Labels := Some ["dev"]; LocksTotal := Some 0;
     Name := Some "my-secret"; SecretGroupID := Some "default";
     SecretType := Some "arbitrary"; State := Some 1; StateDescription := Some "active";
     UpdatedAt := Some 2; VersionsTotal := Some 1; ExpirationDate := None;
     Payload := Some "s3cr3t" |}.

Definition service_tagged (cm : gmap string Scalar) : Service := fun _ _ =>
  {| result := Some (ArbitrarySecretPtr (tagged_secret cm));
     response := Some {| StatusCode := 200; Rendered := "200 OK" |};
     err := None |}.

(** Read of an existing secret: the attributes hold its fields, the labels
    read back are the labels of the secret, and metadata of strings and nil
    values reads back with the empty string for nil. *)
Lemma Read_of_existing_secret :
  (exists d',
     Read (session service_pending) (start d_existing)
     = (Ok [], {| w_d := d'; w_log := [(GetSecret "abc", ok "pre_activation")] |})
     /\ Get d' "secret_id" = VString "abc"
     /\ Get d' "region" = VString "us-south"
     /\ Get d' "state_description" = VString "pre_activation"
     /\ Get d' "description" = VString ""
     /\ Get d' "labels" = VList [SString "dev"]
     /\ Get d' "payload" = VString "s3cr3t")
  /\ Get (w_d (snd (Read (session (service_tagged {[ "team" := SString "ops";
                                                     "note" := SNil ]}))
                         (start d_existing)))) "custom_metadata"
     = VMap {[ "team" := SString "ops"; "note" := SString "" ]}.
Proof.
  split.
  - destruct (Read_flattens_the_secret DateTimeToString IntValue sdk_Error
                (session service_pending) (start d_existing) "us-south" "inst" "abc"
                (secret_in "pre_activation") eq_refl eq_refl
                (declares_resource_schema d_existing eq_refl))
      as (d' & Hrun & _ & Hsid & _ & Hregion & _ & _ & _ & _ & _ & _ & _ & _ & _
          & Hstate & _ & _ & _ & Hdesc & Hlabels & _ & _ & Hpayload).
    + exists (required TypeString). split; reflexivity.
    + exists (optional_computed TypeString). split; reflexivity.
    + reflexivity.
    + reflexivity.
    + exists d'. by repeat split.
  - destruct (Read_flattens_the_secret DateTimeToString IntValue sdk_Error
                (session (service_tagged {[ "team" := SString "ops"; "note" := SNil ]}))
                (start d_existing) "us-south" "inst" "abc"
                (tagged_secret {[ "team" := SString "ops"; "note" := SNil ]})
                eq_refl eq_refl (declares_resource_schema d_existing eq_refl))
      as (d' & Hrun & _ & _ & _ & _ & _ & _ & _ & _ & _ & _ & _ & _ & _
          & _ & _ & _ & Hcm & _).
    + exists (required TypeString). split; reflexivity.
    + exists (optional_computed TypeString). split; reflexivity.
    + reflexivity.
    + reflexivity.
    + unfold Read. rewrite Hrun. cbn [snd w_d]. cbn [tagged_secret CustomMetadata] in Hcm.
      rewrite (Hcm ltac:(vm_compute; reflexivity)). vm_compute. reflexivity.
Defined.

(** No lifecycle function writes [version_custom_metadata]. *)
Lemma version_custom_metadata_is_left_alone :
  Forall (fun op =>
            rd_new (w_d (snd (lifecycle time_Parse DateTimeToString IntValue sdk_Error
                                region_of framework_pause op (session service_active)
                                (start d_versioned))))
              !! "version_custom_metadata"
            = Some (VMap {[ "build" := SString "42" ]}))
         [CreateContext; ReadContext; UpdateContext; DeleteContext].
Proof.
  assert (Hnot : ~ In "version_custom_metadata" resourceIbmSmArbitrarySecretRead_written).
  { cbn. intros H. repeat (destruct H as [H|H]; [discriminate H|]). exact H. }
  repeat (apply List.Forall_cons;
          [exact (lifecycle_writes_only_what_Read_writes time_Parse DateTimeToString
                    IntValue sdk_Error region_of framework_pause _ "version_custom_metadata"
                    (session service_active) (start d_versioned) Hnot)|]).
  apply List.Forall_nil.
Defined.


(** An existing resource with a four-part ID whose name and labels are
    about to change. *)
Definition d_long : ResourceData :=
  {| rd_schema := resource_schema; rd_id := "us-south/inst/abc/v1";
     rd_old := <["name" := VString "old-name"]> (<["labels" := VList []]> planned);
     rd_new := planned;
     rd_timeout_create := 20 * Second; rd_refused := keeps_old |}.

(** Update of a resource with a four-part ID. *)
Lemma Update_of_a_four_part_id :
  Update (session service_pending) (start d_long)
  = (Ok (error_diag wrong_id_format),
     {| w_d := d_long;
        w_log := [(UpdateSecretMetadata "abc" (AsPatch patch_existing),
                   ok "pre_activation")] |}).
Proof.
  destruct (Update_patches_before_the_id_is_checked DateTimeToString IntValue sdk_Error
              (session service_pending) (start d_long) patch_existing eq_refl)
    as (secretId & Hid & H).
  - vm_compute. lia.
  - vm_compute. reflexivity.
  - injection Hid as <-. exact (H eq_refl).
Defined.
